(** * Job-Application-Tracker: the dashboard metrics and the add-job form

    A shallow embedding of
      - [src/types/job.ts]            (the [Job] record and [JobStatus]),
      - [src/components/Dashboard.tsx] (the [useMemo] callback that derives
        the dashboard statistics from the job list, and what is drawn),
      - [src/components/JobForm.tsx]  (the state of the creation dialog),
      - [src/components/JobList.tsx]  (the table and its handlers),
      - [src/contexts/JobContext.tsx] (the provider and its operations),
      - [src/App.tsx]                 (the error boundary),
      - [src/firebase.ts]             (the check of the configuration),
    together with the few JavaScript primitives they rely on: objects used
    as string-keyed maps, [Object.entries], IEEE-754 double arithmetic for
    [/] and [*], [Math.round], [String.prototype.trim], and the [Date]
    constructor followed by date-fns' [format(d, 'MMM yyyy')]. *)

From Stdlib Require Import List String Ascii Bool Arith ZArith QArith Qround.
From Stdlib Require Import Qpower Lia Lqa Permutation DecimalString SpecFloat.
Import ListNotations.

Local Close Scope Q_scope.
Local Open Scope string_scope.
Local Open Scope list_scope.

(* ================================================================== *)
(** * JavaScript primitives                                            *)
(* ================================================================== *)

Module JS.

(** ** Objects used as maps

    [{}] with string keys: the own properties in creation order.  The
    keys written by the dashboard are the five status names and the
    month labels; none of them is the name of a property inherited from
    [Object.prototype], so a read of an absent key is [undefined]. *)

Definition Obj (V : Type) : Type := list (string * V).

Fixpoint get {V : Type} (o : Obj V) (k : string) : option V :=
  match o with
  | [] => None
  | (k', v) :: r => if String.eqb k' k then Some v else get r k
  end.

(** [o[k] = v]: an existing property keeps its place, a new one is
    created after all the others. *)
Fixpoint set {V : Type} (o : Obj V) (k : string) (v : V) : Obj V :=
  match o with
  | [] => [(k, v)]
  | (k', v') :: r =>
      if String.eqb k' k then (k', v) :: r else (k', v') :: set r k v
  end.

(** [(acc[k] || 0) + 1] on a map of counters: [undefined] and [0] are
    both falsy. *)
Definition bump (o : Obj nat) (k : string) : Obj nat :=
  set o k (match get o k with Some n => n | None => 0 end + 1).

(** ** Property enumeration order

    [Object.entries] lists the array-index keys first, by ascending
    numeric value, and then the other string keys in creation order.  An
    array index is the canonical decimal form of an integer below
    2^32 - 1. *)

Definition is_digit (c : ascii) : bool :=
  let n := nat_of_ascii c in ((48 <=? n) && (n <=? 57))%nat.

Definition digit_val (c : ascii) : N := N.of_nat (nat_of_ascii c - 48).

Fixpoint digits_val (s : string) (acc : N) : option N :=
  match s with
  | EmptyString => Some acc
  | String c r =>
      if is_digit c then digits_val r (10 * acc + digit_val c)%N else None
  end.

Definition array_index (s : string) : option N :=
  match s with
  | EmptyString => None
  | String c r =>
      if Ascii.eqb c "0" && negb (String.eqb r EmptyString) then None
      else match digits_val s 0%N with
           | Some n => if (n <? 4294967295)%N then Some n else None
           | None => None
           end
  end.

Definition is_array_index (s : string) : bool :=
  match array_index s with Some _ => true | None => false end.

Definition index_val (s : string) : N :=
  match array_index s with Some n => n | None => 0%N end.

Fixpoint insert_by_index {V : Type} (e : string * V) (l : Obj V) : Obj V :=
  match l with
  | [] => [e]
  | e' :: r =>
      if (index_val (fst e) <=? index_val (fst e'))%N then e :: l
      else e' :: insert_by_index e r
  end.

Definition sort_by_index {V : Type} (l : Obj V) : Obj V :=
  fold_right insert_by_index [] l.

Definition entries {V : Type} (o : Obj V) : list (string * V) :=
  sort_by_index (filter (fun e => is_array_index (fst e)) o)
  ++ filter (fun e => negb (is_array_index (fst e))) o.

(** ** Numbers

    The dashboard only divides and multiplies non-negative integers that
    count elements of an array, so every operand is below 2^32 and every
    result lies far inside the normal range of binary64.  A Number is
    modelled by the rational it denotes; [/] and [*] round the exact
    result to 53 significant bits, to nearest, ties to even.  (Exponent
    overflow and underflow, infinities and NaN are out of reach of these
    operands and are not modelled; a division is only evaluated under
    the guard that its divisor is positive.) *)

Definition Number : Type := Q.

Definition of_nat (n : nat) : Number := inject_Z (Z.of_nat n).

(** floor of the binary logarithm of a positive rational *)
Definition ilog2 (q : Q) : Z :=
  let k := (Z.log2 (Qnum q) - Z.log2 (Zpos (Qden q)))%Z in
  if Qle_bool (2 ^ k)%Q q then k else (k - 1)%Z.

(** round to an integer, to nearest, ties to even *)
Definition rne (s : Q) : Z :=
  let f := Qfloor s in
  match (s - inject_Z f ?= 1 # 2)%Q with
  | Lt => f
  | Gt => (f + 1)%Z
  | Eq => if Z.even f then f else (f + 1)%Z
  end.

Definition round_pos (q : Q) : Q :=
  let e := (ilog2 q - 52)%Z in
  Qred (inject_Z (rne (q / 2 ^ e)%Q) * 2 ^ e)%Q.

Definition binary64 (q : Q) : Number :=
  match Qnum q with
  | Z0 => 0%Q
  | Zpos _ => round_pos q
  | Zneg _ => (- round_pos (- q))%Q
  end.

Definition div (x y : Number) : Number := binary64 (x / y)%Q.
Definition mul (x y : Number) : Number := binary64 (x * y)%Q.

(** [Math.round]: the nearest integer, a tie going towards +infinity. *)
Definition Math_round (x : Number) : Z := Qfloor (x + (1 # 2))%Q.

(** ** Strings

    A string of the model is the text in UTF-8, one [ascii] per byte.
    No byte sequence of [white_space] begins inside the encoding of
    another character, so that white space is found at the bytes where
    it is found at the characters. *)

(** a string is truthy when it is not empty *)
Definition truthy (s : string) : bool := negb (String.eqb s EmptyString).

(** The characters that [trim] removes, in UTF-8: the white space and the
    line terminators of ECMAScript. *)
Definition white_space : list string :=
  let b1 (a : nat) := String (ascii_of_nat a) EmptyString in
  let b2 (a b : nat) := String (ascii_of_nat a) (b1 b) in
  let b3 (a b c : nat) := String (ascii_of_nat a) (b2 b c) in
  [b1 9;                (* U+0009 character tabulation *)
   b1 10;               (* U+000A line feed *)
   b1 11;               (* U+000B line tabulation *)
   b1 12;               (* U+000C form feed *)
   b1 13;               (* U+000D carriage return *)
   b1 32;               (* U+0020 space *)
   b2 194 160;          (* U+00A0 no-break space *)
   b3 225 154 128;      (* U+1680 ogham space mark *)
   b3 226 128 128;      (* U+2000 en quad *)
   b3 226 128 129;      (* U+2001 em quad *)
   b3 226 128 130;      (* U+2002 en space *)
   b3 226 128 131;      (* U+2003 em space *)
   b3 226 128 132;      (* U+2004 three-per-em space *)
   b3 226 128 133;      (* U+2005 four-per-em space *)
   b3 226 128 134;      (* U+2006 six-per-em space *)
   b3 226 128 135;      (* U+2007 figure space *)
   b3 226 128 136;      (* U+2008 punctuation space *)
   b3 226 128 137;      (* U+2009 thin space *)
   b3 226 128 138;      (* U+200A hair space *)
   b3 226 128 168;      (* U+2028 line separator *)
   b3 226 128 169;      (* U+2029 paragraph separator *)
   b3 226 128 175;      (* U+202F narrow no-break space *)
   b3 226 129 159;      (* U+205F medium mathematical space *)
   b3 227 128 128;      (* U+3000 ideographic space *)
   b3 239 187 191].     (* U+FEFF zero width no-break space *)

(** What follows [w] in [s], when [s] starts with [w]. *)
Fixpoint strip_prefix (w s : string) : option string :=
  match w with
  | EmptyString => Some s
  | String a w' =>
      match s with
      | String b s' => if Ascii.eqb a b then strip_prefix w' s' else None
      | EmptyString => None
      end
  end.

Fixpoint skip_any (ws : list string) (s : string) : option string :=
  match ws with
  | [] => None
  | w :: r =>
      match strip_prefix w s with
      | Some s' => Some s'
      | None => skip_any r s
      end
  end.

(** What follows the first character of [s], when that is white space. *)
Definition skip_white (s : string) : option string := skip_any white_space s.

Fixpoint trim_start_fuel (fuel : nat) (s : string) : string :=
  match fuel with
  | O => s
  | S f =>
      match skip_white s with
      | Some r => trim_start_fuel f r
      | None => s
      end
  end.

Definition trim_start (s : string) : string :=
  trim_start_fuel (String.length s) s.

(** [trim_end] keeps the characters up to the last one that is not white
    space: it cuts at the first place after which only white space is
    left. *)
Fixpoint trim_end (s : string) : string :=
  match s with
  | EmptyString => EmptyString
  | String c r =>
      if truthy (trim_start s) then String c (trim_end r) else EmptyString
  end.

Definition trim (s : string) : string := trim_end (trim_start s).

(** [`${n}`] for a non-negative integer *)
Definition nat_to_string (n : nat) : string :=
  NilEmpty.string_of_uint (Nat.to_uint n).

End JS.

(* ================================================================== *)
(** * src/types/job.ts                                                 *)
(* ================================================================== *)

Inductive JobStatus : Type :=
  Applied | Interview | Offer | Accepted | Rejected.

(** The string each member of the union type is at run time. *)
Definition status_name (s : JobStatus) : string :=
  match s with
  | Applied => "Applied"
  | Interview => "Interview"
  | Offer => "Offer"
  | Accepted => "Accepted"
  | Rejected => "Rejected"
  end.

Definition JobStatus_eqb (a b : JobStatus) : bool :=
  String.eqb (status_name a) (status_name b).

Record Job : Type := mkJob {
  id : string;
  company : string;
  role : string;
  dateApplied : string;
  status : JobStatus;
  notes : option string;
  updatedAt : string
}.


(* ================================================================== *)
(** * Dates: [new Date(s)] and date-fns [format]                       *)
(* ================================================================== *)

(** What the run-time environment decides: which strings the [Date]
    constructor accepts, and the local calendar month and year of an
    accepted time value.  [Date_new s = None] stands for the Invalid Date
    (time value NaN). *)
Class DateEnv : Type := {
  TimeValue : Type;
  Date_new : string -> option TimeValue;
  getMonth : TimeValue -> nat;          (* 0 .. 11 *)
  getFullYear : TimeValue -> Z
}.

Inductive Exn : Type :=
| RangeError (message : string).

(** The abbreviated month names of the default (en-US) locale. *)
Definition MMM (m : nat) : string :=
  nth m ["Jan"; "Feb"; "Mar"; "Apr"; "May"; "Jun";
         "Jul"; "Aug"; "Sep"; "Oct"; "Nov"; "Dec"] EmptyString.

Fixpoint addLeadingZeros_fuel (fuel : nat) (s : string) (targetLength : nat)
  : string :=
  match fuel with
  | O => s
  | S f =>
      if (String.length s <? targetLength)%nat
      then addLeadingZeros_fuel f (String "0" s) targetLength
      else s
  end.

Definition addLeadingZeros (n : Z) (targetLength : nat) : string :=
  addLeadingZeros_fuel targetLength
    (NilEmpty.string_of_uint (N.to_uint (Z.to_N (Z.abs n)))) targetLength.

(** The [yyyy] token: the year of the era, at least four digits. *)
Definition yyyy (signedYear : Z) : string :=
  let year := if (0 <? signedYear)%Z then signedYear else (1 - signedYear)%Z in
  addLeadingZeros year 4.

(* ================================================================== *)
(** * src/components/Dashboard.tsx                                     *)
(* ================================================================== *)

Inductive PaletteMode : Type := light | dark.

Definition STATUS_ORDER : list JobStatus :=
  [Applied; Interview; Offer; Accepted; Rejected].

Definition getStatusColor (status : string) (mode : PaletteMode) : string :=
  let pick (d l : string) := match mode with dark => d | light => l end in
  let colors : JS.Obj string :=
    [("Applied",   pick "#5d8ffc" "#4e73df");
     ("Interview", pick "#ffd54f" "#f6c23e");
     ("Offer",     pick "#4dd0e1" "#36b9cc");
     ("Accepted",  pick "#69f0ae" "#1cc88a");
     ("Rejected",  pick "#ff6b6b" "#e74a3b")] in
  match JS.get colors status with
  | Some c => c
  | None => "#9e9e9e"
  end.

Record StatusData : Type := mkStatusData {
  name : string;
  value : nat;
  color : string;
  lightColor : string
}.

Module MonthlyData.
Record t : Type := make {
  name : string;
  Applications : nat
}.
End MonthlyData.

(** The object the memoised callback returns. *)
Record Metrics : Type := mkMetrics {
  statusData : list StatusData;
  monthlyData : list MonthlyData.t;
  totalJobs : nat;
  successRate : Z;
  successJobs : nat;
  applicationToInterviewRate : Z;
  interviewToOfferRate : Z;
  offerToAcceptanceRate : Z;
  interviewCount : nat;
  offerCount : nat;
  appliedCount : nat
}.

(** One argument of a [console.log] call. *)
Inductive LogArg : Type :=
| LogString (s : string)
| LogStatusData (d : list StatusData).

(** What the callback can observe and change: the job array held by the
    job context, and the console. *)
Record World : Type := mkWorld {
  jobs : list Job;
  console : list (list LogArg)
}.

Inductive Outcome (A : Type) : Type :=
| Ok (a : A)
| Throw (e : Exn).
Arguments Ok {A} a.
Arguments Throw {A} e.

(** Computations that read and write the world and may throw. *)
Definition M (A : Type) : Type := World -> Outcome A * World.

Definition ret {A : Type} (a : A) : M A := fun w => (Ok a, w).

Definition bind {A B : Type} (c : M A) (k : A -> M B) : M B :=
  fun w =>
    match c w with
    | (Ok a, w') => k a w'
    | (Throw e, w') => (Throw e, w')
    end.

Definition throw {A : Type} (e : Exn) : M A := fun w => (Throw e, w).

Definition read_jobs : M (list Job) := fun w => (Ok (jobs w), w).

Definition console_log (args : list LogArg) : M unit :=
  fun w => (Ok tt, mkWorld (jobs w) (console w ++ [args])).

Notation "x <- c ;; k" := (bind c (fun x => k))
  (at level 61, c at next level, right associativity).
Notation "c ;;; k" := (bind c (fun _ => k))
  (at level 61, right associativity).

(** [xs.map(f)] and [xs.reduce(f, init)] with an effectful callback. *)
Fixpoint mapM {A B : Type} (f : A -> M B) (xs : list A) : M (list B) :=
  match xs with
  | [] => ret []
  | x :: r => y <- f x ;; ys <- mapM f r ;; ret (y :: ys)
  end.

Fixpoint reduceM {A B : Type} (f : B -> A -> M B) (xs : list A) (acc : B)
  : M B :=
  match xs with
  | [] => ret acc
  | x :: r => acc' <- f acc x ;; reduceM f r acc'
  end.

(** [statusData.find(s => s.name === n)?.value || 0] *)
Definition find_value (sd : list StatusData) (n : string) : nat :=
  match find (fun s => String.eqb (name s) n) sd with
  | Some s => value s
  | None => 0
  end.

(** [den > 0 ? Math.round((num / den) * 100) : 0] *)
Definition rate (num den : nat) : Z :=
  if (0 <? den)%nat
  then JS.Math_round (JS.mul (JS.div (JS.of_nat num) (JS.of_nat den))
                             (JS.of_nat 100))
  else 0%Z.

Definition empty_metrics : Metrics :=
  mkMetrics [] [] 0 0%Z 0 0%Z 0%Z 0%Z 0 0 0.

Section Dashboard.
Context {env : DateEnv}.

(** [format(date, 'MMM yyyy')] of date-fns (the tokens are those of its
    version 2 and later): a [RangeError] on the Invalid Date, otherwise the
    abbreviated month name, a space and the year. *)
Definition format_MMM_yyyy (date : option TimeValue) : M string :=
  match date with
  | None => throw (RangeError "Invalid time value")
  | Some t => ret (MMM (getMonth t) ++ " " ++ yyyy (getFullYear t))%string
  end.

Definition statusCounts_of (js : list Job) : JS.Obj nat :=
  fold_left (fun acc job => JS.bump acc (status_name (status job))) js [].

Definition statusData_entry (mode : PaletteMode) (statusCounts : JS.Obj nat)
           (st : JobStatus) : M StatusData :=
  let color := getStatusColor (status_name st) mode in
  let value := match JS.get statusCounts (status_name st) with
               | Some n => n
               | None => 0
               end in
  console_log [LogString ("Status: " ++ status_name st ++ ", Count: "
                          ++ JS.nat_to_string value)%string] ;;;
  ret (mkStatusData (status_name st) value color (color ++ "33")%string).

Definition monthly_step (acc : JS.Obj nat) (job : Job) : M (JS.Obj nat) :=
  if JS.truthy (dateApplied job) then
    month <- format_MMM_yyyy (Date_new (dateApplied job)) ;;
    ret (JS.bump acc month)
  else ret acc.

(** The callback given to [useMemo]; [mode] is [theme.palette.mode]. *)
Definition Dashboard_useMemo (mode : PaletteMode) : M Metrics :=
  js <- read_jobs ;;
  if (List.length js =? 0)%nat then ret empty_metrics
  else
    let statusCounts := statusCounts_of js in
    statusData <- mapM (statusData_entry mode statusCounts) STATUS_ORDER ;;
    console_log [LogString "Status Data:"; LogStatusData statusData] ;;;
    monthlyCounts <- reduceM monthly_step js [] ;;
    let monthlyData :=
      map (fun e => MonthlyData.make (fst e) (snd e)) (JS.entries monthlyCounts) in
    let successJobs := find_value statusData "Accepted" in
    let interviewCount := find_value statusData "Interview" in
    let offerCount := find_value statusData "Offer" in
    let appliedCount := find_value statusData "Applied" in
    let successRate := rate successJobs (List.length js) in
    let applicationToInterviewRate := rate interviewCount appliedCount in
    let interviewToOfferRate := rate offerCount interviewCount in
    let offerToAcceptanceRate := rate successJobs offerCount in
    ret (mkMetrics statusData monthlyData (List.length js) successRate
           successJobs applicationToInterviewRate interviewToOfferRate
           offerToAcceptanceRate interviewCount offerCount appliedCount).

(** Running the callback on a job list, with an empty console. *)
Definition aggregate (mode : PaletteMode) (js : list Job)
  : Outcome Metrics * World :=
  Dashboard_useMemo mode (mkWorld js []).

End Dashboard.

(** ** A reference environment

    ISO calendar dates [YYYY-MM-DD] (what the form's date field produces)
    read in UTC; every other string is an Invalid Date. *)
Module RefEnv.

Definition two_digits (a b : ascii) : option nat :=
  if JS.is_digit a && JS.is_digit b
  then Some (10 * (nat_of_ascii a - 48) + (nat_of_ascii b - 48))
  else None.

Definition leap (y : nat) : bool :=
  (((y mod 4 =? 0) && negb (y mod 100 =? 0)) || (y mod 400 =? 0))%nat.

Definition days_in_month (y m : nat) : nat :=
  match m with
  | 2 => if leap y then 29 else 28
  | 4 | 6 | 9 | 11 => 30
  | _ => 31
  end.

(** year, month (1 .. 12) and day of an accepted string *)
Definition parse (s : string) : option (nat * nat * nat) :=
  match s with
  | String y1 (String y2 (String y3 (String y4 (String "-"
      (String m1 (String m2 (String "-" (String d1 (String d2
        EmptyString))))))))) =>
      match two_digits y1 y2, two_digits y3 y4,
            two_digits m1 m2, two_digits d1 d2 with
      | Some a, Some b, Some m, Some d =>
          let y := 100 * a + b in
          if ((1 <=? m) && (m <=? 12) && (1 <=? d)
              && (d <=? days_in_month y m))%nat
          then Some (y, m, d) else None
      | _, _, _, _ => None
      end
  | _ => None
  end.

#[export] Instance utc : DateEnv := {|
  TimeValue := nat * nat * nat;
  Date_new := parse;
  getMonth := fun t => snd (fst t) - 1;
  getFullYear := fun t => Z.of_nat (fst (fst t))
|}.

End RefEnv.

(** ** Environments by time zone

    [new Date(s)] reads a date-only string [YYYY-MM-DD] as midnight UTC of
    that day, while [getMonth] and [getFullYear], which date-fns [format]
    calls, give the calendar month and year of that instant in the local
    time zone.  [offset] is local time minus UTC in minutes at that
    instant (-300 in New York in winter, 0 in Reykjavik, 60 in Berlin in
    winter): midnight UTC is [offset] minutes past local midnight of the
    same day, so the local day is [offset / 1440] days, rounded down,
    after the UTC day. *)
Module Zone.

(** year, month (1 .. 12) and day of the month *)
Definition Day : Type := (Z * nat * nat)%type.

Definition leap (y : Z) : bool :=
  (((y mod 4 =? 0) && negb (y mod 100 =? 0)) || (y mod 400 =? 0))%Z.

Definition days_in_month (y : Z) (m : nat) : nat :=
  match m with
  | 2 => if leap y then 29 else 28
  | 4 | 6 | 9 | 11 => 30
  | _ => 31
  end.

Definition prev_day (t : Day) : Day :=
  let '(y, m, d) := t in
  if (2 <=? d)%nat then (y, m, d - 1)
  else if (2 <=? m)%nat then (y, m - 1, days_in_month y (m - 1))
  else ((y - 1)%Z, 12, 31).

Definition next_day (t : Day) : Day :=
  let '(y, m, d) := t in
  if (d <? days_in_month y m)%nat then (y, m, d + 1)
  else if (m <? 12)%nat then (y, m + 1, 1)
  else ((y + 1)%Z, 1, 1).

Definition add_days (k : Z) (t : Day) : Day :=
  if (k <? 0)%Z then Nat.iter (Z.to_nat (- k)) prev_day t
  else Nat.iter (Z.to_nat k) next_day t.

(** The local day at midnight UTC of the day [t]. *)
Definition local_day (offset : Z) (t : Day) : Day :=
  add_days (offset / 1440) t.

(** A time value is kept as its UTC day. *)
Definition env (offset : Z) : DateEnv := {|
  TimeValue := Day;
  Date_new := fun s =>
    match RefEnv.parse s with
    | Some (y, m, d) => Some (Z.of_nat y, m, d)
    | None => None
    end;
  getMonth := fun t => snd (fst (local_day offset t)) - 1;
  getFullYear := fun t => fst (fst (local_day offset t))
|}.

End Zone.

(* ================================================================== *)
(** * src/components/JobForm.tsx and src/components/JobList.tsx        *)
(* ================================================================== *)

(** The argument of [addJob]: [Omit<Job, 'id' | 'updatedAt'>], as the form
    builds it (no [notes]). *)
Module NewJob.
Record t : Type := make {
  company : string;
  role : string;
  dateApplied : string;
  status : JobStatus
}.
End NewJob.

Module JobList.

(** The [MenuItem]s of the status [Select] of a table row. *)
Definition status_menu : list JobStatus :=
  [Applied; Interview; Offer; Accepted; Rejected].

End JobList.

Module JobForm.

(** The [useState] cells of the component. *)
Record State : Type := mkState {
  open : bool;
  company : string;
  role : string;
  dateApplied : string;
  status : JobStatus;
  error : string;
  loading : bool
}.

(** The [MenuItem]s of the status [TextField select]. *)
Definition status_menu : list JobStatus :=
  [Applied; Interview; Offer; Rejected].

(** [today] is [new Date().toISOString().split('T')[0]]. *)
Definition initial (today : string) : State :=
  mkState false EmptyString EmptyString today Applied EmptyString false.

Definition handleClickOpen (s : State) : State :=
  mkState true (company s) (role s) (dateApplied s) (status s) (error s)
          (loading s).

Definition handleClose (today : string) (s : State) : State :=
  mkState false EmptyString EmptyString today Applied EmptyString (loading s).

Definition setCompany (v : string) (s : State) : State :=
  mkState (open s) v (role s) (dateApplied s) (status s) (error s) (loading s).

Definition setRole (v : string) (s : State) : State :=
  mkState (open s) (company s) v (dateApplied s) (status s) (error s)
          (loading s).

Definition setDateApplied (v : string) (s : State) : State :=
  mkState (open s) (company s) (role s) v (status s) (error s) (loading s).

Definition setStatus (v : JobStatus) (s : State) : State :=
  mkState (open s) (company s) (role s) (dateApplied s) v (error s)
          (loading s).

Definition setError (v : string) (s : State) : State :=
  mkState (open s) (company s) (role s) (dateApplied s) (status s) v
          (loading s).

Definition setLoading (v : bool) (s : State) : State :=
  mkState (open s) (company s) (role s) (dateApplied s) (status s) (error s) v.

(** [handleSubmit] up to the [await]: the new state and the argument of
    the [addJob] call, if one is made. *)
Definition handleSubmit (s : State) : State * option NewJob.t :=
  let s := setError EmptyString s in
  if negb (JS.truthy (JS.trim (company s)))
     || negb (JS.truthy (JS.trim (role s)))
  then (setError "Company and role are required" s, None)
  else (setLoading true s,
        Some (NewJob.make (JS.trim (company s)) (JS.trim (role s))
                          (dateApplied s) (status s))).

(** [handleSubmit] after the [await]: [ok] tells whether the promise of
    [addJob] was fulfilled. *)
Definition settle (ok : bool) (today : string) (s : State) : State :=
  if ok then setLoading false (handleClose today s)
  else setLoading false (setError "Failed to add job. Please try again." s).

(** What the user and the store can make happen. *)
Inductive Event : Type :=
| ClickOpen
| Close (today : string)
| ChangeCompany (v : string)
| ChangeRole (v : string)
| ChangeDate (v : string)
| SelectStatus (v : JobStatus)
| Submit
| Settled (ok : bool) (today : string).

(** A select event carries the value of one of the listed items. *)
Definition offered (e : Event) : bool :=
  match e with
  | SelectStatus v => existsb (JobStatus_eqb v) status_menu
  | _ => true
  end.

Definition step (s : State) (e : Event) : State * option NewJob.t :=
  match e with
  | ClickOpen => (handleClickOpen s, None)
  | Close today => (handleClose today s, None)
  | ChangeCompany v => (setCompany v s, None)
  | ChangeRole v => (setRole v s, None)
  | ChangeDate v => (setDateApplied v s, None)
  | SelectStatus v => (setStatus v s, None)
  | Submit => handleSubmit s
  | Settled ok today => (settle ok today s, None)
  end.

(** The state after a sequence of events and the [addJob] calls made,
    oldest first. *)
Fixpoint run (s : State) (es : list Event) : State * list NewJob.t :=
  match es with
  | [] => (s, [])
  | e :: r =>
      let (s1, call) := step s e in
      let (s2, calls) := run s1 r in
      (s2, match call with Some c => c :: calls | None => calls end)
  end.

End JobForm.

(* ================================================================== *)
(** * Vocabulary of the statements                                     *)
(* ================================================================== *)

Definition JobStatus_eq_dec (a b : JobStatus) : {a = b} + {a <> b}.
Proof. decide equality. Defined.

(** Number of jobs in a given status. *)
Definition count_status (st : JobStatus) (js : list Job) : nat :=
  count_occ JobStatus_eq_dec (map status js) st.

(** Tallying a list of keys into a map of counters. *)
Definition tally (ks : list string) (acc : JS.Obj nat) : JS.Obj nat :=
  fold_left JS.bump ks acc.

(** The elements of a list in the order of their first occurrence. *)
Fixpoint first_occurrences (l : list string) : list string :=
  match l with
  | [] => []
  | x :: r => x :: filter (fun y => negb (String.eqb y x)) (first_occurrences r)
  end.

(** [statusData.reduce((sum, item) => sum + item.value, 0)], the total the
    legend of the pie chart shows. *)
Definition sum_values (sd : list StatusData) : nat :=
  fold_left (fun sum item => sum + value item) sd 0.

(** [round(100 * num / den)], a tie going up: floor (100 num / den + 1/2). *)
Definition round_half_up (num den : nat) : Z :=
  ((200 * Z.of_nat num + Z.of_nat den) / (2 * Z.of_nat den))%Z.

(** [100 * num / den] lies exactly halfway between two integers. *)
Definition is_tie (num den : nat) : bool :=
  ((200 * Z.of_nat num + Z.of_nat den) mod (2 * Z.of_nat den) =? 0)%Z.

(** [r] is an integer nearest to [100 * num / den]. *)
Definition nearest_percent (r : Z) (num den : nat) : Prop :=
  (200 * Z.of_nat num - Z.of_nat den <= 2 * Z.of_nat den * r
   /\ 2 * Z.of_nat den * r <= 200 * Z.of_nat num + Z.of_nat den)%Z.

(** What a rate is to its two counts: 0 on an empty denominator, otherwise
    an integer nearest to the percentage, the one [round_half_up] gives
    unless the percentage is halfway between two integers. *)
Definition rate_spec (r : Z) (num den : nat) : Prop :=
  (den = 0 -> r = 0%Z)
  /\ (0 < den ->
      nearest_percent r num den
      /\ (is_tie num den = false -> r = round_half_up num den)).

Section DashboardVocabulary.
Context {env : DateEnv}.

(** The record has no date, or one that [Date] accepts. *)
Definition well_dated (j : Job) : bool :=
  negb (JS.truthy (dateApplied j))
  || match Date_new (dateApplied j) with Some _ => true | None => false end.

(** The month label of a time value. *)
Definition label (t : TimeValue) : string :=
  (MMM (getMonth t) ++ " " ++ yyyy (getFullYear t))%string.

(** The month a record falls in, if it has a date that [Date] accepts. *)
Definition month_of (j : Job) : option string :=
  if JS.truthy (dateApplied j)
  then option_map label (Date_new (dateApplied j))
  else None.

(** The month labels of the dated records, in input order. *)
Fixpoint months (js : list Job) : list string :=
  match js with
  | [] => []
  | j :: r =>
      match month_of j with
      | Some l => l :: months r
      | None => months r
      end
  end.

(** What the callback returns on a non-empty list of well-dated jobs. *)
Definition metrics_of (mode : PaletteMode) (js : list Job) : Metrics :=
  let sd := map (fun st =>
                   let c := getStatusColor (status_name st) mode in
                   mkStatusData (status_name st) (count_status st js) c
                                (c ++ "33")%string) STATUS_ORDER in
  let acc := count_status Accepted js in
  let int := count_status Interview js in
  let off := count_status Offer js in
  let app := count_status Applied js in
  mkMetrics sd
    (map (fun e => MonthlyData.make (fst e) (snd e)) (tally (months js) []))
    (List.length js) (rate acc (List.length js)) acc
    (rate int app) (rate off int) (rate acc off) int off app.

(** What it writes to the console there. *)
Definition log_of (mode : PaletteMode) (js : list Job) : list (list LogArg) :=
  map (fun st => [LogString ("Status: " ++ status_name st ++ ", Count: "
                      ++ JS.nat_to_string (count_status st js))%string])
      STATUS_ORDER
  ++ [[LogString "Status Data:"; LogStatusData (statusData (metrics_of mode js))]].

End DashboardVocabulary.

(** ** Month labels read off the text of a date

    For a date [YYYY-MM-DD], the calendar month is the text [YYYY-MM], and
    the label "Mon YYYY" of that month is the first three letters of the
    English name of the month [MM], a space and [YYYY]. *)
Definition month_names : list (string * string) :=
  [("01", "January"); ("02", "February"); ("03", "March"); ("04", "April");
   ("05", "May"); ("06", "June"); ("07", "July"); ("08", "August");
   ("09", "September"); ("10", "October"); ("11", "November");
   ("12", "December")].

Definition calendar_month (date : string) : string := substring 0 7 date.

Definition Mon_YYYY (date : string) : string :=
  match JS.get month_names (substring 5 2 date) with
  | Some name => (substring 0 3 name ++ " " ++ substring 0 4 date)%string
  | None => EmptyString
  end.

(** The dates of the dated records, in input order. *)
Definition dates (js : list Job) : list string :=
  filter JS.truthy (map dateApplied js).

(** The records of [ds] dated in the calendar month of [date]. *)
Definition in_month_of (date : string) (ds : list string) : list string :=
  filter (fun d => String.eqb (calendar_month d) (calendar_month date)) ds.

Definition decimal_digits : list ascii :=
  ["0"; "1"; "2"; "3"; "4"; "5"; "6"; "7"; "8"; "9"]%char.

(** The property names of an object, in creation order. *)
Definition keys {V : Type} (o : JS.Obj V) : list string := map fst o.

(** The counter under a key, 0 when there is none. *)
Definition cnt (o : JS.Obj nat) (k : string) : nat :=
  match JS.get o k with Some n => n | None => 0 end.

(** The relative error of one rounding to binary64 is at most 2^-53. *)
Definition u53 : Q := 1 # 9007199254740992.

(** The rational a finite float of the Standard Library's IEEE 754
    specification denotes. *)
Definition SF2Q (f : spec_float) : Q :=
  match f with
  | S754_finite s m e =>
      ((if s then -1 else 1) * inject_Z (Zpos m) * 2 ^ e)%Q
  | _ => 0%Q
  end.

Definition SF_of_pos (n : positive) : spec_float := S754_finite false n 0.

(** [(num / den) * 100] computed by [JS.div] and [JS.mul] and by the
    Standard Library's [SFdiv] and [SFmul] at binary64. *)
Definition agrees_with_SpecFloat (num den : positive) : bool :=
  Qeq_bool
    (SF2Q (SFmul 53 1024 (SFdiv 53 1024 (SF_of_pos num) (SF_of_pos den))
                 (SF_of_pos 100)))
    (JS.mul (JS.div (inject_Z (Zpos num)) (inject_Z (Zpos den)))
            (inject_Z 100)).

Fixpoint positives_upto (n : nat) : list positive :=
  match n with
  | O => []
  | S k => positives_upto k ++ [Pos.of_nat n]
  end.

(** The elements of a list not yet seen, in the order of their first
    occurrence. *)
Fixpoint unseen (seen l : list string) : list string :=
  match l with
  | [] => []
  | x :: r =>
      if existsb (String.eqb x) seen then unseen seen r
      else x :: unseen (x :: seen) r
  end.

(* ================================================================== *)
(** * Sample inputs                                                    *)
(* ================================================================== *)

Module Examples.

Definition job (n : nat) (date : string) (st : JobStatus) : Job :=
  mkJob (JS.nat_to_string n) "Acme" "Engineer" date st None
        "2024-03-10T09:00:00.000Z".

(** [k] jobs in status [st], numbered from [from]. *)
Definition batch (from k : nat) (date : string) (st : JobStatus) : list Job :=
  map (fun n => job n date st) (seq from k).

(** Three applied, two in interview, one offer, one accepted. *)
Definition funnel : list Job :=
  batch 0 3 "2024-03-05" Applied ++ batch 3 2 "2024-02-20" Interview
  ++ batch 5 1 "2024-03-09" Offer ++ batch 6 1 "2023-12-31" Accepted.

(** The same jobs in another order. *)
Definition funnel_shuffled : list Job :=
  batch 6 1 "2023-12-31" Accepted ++ batch 3 2 "2024-02-20" Interview
  ++ batch 5 1 "2024-03-09" Offer ++ batch 0 3 "2024-03-05" Applied.

(** More jobs in interview than still in the applied state. *)
Definition mostly_interviewing : list Job :=
  [job 0 "2024-03-05" Applied; job 1 "2024-03-06" Interview;
   job 2 "2024-03-07" Interview].

(** A date that no [Date] constructor accepts. *)
Definition undatable : list Job := [job 0 "garbage" Applied].

(** 23 accepted out of 40: exactly 57.5 per cent. *)
Definition halfway : list Job :=
  batch 0 23 "2024-03-05" Accepted ++ batch 23 17 "2024-03-05" Rejected.

Definition single : list Job := [job 0 "2024-03-05" Applied].

(** One application, made on the first day of March. *)
Definition first_of_march : list Job := [job 0 "2024-03-01" Applied].

(** A session of the creation dialog. *)
Definition session : list JobForm.Event :=
  [JobForm.ClickOpen; JobForm.ChangeCompany " Acme ";
   JobForm.ChangeRole "Engineer"; JobForm.SelectStatus Offer;
   JobForm.Submit; JobForm.Settled true "2024-03-11"].

End Examples.

(* ================================================================== *)
(** * Dashboard.tsx: what the component renders                        *)
(* ================================================================== *)

(** [x.toFixed(1)] for a Number [0 <= x < 10^21]: the integer [n] for which
    [n / 10] is closest to [x], the larger one when two are as close, with
    a point before its last digit. *)
Definition toFixed1_tenths (x : JS.Number) : Z :=
  Qfloor (x * 10 + (1 # 2))%Q.

Definition toFixed1 (x : JS.Number) : string :=
  let n := Z.to_nat (toFixed1_tenths x) in
  (JS.nat_to_string (n / 10) ++ "." ++ JS.nat_to_string (n mod 10))%string.

(** [value / totalJobs * 100], as the legend and the tooltip evaluate it;
    only evaluated where [totalJobs] is positive. *)
Definition percent_of (value totalJobs : nat) : JS.Number :=
  JS.mul (JS.div (JS.of_nat value) (JS.of_nat totalJobs)) (JS.of_nat 100).

(** One line of the "Status Breakdown" legend. *)
Record LegendRow : Type := mkLegendRow {
  legend_name : string;
  legend_color : string;
  legend_value : nat;
  legend_percent : string
}.

(** The data-bearing parts of the main view. *)
Record Charts : Type := mkCharts {
  card_total : nat;
  card_accepted : nat;
  card_accepted_caption : string;
  card_interviews : nat;
  card_interviews_of : nat;
  card_interviews_caption : string;
  card_offers : nat;
  card_offers_from : nat;
  card_offers_caption : string;
  bars : list MonthlyData.t;
  pie_data : list StatusData;
  pie_cells : list string;
  legend_total : nat;
  legend_rows : list LegendRow;
  footer_total : nat
}.

Inductive DashboardView : Type :=
| ViewLoading
| ViewError (text : string)
| ViewEmpty
| ViewCharts (c : Charts).

Definition charts_of (m : Metrics) : Charts :=
  mkCharts
    (totalJobs m)
    (successJobs m)
    (if (0 <? successJobs m)%nat then "Congratulations!" else "Keep going!")
    (interviewCount m) (appliedCount m)
    (if (0 <? interviewCount m)%nat then "Great job!" else "Keep applying!")
    (offerCount m) (interviewCount m)
    (if (0 <? offerCount m)%nat then "Well done!" else "Keep trying!")
    (monthlyData m)
    (filter (fun entry => (0 <? value entry)%nat) (statusData m))
    (map color (statusData m))
    (fold_left (fun sum item => sum + value item) (statusData m) 0)
    (map (fun entry =>
            mkLegendRow (name entry) (color entry) (value entry)
                        (toFixed1 (percent_of (value entry) (totalJobs m))))
         (statusData m))
    (totalJobs m).

(** The sectors of the pie as the chart library draws them: the i-th datum
    with the props of the i-th [Cell] child, when there is one. *)
Definition pie_sectors (c : Charts) : list (StatusData * string) :=
  combine (pie_data c) (pie_cells c).

Section DashboardRender.
Context {env : DateEnv}.

(** The component: the hooks first, then the early returns. *)
Definition Dashboard_render (mode : PaletteMode) (loading : bool)
           (error : option string) : M DashboardView :=
  m <- Dashboard_useMemo mode ;;
  if loading then ret ViewLoading
  else match error with
       | Some message =>
           ret (ViewError ("Error loading job data: " ++ message)%string)
       | None =>
           if (totalJobs m =? 0)%nat then ret ViewEmpty
           else ret (ViewCharts (charts_of m))
       end.

End DashboardRender.

(* ================================================================== *)
(** * src/contexts/JobContext.tsx and the job collection               *)
(* ================================================================== *)

(** The [jobs] collection of the document store.  A document has an
    identifier chosen by the store and the fields the client wrote, and a
    query without an order, such as that of the listener, lists the
    documents by ascending identifier.

    Modelled from the spec: section 6 gives the replies of the store to
    the three operations the context uses.  [addDoc] creates a document
    under a new identifier and fails if required fields are absent: these
    are the company, the role and the date of section 3, and one is absent
    when it is the empty string.  [updateDoc] overwrites the given fields
    of an existing document, [deleteDoc] removes one, and both fail if the
    identifier does not exist in the collection.  (Rejections for reasons
    outside the program, such as a lost connection, are not modelled.) *)
Module Firestore.

Record DocumentData : Type := mkData {
  id : string;
  company : string;
  role : string;
  dateApplied : string;
  status : JobStatus;
  updatedAt : string;
  notes : option string
}.

Definition Collection : Type := list (string * DocumentData).

Inductive Result : Type :=
| Fulfilled (c : Collection)
| Rejected (code : string).

Definition doc_ids (c : Collection) : list string := map fst c.

Definition exists_doc (docId : string) (c : Collection) : bool :=
  existsb (fun d => String.eqb (fst d) docId) c.

Definition required (data : DocumentData) : bool :=
  JS.truthy (company data) && JS.truthy (role data)
  && JS.truthy (dateApplied data).

(** The listing with one more document, in the order of the identifiers. *)
Fixpoint insert (d : string * DocumentData) (c : Collection) : Collection :=
  match c with
  | [] => [d]
  | x :: r => if String.ltb (fst d) (fst x) then d :: c else x :: insert d r
  end.

Definition addDoc (newId : string) (data : DocumentData) (c : Collection)
  : Result :=
  if required data then Fulfilled (insert (newId, data) c)
  else Rejected "invalid-argument".

Definition updateDoc (docId : string) (fields : DocumentData -> DocumentData)
           (c : Collection) : Result :=
  if exists_doc docId c
  then Fulfilled (map (fun d => if String.eqb (fst d) docId
                                then (fst d, fields (snd d)) else d) c)
  else Rejected "not-found".

Definition deleteDoc (docId : string) (c : Collection) : Result :=
  if exists_doc docId c
  then Fulfilled (filter (fun d => negb (String.eqb (fst d) docId)) c)
  else Rejected "not-found".

End Firestore.

Module JobContext.

(** The snapshot listener: one [Job] per document, its [id] the
    identifier of the document. *)
Definition onSnapshot (c : Firestore.Collection) : list Job :=
  map (fun d =>
         let data := snd d in
         mkJob (fst d) (Firestore.company data) (Firestore.role data)
               (Firestore.dateApplied data) (Firestore.status data)
               (Firestore.notes data) (Firestore.updatedAt data))
      c.

(** What an operation of the context leaves behind: the collection, the
    lines written with [console.error], and whether its promise was
    rejected (the error is thrown again after being logged). *)
Record Done : Type := mkDone {
  collection : Firestore.Collection;
  errors : list string;
  rejected : bool
}.

Definition settle_with (label : string) (c : Firestore.Collection)
           (r : Firestore.Result) : Done :=
  match r with
  | Firestore.Fulfilled c' => mkDone c' [] false
  | Firestore.Rejected _ => mkDone c [label] true
  end.

(** [uuid] is [uuidv4()], [now] is [new Date().toISOString()], [newId] the
    identifier the store gives the document. *)
Definition addJob (uuid now newId : string) (job : NewJob.t)
           (c : Firestore.Collection) : Done :=
  let newJob :=
    Firestore.mkData uuid (NewJob.company job) (NewJob.role job)
                     (NewJob.dateApplied job) (NewJob.status job) now None in
  settle_with "Error adding job:" c (Firestore.addDoc newId newJob c).

Definition updateJobStatus (now : string) (jobId : string) (st : JobStatus)
           (c : Firestore.Collection) : Done :=
  settle_with "Error updating job status:" c
    (Firestore.updateDoc jobId
       (fun d => Firestore.mkData (Firestore.id d) (Firestore.company d)
                   (Firestore.role d) (Firestore.dateApplied d) st now
                   (Firestore.notes d))
       c).

Definition deleteJob (jobId : string) (c : Firestore.Collection) : Done :=
  settle_with "Error deleting job:" c (Firestore.deleteDoc jobId c).

End JobContext.

(** The state the provider hands down, and the two callbacks of its
    snapshot listener. *)
Module JobProvider.

Record State : Type := mkState {
  jobs : list Job;
  loading : bool;
  error : option string
}.

Definition initial : State := mkState [] true None.

Inductive Event : Type :=
| Snapshot (c : Firestore.Collection)
| ListenError (message : string).

Definition step (s : State) (e : Event) : State :=
  match e with
  | Snapshot c => mkState (JobContext.onSnapshot c) false None
  | ListenError message => mkState (jobs s) false (Some message)
  end.

Definition run (es : list Event) : State := fold_left step es initial.

Definition is_Snapshot (e : Event) : bool :=
  match e with Snapshot _ => true | ListenError _ => false end.

(** The jobs of the last snapshot among the events, none if there is no
    snapshot. *)
Fixpoint last_snapshot (es : list Event) (seen : list Job) : list Job :=
  match es with
  | [] => seen
  | Snapshot c :: r => last_snapshot r (JobContext.onSnapshot c)
  | ListenError _ :: r => last_snapshot r seen
  end.

End JobProvider.

(* ================================================================== *)
(** * JobList.tsx: the handlers and the table                          *)
(* ================================================================== *)

Module JobListHandlers.

(** The handlers catch what the context throws again and log it once
    more; nothing reaches their caller. *)
Definition caught (label : string) (d : JobContext.Done) : JobContext.Done :=
  if JobContext.rejected d
  then JobContext.mkDone (JobContext.collection d)
                         (JobContext.errors d ++ [label]) false
  else d.

Definition handleStatusChange (now jobId : string) (newStatus : JobStatus)
           (c : Firestore.Collection) : JobContext.Done :=
  caught "Error updating job status:"
         (JobContext.updateJobStatus now jobId newStatus c).

(** [confirmed] is the answer to [window.confirm]. *)
Definition handleDelete (confirmed : bool) (jobId : string)
           (c : Firestore.Collection) : JobContext.Done :=
  if confirmed
  then caught "Error deleting job:" (JobContext.deleteJob jobId c)
  else JobContext.mkDone c [] false.

End JobListHandlers.

Record JobRow : Type := mkJobRow {
  row_key : string;
  row_company : string;
  row_role : string;
  row_date : string;
  row_status : JobStatus;
  row_menu : list JobStatus
}.

Inductive JobListView : Type :=
| ListLoading
| ListEmpty
| ListTable (rows : list JobRow).

Section JobListRender.
Context {env : DateEnv}.
(** [toLocaleDateString] of a valid date, in the locale of the browser. *)
Variable toLocaleDateString : TimeValue -> string.

Definition date_cell (s : string) : string :=
  match Date_new s with
  | Some t => toLocaleDateString t
  | None => "Invalid Date"
  end.

Definition JobList_render (loading : bool) (js : list Job) : JobListView :=
  if loading then ListLoading
  else if (List.length js =? 0)%nat then ListEmpty
  else ListTable
         (map (fun job =>
                 mkJobRow (id job) (company job) (role job)
                          (date_cell (dateApplied job)) (status job)
                          JobList.status_menu)
              js).

End JobListRender.

(* ================================================================== *)
(** * App.tsx: the error boundary around the three components          *)
(* ================================================================== *)

Module ErrorBoundary.

Record State : Type := mkState { hasError : bool }.

(** The state the constructor sets. *)
Definition initial : State := mkState false.

Definition getDerivedStateFromError (error : Exn) : State := mkState true.

Definition fallback : string :=
  "Something went wrong. Please refresh the page or try again later.".

End ErrorBoundary.

Inductive AppView : Type :=
| AppError (text : string)
| AppPage (dashboard : DashboardView) (list : JobListView).

Section AppRender.
Context {env : DateEnv}.
Variable toLocaleDateString : TimeValue -> string.

(** One rendering of the boundary and of what it wraps.  With the error
    flag set it renders the alert and none of its children.  Otherwise it
    renders them; when the dashboard throws, the flag is derived from the
    error and the alert is rendered in place of all the children. *)
Definition App_render (s : ErrorBoundary.State) (mode : PaletteMode)
           (loading : bool) (error : option string) (w : World)
  : AppView * ErrorBoundary.State * World :=
  if ErrorBoundary.hasError s
  then (AppError ErrorBoundary.fallback, s, w)
  else
    match Dashboard_render mode loading error w with
    | (Ok v, w') =>
        (AppPage v (JobList_render toLocaleDateString loading (jobs w)), s, w')
    | (Throw e, w') =>
        (AppError ErrorBoundary.fallback,
         ErrorBoundary.getDerivedStateFromError e, w')
    end.

(** The boundary state after a sequence of renderings, each with its own
    flags and its own world. *)
Fixpoint App_renders (s : ErrorBoundary.State) (mode : PaletteMode)
         (passes : list (bool * option string * World))
  : ErrorBoundary.State :=
  match passes with
  | [] => s
  | (loading, error, w) :: r =>
      App_renders (snd (fst (App_render s mode loading error w))) mode r
  end.

End AppRender.

(* ================================================================== *)
(** * JobForm.tsx: which events the dialog lets through                *)
(* ================================================================== *)

(** The fields and the submit button exist while the dialog is open; the
    submit button is disabled while a call of [addJob] is pending; the
    promise of [addJob] settles only while one is pending. *)
Definition JobForm_enabled (s : JobForm.State) (e : JobForm.Event) : bool :=
  match e with
  | JobForm.ClickOpen => true
  | JobForm.Close _ => JobForm.open s
  | JobForm.ChangeCompany _ | JobForm.ChangeRole _ | JobForm.ChangeDate _ =>
      JobForm.open s
  | JobForm.SelectStatus _ => JobForm.open s && JobForm.offered e
  | JobForm.Submit => JobForm.open s && negb (JobForm.loading s)
  | JobForm.Settled _ _ => JobForm.loading s
  end.

(** Every event of the sequence is enabled in the state it meets. *)
Fixpoint JobForm_admissible (s : JobForm.State) (es : list JobForm.Event)
  : bool :=
  match es with
  | [] => true
  | e :: r => JobForm_enabled s e && JobForm_admissible (fst (JobForm.step s e)) r
  end.

Definition b2n (b : bool) : nat := if b then 1 else 0.

Definition is_Settled (e : JobForm.Event) : bool :=
  match e with JobForm.Settled _ _ => true | _ => false end.

(** The white space of ECMAScript: the code points of its WhiteSpace
    production (TAB, VT, FF, ZWNBSP and the space separators of Unicode)
    and of its LineTerminator production. *)
Definition WhiteSpace : list N :=
  [0x0009%N; 0x000B%N; 0x000C%N; 0xFEFF%N;
   0x0020%N; 0x00A0%N; 0x1680%N; 0x2000%N; 0x2001%N; 0x2002%N; 0x2003%N;
   0x2004%N; 0x2005%N; 0x2006%N; 0x2007%N; 0x2008%N; 0x2009%N; 0x200A%N;
   0x202F%N; 0x205F%N; 0x3000%N].

Definition LineTerminator : list N := [0x000A%N; 0x000D%N; 0x2028%N; 0x2029%N].

(** The UTF-8 encoding of a code point. *)
Definition utf8 (cp : N) : string :=
  let byte (n : N) := String (ascii_of_N n) EmptyString in
  if (cp <? 0x80)%N then byte cp
  else if (cp <? 0x800)%N then
    (byte (0xC0 + cp / 0x40)%N ++ byte (0x80 + cp mod 0x40)%N)%string
  else if (cp <? 0x10000)%N then
    (byte (0xE0 + cp / 0x1000)%N ++ byte (0x80 + (cp / 0x40) mod 0x40)%N
     ++ byte (0x80 + cp mod 0x40)%N)%string
  else
    (byte (0xF0 + cp / 0x40000)%N ++ byte (0x80 + (cp / 0x1000) mod 0x40)%N
     ++ byte (0x80 + (cp / 0x40) mod 0x40)%N
     ++ byte (0x80 + cp mod 0x40)%N)%string.

(** One character of white space. *)
Definition white (w : string) : Prop :=
  In w (map utf8 (WhiteSpace ++ LineTerminator)).

(** White space only, or nothing at all. *)
Inductive blank : string -> Prop :=
| blank_nil : blank EmptyString
| blank_cons (w r : string) : white w -> blank r -> blank (w ++ r)%string.

(** [t] does not begin with white space. *)
Definition no_white_start (t : string) : Prop :=
  forall w r, white w -> t <> (w ++ r)%string.

(** [t] does not end with white space. *)
Definition no_white_end (t : string) : Prop :=
  forall w p, white w -> t <> (p ++ w)%string.

(** [t] is [s] without the white space at its two ends. *)
Definition trimmed_of (s t : string) : Prop :=
  (exists pre post, s = (pre ++ t ++ post)%string /\ blank pre /\ blank post)
  /\ no_white_start t /\ no_white_end t.

(** [handleSubmit] finds a required field missing. *)
Definition JobForm_refuses (s : JobForm.State) : bool :=
  negb (JS.truthy (JS.trim (JobForm.company s)))
  || negb (JS.truthy (JS.trim (JobForm.role s))).

Section FormDates.
Context {env : DateEnv}.



End FormDates.

(** The job a snapshot shows for a document holding what the form sent. *)
Definition job_of_NewJob (docId now : string) (c : NewJob.t) : Job :=
  mkJob docId (NewJob.company c) (NewJob.role c) (NewJob.dateApplied c)
        (NewJob.status c) None now.

(* ================================================================== *)
(** * src/firebase.ts: the check of the configuration                  *)
(* ================================================================== *)

Module FirebaseConfig.

Definition requiredEnvVars : list string :=
  ["REACT_APP_FIREBASE_API_KEY";
   "REACT_APP_FIREBASE_AUTH_DOMAIN";
   "REACT_APP_FIREBASE_PROJECT_ID";
   "REACT_APP_FIREBASE_STORAGE_BUCKET";
   "REACT_APP_FIREBASE_MESSAGING_SENDER_ID";
   "REACT_APP_FIREBASE_APP_ID"].

Inductive Checked : Type :=
| Passed
| Failed (message : string).

(** [!process.env[varName]]: unset, or set to the empty string. *)
Definition missing (processEnv : JS.Obj string) (varName : string) : bool :=
  match JS.get processEnv varName with
  | Some v => negb (JS.truthy v)
  | None => true
  end.

(** [names.forEach(varName => { if (!process.env[varName]) throw ... })] *)
Fixpoint check_each (processEnv : JS.Obj string) (names : list string)
  : Checked :=
  match names with
  | [] => Passed
  | varName :: r =>
      if missing processEnv varName
      then Failed ("Missing required environment variable: " ++ varName)%string
      else check_each processEnv r
  end.

Definition validate (processEnv : JS.Obj string) : Checked :=
  check_each processEnv requiredEnvVars.

End FirebaseConfig.

(* ================================================================== *)
(** * More vocabulary and samples                                      *)
(* ================================================================== *)

(** The number of applications the bar chart shows for a month. *)
Definition monthly_count (md : list MonthlyData.t) (k : string) : nat :=
  match find (fun e => String.eqb (MonthlyData.name e) k) md with
  | Some e => MonthlyData.Applications e
  | None => 0
  end.

(** The sum of the counters of an object. *)
Definition obj_sum (o : JS.Obj nat) : nat := list_sum (map snd o).

Definition sum_Applications (md : list MonthlyData.t) : nat :=
  fold_left (fun sum e => sum + MonthlyData.Applications e) md 0.

(** Number of jobs whose date field is not empty. *)
Definition count_dated (js : list Job) : nat :=
  List.length (filter (fun j => JS.truthy (dateApplied j)) js).

(** The statuses that have at least one job, in display order. *)
Definition statuses_with_jobs (js : list Job) : list JobStatus :=
  filter (fun st => (0 <? count_status st js)%nat) STATUS_ORDER.

(** A job after a status update at time [now]. *)
Definition with_status (st : JobStatus) (now : string) (j : Job) : Job :=
  mkJob (id j) (company j) (role j) (dateApplied j) st (notes j) now.

(** 1 for the given status, 0 for the others. *)
Definition one_if (a st : JobStatus) : nat :=
  if JobStatus_eq_dec a st then 1 else 0.

Module MoreExamples.

Definition processEnv : JS.Obj string :=
  [("NODE_ENV", "production");
   ("REACT_APP_FIREBASE_API_KEY", "k");
   ("REACT_APP_FIREBASE_AUTH_DOMAIN", "d");
   ("REACT_APP_FIREBASE_PROJECT_ID", "p");
   ("REACT_APP_FIREBASE_STORAGE_BUCKET", EmptyString);
   ("REACT_APP_FIREBASE_MESSAGING_SENDER_ID", "m")].

Definition doc (n : nat) (date : string) (st : JobStatus)
  : string * Firestore.DocumentData :=
  (("doc" ++ JS.nat_to_string n)%string,
   Firestore.mkData ("uuid" ++ JS.nat_to_string n)%string "Acme" "Engineer"
                    date st "2024-03-10T09:00:00.000Z" None).

Definition collection : Firestore.Collection :=
  [doc 0 "2024-03-05" Applied; doc 1 "2024-02-20" Interview;
   doc 2 "2023-12-31" Offer].

Definition newJob : NewJob.t :=
  NewJob.make "Initech" "Analyst" "2024-03-11" Applied.

Definition feed : list JobProvider.Event :=
  [JobProvider.Snapshot collection; JobProvider.ListenError "unavailable"].

(** Only interviews: no job in the first status of the display order. *)
Definition interviews_only : list Job :=
  Examples.batch 0 2 "2024-03-05" Interview.

(** A dialog session with a rejected and a repeated submission. *)
Definition long_session : list JobForm.Event :=
  [JobForm.ClickOpen; JobForm.ChangeCompany "  "; JobForm.Submit;
   JobForm.ChangeCompany " Acme "; JobForm.ChangeRole "Engineer";
   JobForm.ChangeDate "2024-03-09"; JobForm.Submit;
   JobForm.Settled false "2024-03-11"; JobForm.SelectStatus Interview;
   JobForm.Submit; JobForm.Settled true "2024-03-11"].

End MoreExamples.

(* ================================================================== *)
(** * Facts about objects used as counters                             *)
(* ================================================================== *)

Module ObjFacts.

Lemma get_set_same {V : Type} (o : JS.Obj V) k v :
  JS.get (JS.set o k v) k = Some v.
Proof.
  induction o as [|[k' v'] r IH]; simpl.
  - now rewrite String.eqb_refl.
  - destruct (String.eqb k' k) eqn:E; simpl; rewrite E; auto.
Qed.

Lemma get_set_other {V : Type} (o : JS.Obj V) k k' v :
  k' <> k -> JS.get (JS.set o k v) k' = JS.get o k'.
Proof.
  intros Hne. induction o as [|[k0 v0] r IH]; simpl.
  - destruct (String.eqb_spec k k'); congruence.
  - destruct (String.eqb_spec k0 k); simpl.
    + subst. destruct (String.eqb_spec k k'); congruence.
    + now rewrite IH.
Qed.

Lemma get_None_keys {V : Type} (o : JS.Obj V) k :
  JS.get o k = None <-> ~ In k (keys o).
Proof.
  induction o as [|[k0 v0] r IH]; simpl.
  - tauto.
  - destruct (String.eqb_spec k0 k).
    + split; [discriminate | intros H; exfalso; apply H; auto].
    + rewrite IH. tauto.
Qed.

Lemma get_Some_In {V : Type} (o : JS.Obj V) k v :
  JS.get o k = Some v -> In (k, v) o.
Proof.
  induction o as [|[k0 v0] r IH]; simpl; [discriminate|].
  destruct (String.eqb_spec k0 k).
  - intros [= ->]. subst. auto.
  - auto.
Qed.

Lemma In_get_Some {V : Type} (o : JS.Obj V) k v :
  NoDup (keys o) -> In (k, v) o -> JS.get o k = Some v.
Proof.
  induction o as [|[k0 v0] r IH]; simpl; [tauto|].
  intros Hnd [H|H].
  - inversion H; subst. now rewrite String.eqb_refl.
  - inversion Hnd as [|? ? Hnot Hnd']; subst.
    destruct (String.eqb_spec k0 k).
    + subst. exfalso. apply Hnot.
      change k with (fst (k, v)). now apply in_map.
    + auto.
Qed.

Lemma keys_set_present {V : Type} (o : JS.Obj V) k v :
  In k (keys o) -> keys (JS.set o k v) = keys o.
Proof.
  induction o as [|[k0 v0] r IH]; simpl; [tauto|].
  intros H. destruct (String.eqb_spec k0 k); simpl.
  - reflexivity.
  - f_equal. apply IH. destruct H; congruence.
Qed.

Lemma keys_set_absent {V : Type} (o : JS.Obj V) k v :
  ~ In k (keys o) -> keys (JS.set o k v) = keys o ++ [k].
Proof.
  induction o as [|[k0 v0] r IH]; simpl; [reflexivity|].
  intros H. destruct (String.eqb_spec k0 k); simpl.
  - exfalso. auto.
  - f_equal. apply IH. tauto.
Qed.

Lemma cnt_bump_same o k : cnt (JS.bump o k) k = cnt o k + 1.
Proof. unfold cnt, JS.bump. now rewrite get_set_same. Qed.

Lemma cnt_bump_other o k k' : k' <> k -> cnt (JS.bump o k) k' = cnt o k'.
Proof. intros H. unfold cnt, JS.bump. now rewrite get_set_other. Qed.

Lemma existsb_eqb_In x (l : list string) :
  existsb (String.eqb x) l = true <-> In x l.
Proof.
  rewrite existsb_exists. split.
  - intros (y & Hy & E). apply String.eqb_eq in E. now subst.
  - intros H. exists x. split; [assumption | apply String.eqb_refl].
Qed.

Lemma unseen_ext (s1 s2 l : list string) :
  (forall x, In x s1 <-> In x s2) -> unseen s1 l = unseen s2 l.
Proof.
  revert s1 s2. induction l as [|x r IH]; intros s1 s2 H; simpl; [reflexivity|].
  assert (E : existsb (String.eqb x) s1 = existsb (String.eqb x) s2).
  { apply eq_true_iff_eq. rewrite !existsb_eqb_In. apply H. }
  rewrite E. destruct (existsb (String.eqb x) s2).
  - now apply IH.
  - f_equal. apply IH. intros y. simpl. rewrite H. tauto.
Qed.

Lemma unseen_spec (seen l : list string) (k : string) :
  In k (unseen seen l) <-> In k l /\ ~ In k seen.
Proof.
  revert seen. induction l as [|x r IH]; intros seen; simpl; [tauto|].
  destruct (existsb (String.eqb x) seen) eqn:E.
  - apply existsb_eqb_In in E. rewrite IH. split.
    + tauto.
    + intros [[->|H] Hn]; tauto.
  - assert (Hx : ~ In x seen).
    { intros H. apply existsb_eqb_In in H. congruence. }
    simpl. rewrite IH. simpl. split.
    + intros [->|[H Hn]]; [tauto|]. split; [tauto|]. intros H'. apply Hn. auto.
    + intros [[->|H] Hn]; [tauto|].
      destruct (string_dec x k) as [->|Hne]; [tauto|]. right. tauto.
Qed.

Lemma unseen_NoDup (seen l : list string) : NoDup (unseen seen l).
Proof.
  revert seen. induction l as [|x r IH]; intros seen; simpl; [constructor|].
  destruct (existsb (String.eqb x) seen); [apply IH|].
  constructor; [|apply IH].
  rewrite unseen_spec. simpl. tauto.
Qed.

(** Counters after a tally. *)
Lemma cnt_tally ks : forall acc k,
  cnt (tally ks acc) k = cnt acc k + count_occ string_dec ks k.
Proof.
  induction ks as [|x r IH]; intros acc k; simpl; [lia|].
  unfold tally in *. simpl. rewrite IH.
  destruct (string_dec x k) as [->|Hne].
  - rewrite cnt_bump_same. lia.
  - rewrite cnt_bump_other by congruence. lia.
Qed.

(** Keys after a tally: the old ones, then the new ones as they come. *)
Lemma keys_tally ks : forall acc,
  keys (tally ks acc) = keys acc ++ unseen (keys acc) ks.
Proof.
  induction ks as [|x r IH]; intros acc; simpl.
  - now rewrite app_nil_r.
  - unfold tally in *. simpl. rewrite IH. unfold JS.bump.
    destruct (existsb (String.eqb x) (keys acc)) eqn:E.
    + apply existsb_eqb_In in E. now rewrite keys_set_present.
    + assert (Hx : ~ In x (keys acc)).
      { intros H. apply existsb_eqb_In in H. congruence. }
      rewrite keys_set_absent by assumption.
      rewrite <- app_assoc. simpl. do 2 f_equal.
      apply unseen_ext. intros y. rewrite in_app_iff. simpl. tauto.
Qed.

Lemma filter_twice {A : Type} (f g : A -> bool) (l : list A) :
  filter f (filter g l) = filter (fun x => g x && f x) l.
Proof.
  induction l as [|x r IH]; simpl; [reflexivity|].
  destruct (g x); simpl; [destruct (f x)|]; congruence.
Qed.

Lemma keys_tally_nil ks : keys (tally ks []) = first_occurrences ks.
Proof.
  rewrite keys_tally. simpl. revert ks.
  assert (G : forall ks seen,
             unseen seen ks
             = filter (fun y => negb (existsb (String.eqb y) seen))
                      (first_occurrences ks)).
  { induction ks as [|x r IH]; intros seen; simpl; [reflexivity|].
    destruct (existsb (String.eqb x) seen) eqn:E; simpl.
    - rewrite IH. rewrite filter_twice.
      apply filter_ext_in. intros y _.
      destruct (String.eqb_spec y x) as [->|Hne]; simpl.
      + now rewrite E.
      + reflexivity.
    - f_equal. rewrite IH. rewrite filter_twice.
      apply filter_ext_in. intros y _. simpl.
      now rewrite negb_orb. }
  intros ks. rewrite G. clear G.
  induction (first_occurrences ks) as [|y l IH]; simpl; [reflexivity|].
  simpl in IH. now rewrite IH.
Qed.

Lemma get_tally_nil ks k :
  JS.get (tally ks []) k
  = match count_occ string_dec ks k with 0 => None | n => Some n end.
Proof.
  pose proof (cnt_tally ks [] k) as Hc. unfold cnt in Hc. simpl in Hc.
  destruct (JS.get (tally ks []) k) as [n|] eqn:E.
  - subst n. destruct (count_occ string_dec ks k) eqn:C; [|reflexivity].
    exfalso. apply get_Some_In in E.
    apply (in_map fst) in E. fold (keys (tally ks [])) in E.
    rewrite keys_tally in E. simpl in E. apply unseen_spec in E.
    destruct E as [E _]. apply (count_occ_In string_dec) in E. lia.
  - destruct (count_occ string_dec ks k) eqn:C; [reflexivity|].
    exfalso. apply get_None_keys in E. apply E.
    rewrite keys_tally. simpl. apply unseen_spec. split; [|tauto].
    apply (count_occ_In string_dec). lia.
Qed.

Lemma NoDup_keys_tally_nil ks : NoDup (keys (tally ks [])).
Proof. rewrite keys_tally. simpl. apply unseen_NoDup. Qed.

End ObjFacts.

(* ================================================================== *)
(** * What the dashboard callback computes                             *)
(* ================================================================== *)

Lemma status_name_inj a b : status_name a = status_name b -> a = b.
Proof. destruct a, b; simpl; intros H; try reflexivity; discriminate. Qed.

Lemma digits_val_space (a b : string) : forall acc,
  JS.digits_val (a ++ String " " b) acc = None.
Proof.
  induction a as [|c r IH]; intros acc; simpl.
  - reflexivity.
  - destruct (JS.is_digit c); [apply IH | reflexivity].
Qed.

Lemma array_index_space (a b : string) :
  JS.is_array_index (a ++ String " " b) = false.
Proof.
  unfold JS.is_array_index, JS.array_index.
  rewrite digits_val_space.
  destruct (a ++ String " " b)%string as [|c r]; [reflexivity|].
  destruct (Ascii.eqb c "0" && negb (String.eqb r EmptyString)); reflexivity.
Qed.

Lemma sort_by_index_nil {V : Type} : @JS.sort_by_index V [] = [].
Proof. reflexivity. Qed.

Lemma entries_no_index {V : Type} (o : JS.Obj V) :
  (forall k, In k (keys o) -> JS.is_array_index k = false) ->
  JS.entries o = o.
Proof.
  intros H. unfold JS.entries.
  assert (E1 : filter (fun e => JS.is_array_index (fst e)) o = []).
  { induction o as [|e r IH]; simpl; [reflexivity|].
    rewrite (H (fst e)) by (simpl; auto).
    apply IH. intros k Hk. apply H. simpl. auto. }
  assert (E2 : filter (fun e => negb (JS.is_array_index (fst e))) o = o).
  { clear E1. induction o as [|e r IH]; simpl; [reflexivity|].
    rewrite (H (fst e)) by (simpl; auto). simpl. f_equal.
    apply IH. intros k Hk. apply H. simpl. auto. }
  rewrite E1, E2. reflexivity.
Qed.

Section DashboardFacts.
Context {env : DateEnv}.

Lemma statusCounts_of_tally js :
  statusCounts_of js = tally (map (fun j => status_name (status j)) js) [].
Proof.
  unfold statusCounts_of, tally. generalize (@nil (string * nat)).
  induction js as [|j r IH]; intros acc; simpl; [reflexivity | apply IH].
Qed.

Lemma count_status_names st js :
  count_occ string_dec (map (fun j => status_name (status j)) js)
            (status_name st)
  = count_status st js.
Proof.
  unfold count_status. induction js as [|j r IH]; simpl; [reflexivity|].
  destruct (string_dec (status_name (status j)) (status_name st)) as [E|E];
    destruct (JobStatus_eq_dec (status j) st) as [E'|E']; try congruence.
  apply status_name_inj in E. contradiction.
Qed.

Lemma statusCounts_value st js :
  match JS.get (statusCounts_of js) (status_name st) with
  | Some n => n
  | None => 0
  end = count_status st js.
Proof.
  rewrite statusCounts_of_tally.
  change (cnt (tally (map (fun j => status_name (status j)) js) [])
                       (status_name st) = count_status st js).
  rewrite ObjFacts.cnt_tally. unfold cnt. simpl.
  apply count_status_names.
Qed.

Lemma In_months js k :
  In k (months js) <-> exists j, In j js /\ month_of j = Some k.
Proof.
  induction js as [|j r IH]; simpl.
  - split; [tauto | intros (j & [] & _)].
  - destruct (month_of j) as [l|] eqn:E; simpl; rewrite IH; split.
    + intros [->|(j' & H1 & H2)]; [exists j | exists j']; split; auto.
    + intros (j' & [->|H1] & H2); [left; congruence | right; eauto].
    + intros (j' & H1 & H2). exists j'. split; auto.
    + intros (j' & [->|H1] & H2); [congruence | eauto].
Qed.

Lemma month_of_not_index j k :
  month_of j = Some k -> JS.is_array_index k = false.
Proof.
  unfold month_of. destruct (JS.truthy (dateApplied j)); [|discriminate].
  destruct (Date_new (dateApplied j)) as [t|]; simpl; [|discriminate].
  intros [= <-]. unfold label. apply array_index_space.
Qed.

Lemma entries_months js :
  JS.entries (tally (months js) []) = tally (months js) [].
Proof.
  apply entries_no_index. intros k Hk.
  rewrite ObjFacts.keys_tally in Hk. simpl in Hk.
  apply ObjFacts.unseen_spec in Hk. destruct Hk as [Hk _].
  apply In_months in Hk. destruct Hk as (j & _ & Hj).
  eapply month_of_not_index; eauto.
Qed.

Lemma reduceM_monthly_ok js :
  forallb well_dated js = true ->
  forall acc w,
    reduceM monthly_step js acc w = (Ok (tally (months js) acc), w).
Proof.
  induction js as [|j r IH]; simpl; intros H acc w; [reflexivity|].
  apply andb_true_iff in H. destruct H as [Hj Hr].
  unfold bind, monthly_step, month_of, well_dated in *.
  destruct (JS.truthy (dateApplied j)); simpl in *.
  - destruct (Date_new (dateApplied j)) as [t|]; [|discriminate].
    simpl. unfold bind. simpl. now rewrite IH.
  - unfold ret. now rewrite IH.
Qed.

Lemma reduceM_monthly_throw js :
  forallb well_dated js = false ->
  forall acc w,
    reduceM monthly_step js acc w
    = (Throw (RangeError "Invalid time value"), w).
Proof.
  induction js as [|j r IH]; simpl; intros H acc w; [discriminate|].
  unfold bind, monthly_step, well_dated in *.
  destruct (JS.truthy (dateApplied j)); simpl in *.
  - destruct (Date_new (dateApplied j)) as [t|]; simpl in *.
    + unfold bind. simpl. now rewrite IH.
    + reflexivity.
  - unfold ret. now rewrite IH.
Qed.

Lemma mapM_statusData mode sc l : forall w,
  mapM (statusData_entry mode sc) l w
  = (Ok (map (fun st =>
                let c := getStatusColor (status_name st) mode in
                mkStatusData (status_name st) (cnt sc (status_name st))
                             c (c ++ "33")%string) l),
     mkWorld (jobs w)
       (console w
        ++ map (fun st =>
                  [LogString ("Status: " ++ status_name st ++ ", Count: "
                     ++ JS.nat_to_string (cnt sc (status_name st)))%string])
               l)).
Proof.
  induction l as [|st r IH]; intros w; simpl.
  - rewrite app_nil_r. now destruct w.
  - unfold bind at 1. unfold statusData_entry at 1.
    unfold bind at 1. unfold console_log at 1. unfold ret at 1.
    unfold bind at 1. rewrite IH. unfold ret. simpl.
    rewrite <- app_assoc. reflexivity.
Qed.

(** The callback, case by case. *)
Lemma Dashboard_useMemo_spec mode w :
  Dashboard_useMemo mode w =
  match jobs w with
  | [] => (Ok empty_metrics, w)
  | _ :: _ =>
      let w' := mkWorld (jobs w) (console w ++ log_of mode (jobs w)) in
      if forallb well_dated (jobs w)
      then (Ok (metrics_of mode (jobs w)), w')
      else (Throw (RangeError "Invalid time value"), w')
  end.
Proof.
  unfold Dashboard_useMemo. unfold bind at 1. unfold read_jobs.
  destruct (jobs w) as [|j r] eqn:Ej; [reflexivity|].
  rewrite <- Ej. replace (List.length (jobs w) =? 0)%nat with false
    by (rewrite Ej; reflexivity).
  unfold bind at 1. rewrite mapM_statusData.
  unfold bind at 1. unfold console_log at 1. cbn [jobs console].
  assert (Esd :
    map (fun st =>
           let c := getStatusColor (status_name st) mode in
           mkStatusData (status_name st)
             (cnt (statusCounts_of (jobs w)) (status_name st))
             c (c ++ "33")%string) STATUS_ORDER
    = statusData (metrics_of mode (jobs w))).
  { unfold metrics_of. cbn [statusData]. apply map_ext. intros st.
    unfold cnt. now rewrite statusCounts_value. }
  assert (Elog :
    (console w
     ++ map (fun st =>
          [LogString ("Status: " ++ status_name st ++ ", Count: "
             ++ JS.nat_to_string
                  (cnt (statusCounts_of (jobs w)) (status_name st)))%string])
          STATUS_ORDER)
    ++ [[LogString "Status Data:";
         LogStatusData (statusData (metrics_of mode (jobs w)))]]
    = console w ++ log_of mode (jobs w)).
  { unfold log_of. rewrite <- app_assoc. do 2 f_equal.
    apply map_ext. intros st.
    unfold cnt. now rewrite statusCounts_value. }
  cbv zeta in Esd. cbv zeta. rewrite Esd, Elog. unfold bind at 1.
  destruct (forallb well_dated (jobs w)) eqn:Hd.
  - rewrite (reduceM_monthly_ok _ Hd). unfold ret. cbv zeta.
    rewrite entries_months. reflexivity.
  - rewrite (reduceM_monthly_throw _ Hd). reflexivity.
Qed.

Lemma aggregate_nil mode :
  aggregate mode [] = (Ok empty_metrics, mkWorld [] []).
Proof. reflexivity. Qed.

Lemma aggregate_ok mode js :
  js <> [] -> forallb well_dated js = true ->
  aggregate mode js = (Ok (metrics_of mode js), mkWorld js (log_of mode js)).
Proof.
  intros Hne Hd. unfold aggregate. rewrite Dashboard_useMemo_spec.
  cbn [jobs console]. destruct js; [congruence|]. now rewrite Hd.
Qed.

Lemma aggregate_throw mode js :
  forallb well_dated js = false ->
  aggregate mode js
  = (Throw (RangeError "Invalid time value"), mkWorld js (log_of mode js)).
Proof.
  intros Hd. unfold aggregate. rewrite Dashboard_useMemo_spec.
  cbn [jobs console]. destruct js; [discriminate|]. now rewrite Hd.
Qed.

End DashboardFacts.

(* ================================================================== *)
(** * Facts about Numbers and rates                                    *)
(* ================================================================== *)

Module NumberFacts.
Local Open Scope Q_scope.

Lemma two_neq_0 : ~ 2 == 0.
Proof. discriminate. Qed.

Lemma Qpower2_inject (n : Z) : (0 <= n)%Z -> 2 ^ n == inject_Z (2 ^ n).
Proof. intros H. now rewrite (Zpower_Qpower 2 n H). Qed.

Lemma ilog2_le (q : Q) : 0 < q -> 2 ^ JS.ilog2 q <= q.
Proof.
  intros Hq. unfold JS.ilog2.
  destruct (Qle_bool (2 ^ (Z.log2 (Qnum q) - Z.log2 (Z.pos (Qden q)))) q) eqn:E.
  - now apply Qle_bool_iff.
  - clear E. destruct q as [n d]. cbn [Qnum Qden].
    assert (Hn : (0 < n)%Z).
    { unfold Qlt in Hq. simpl in Hq. lia. }
    set (ln := Z.log2 n). set (ld := Z.log2 (Z.pos d)).
    assert (Hln : (0 <= ln)%Z) by apply Z.log2_nonneg.
    assert (Hld : (0 <= ld)%Z) by apply Z.log2_nonneg.
    assert (Hpow : 2 ^ (ln - ld - 1)
                   == inject_Z (2 ^ ln) / inject_Z (2 ^ (ld + 1))).
    { replace (ln - ld - 1)%Z with (ln - (ld + 1))%Z by lia.
      rewrite (Qpower_minus 2 ln (ld + 1) two_neq_0).
      rewrite (Qpower2_inject ln Hln), (Qpower2_inject (ld + 1)) by lia.
      reflexivity. }
    rewrite Hpow.
    destruct (Z.log2_spec n Hn) as [Hn1 _]. fold ln in Hn1.
    destruct (Z.log2_spec (Z.pos d)) as [_ Hd2]; [lia|]. fold ld in Hd2.
    replace (Z.succ ld) with (ld + 1)%Z in Hd2 by lia.
    assert (HB : (0 < 2 ^ (ld + 1))%Z) by (apply Z.pow_pos_nonneg; lia).
    assert (HA : (0 < 2 ^ ln)%Z) by (apply Z.pow_pos_nonneg; lia).
    apply Qle_shift_div_r.
    + change 0 with (inject_Z 0). rewrite <- Zlt_Qlt. exact HB.
    + unfold Qle, Qmult, inject_Z. simpl. nia.
Qed.

Lemma rne_err (s : Q) : - (1 # 2) <= inject_Z (JS.rne s) - s /\ inject_Z (JS.rne s) - s <= 1 # 2.
Proof.
  unfold JS.rne.
  pose proof (Qfloor_le s) as H1. pose proof (Qlt_floor s) as H2.
  rewrite inject_Z_plus in H2. change (inject_Z 1) with 1 in H2.
  destruct (s - inject_Z (Qfloor s) ?= 1 # 2) eqn:E.
  - apply Qeq_alt in E. destruct (Z.even (Qfloor s)).
    + revert H1 H2 E. generalize (inject_Z (Qfloor s)). intros f H1 H2 E.
      split; lra.
    + rewrite inject_Z_plus. change (inject_Z 1) with 1.
      revert H1 H2 E. generalize (inject_Z (Qfloor s)). intros f H1 H2 E.
      split; lra.
  - apply Qlt_alt in E.
    revert H1 H2 E. generalize (inject_Z (Qfloor s)). intros f H1 H2 E.
    split; lra.
  - apply Qgt_alt in E. rewrite inject_Z_plus. change (inject_Z 1) with 1.
    revert H1 H2 E. generalize (inject_Z (Qfloor s)). intros f H1 H2 E.
    split; lra.
Qed.

Lemma pow2_52 : 2 ^ 52 == 4503599627370496.
Proof. reflexivity. Qed.

Lemma round_pos_err (q : Q) : 0 < q ->
  q * (1 - u53) <= JS.round_pos q /\ JS.round_pos q <= q * (1 + u53).
Proof.
  intros Hq. unfold JS.round_pos. rewrite Qred_correct.
  set (e := (JS.ilog2 q - 52)%Z).
  set (P := 2 ^ e).
  assert (HP : 0 < P) by (apply Qpower_0_lt; reflexivity).
  set (s := q / P).
  assert (Hs : s * P == q).
  { unfold s. field. lra. }
  assert (Hlow : 4503599627370496 * P <= q).
  { rewrite <- pow2_52. unfold P. rewrite <- Qpower_plus by apply two_neq_0.
    replace (52 + e)%Z with (JS.ilog2 q) by (unfold e; lia).
    now apply ilog2_le. }
  destruct (rne_err s) as [R1 R2].
  set (m := inject_Z (JS.rne s)) in *.
  assert (M1 : (s - (1#2)) * P <= m * P).
  { apply Qmult_le_compat_r; lra. }
  assert (M2 : m * P <= (s + (1#2)) * P).
  { apply Qmult_le_compat_r; lra. }
  unfold u53. split; nra.
Qed.

Lemma binary64_pos_err (q : Q) : 0 < q ->
  q * (1 - u53) <= JS.binary64 q /\ JS.binary64 q <= q * (1 + u53).
Proof.
  intros Hq. unfold JS.binary64.
  destruct q as [[|p|p] d]; cbn [Qnum].
  - exfalso. revert Hq. unfold Qlt. simpl. lia.
  - now apply round_pos_err.
  - exfalso. revert Hq. unfold Qlt. simpl. lia.
Qed.

(** The value rounded by [Math.round] in [rate], and how far it is from
    the exact percentage. *)
Lemma rate_value (num den : nat) : (0 < den)%nat ->
  exists y : Q,
    rate num den = Qfloor (y + (1 # 2))
    /\ 100 * (JS.of_nat num / JS.of_nat den) * ((1 - u53) * (1 - u53)) <= y
    /\ y <= 100 * (JS.of_nat num / JS.of_nat den) * ((1 + u53) * (1 + u53)).
Proof.
  intros Hden. unfold rate.
  replace (0 <? den)%nat with true by (symmetry; now apply Nat.ltb_lt).
  unfold JS.Math_round, JS.mul, JS.div.
  set (x := JS.of_nat num / JS.of_nat den).
  assert (HD : 0 < JS.of_nat den).
  { unfold JS.of_nat. change 0 with (inject_Z 0). rewrite <- Zlt_Qlt. lia. }
  destruct num as [|n].
  - assert (Hx0 : x == 0).
    { unfold x, JS.of_nat, Qeq. simpl. reflexivity. }
    exists 0. split; [|split].
    + replace (JS.binary64 x) with 0; [reflexivity|].
      unfold x, JS.of_nat. simpl. reflexivity.
    + rewrite Hx0. unfold u53. lra.
    + rewrite Hx0. unfold u53. lra.
  - assert (HN : 0 < JS.of_nat (S n)).
    { unfold JS.of_nat. change 0 with (inject_Z 0). rewrite <- Zlt_Qlt. lia. }
    assert (Hx : 0 < x).
    { unfold x. apply Qlt_shift_div_l; lra. }
    destruct (binary64_pos_err x Hx) as [A1 A2].
    set (x1 := JS.binary64 x) in *.
    assert (H100 : JS.of_nat 100 == 100) by reflexivity.
    assert (Hx1 : 0 < x1 * JS.of_nat 100).
    { rewrite H100. unfold u53 in A1. lra. }
    destruct (binary64_pos_err _ Hx1) as [B1 B2].
    exists (JS.binary64 (x1 * JS.of_nat 100)). split; [reflexivity|].
    revert B1 B2. generalize (JS.binary64 (x1 * JS.of_nat 100)).
    intros y B1 B2. rewrite H100 in B1, B2.
    unfold u53 in *. split; lra.
Qed.

Lemma rate_zero_den (num : nat) : rate num 0 = 0%Z.
Proof. reflexivity. Qed.

Lemma of_nat_pos (n : nat) : (0 < n)%nat -> 0 < JS.of_nat n.
Proof.
  intros H. unfold JS.of_nat. change 0 with (inject_Z 0).
  rewrite <- Zlt_Qlt. lia.
Qed.

Lemma of_nat_nonneg (n : nat) : 0 <= JS.of_nat n.
Proof.
  unfold JS.of_nat. change 0 with (inject_Z 0). rewrite <- Zle_Qle. lia.
Qed.

Lemma rate_nonneg (num den : nat) : (0 <= rate num den)%Z.
Proof.
  destruct den as [|d]; [rewrite rate_zero_den; lia|].
  destruct (rate_value num (S d)) as (y & -> & Hlo & _); [lia|].
  assert (Hz : 0 <= JS.of_nat num / JS.of_nat (S d)).
  { apply Qle_shift_div_l; [apply of_nat_pos; lia|].
    rewrite Qmult_0_l. apply of_nat_nonneg. }
  change 0%Z with (Qfloor 0). apply Qfloor_resp_le.
  revert Hz Hlo. generalize (JS.of_nat num / JS.of_nat (S d)).
  intros z Hz Hlo. unfold u53 in Hlo. lra.
Qed.

Lemma rate_le_100 (num den : nat) :
  (num <= den)%nat -> (rate num den <= 100)%Z.
Proof.
  intros Hle.
  destruct den as [|d]; [rewrite rate_zero_den; lia|].
  destruct (rate_value num (S d)) as (y & -> & _ & Hhi); [lia|].
  assert (Hz : JS.of_nat num / JS.of_nat (S d) <= 1).
  { apply Qle_shift_div_r; [apply of_nat_pos; lia|].
    rewrite Qmult_1_l. unfold JS.of_nat. rewrite <- Zle_Qle. lia. }
  assert (Hlt : inject_Z (Qfloor (y + (1 # 2))) < inject_Z 101).
  { pose proof (Qfloor_le (y + (1 # 2))) as Hf.
    revert Hz Hhi Hf. generalize (JS.of_nat num / JS.of_nat (S d)).
    generalize (inject_Z (Qfloor (y + (1 # 2)))).
    intros f z Hz Hhi Hf. change (inject_Z 101) with 101.
    unfold u53 in Hhi. lra. }
  rewrite <- Zlt_Qlt in Hlt. lia.
Qed.

(** Below 2^32 the two roundings of binary64 cannot carry the value across
    a half-integer that the exact percentage is not on. *)
Lemma rate_nearest (num den : nat) :
  (Z.of_nat num < 2 ^ 32)%Z -> (0 < den)%nat ->
  nearest_percent (rate num den) num den.
Proof.
  intros Hnum Hden.
  destruct (rate_value num den Hden) as (y & -> & Hlo & Hhi).
  pose proof (Qfloor_le (y + (1 # 2))) as F1.
  pose proof (Qlt_floor (y + (1 # 2))) as F2.
  rewrite inject_Z_plus in F2. change (inject_Z 1) with 1 in F2.
  set (r := Qfloor (y + (1 # 2))) in *.
  pose proof (of_nat_pos den Hden) as HD.
  pose proof (of_nat_nonneg num) as HN.
  assert (HNb : JS.of_nat num <= 4294967296).
  { unfold JS.of_nat. change 4294967296 with (inject_Z 4294967296).
    rewrite <- Zle_Qle. change (2 ^ 32)%Z with 4294967296%Z in Hnum. lia. }
  assert (Hz : JS.of_nat num / JS.of_nat den * JS.of_nat den == JS.of_nat num).
  { field. lra. }
  unfold nearest_percent.
  assert (G : 200 * JS.of_nat num - JS.of_nat den - 1
              < 2 * JS.of_nat den * inject_Z r
              /\ 2 * JS.of_nat den * inject_Z r
                 < 200 * JS.of_nat num + JS.of_nat den + 1).
  { revert Hlo Hhi F1 F2 HD HN HNb Hz.
    generalize (inject_Z r). generalize (JS.of_nat num / JS.of_nat den).
    generalize (JS.of_nat num). generalize (JS.of_nat den).
    intros D N z f Hlo Hhi F1 F2 HD HN HNb Hz.
    assert (Y1 : (y + (1 # 2)) * D < (f + 1) * D)
      by (apply Qmult_lt_compat_r; lra).
    assert (Y2 : f * D <= (y + (1 # 2)) * D)
      by (apply Qmult_le_compat_r; lra).
    assert (Y3 : 100 * z * ((1 - u53) * (1 - u53)) * D <= y * D)
      by (apply Qmult_le_compat_r; lra).
    assert (Y4 : y * D <= 100 * z * ((1 + u53) * (1 + u53)) * D)
      by (apply Qmult_le_compat_r; lra).
    unfold u53 in *. split; nra. }
  destruct G as [G1 G2]. unfold JS.of_nat in G1, G2.
  change 200 with (inject_Z 200) in G1, G2.
  change 2 with (inject_Z 2) in G1, G2.
  change 1 with (inject_Z 1) in G1, G2.
  rewrite <- !inject_Z_mult, <- ?inject_Z_plus in G2.
  rewrite <- !inject_Z_mult in G1.
  unfold Qminus in G1. rewrite <- !inject_Z_opp, <- !inject_Z_plus in G1.
  rewrite <- Zlt_Qlt in G1, G2. lia.
Qed.

Lemma rate_round_half_up (num den : nat) :
  (Z.of_nat num < 2 ^ 32)%Z -> (0 < den)%nat -> is_tie num den = false ->
  rate num den = round_half_up num den.
Proof.
  intros Hnum Hden Htie.
  destruct (rate_nearest num den Hnum Hden) as [L U].
  unfold is_tie in Htie. apply Z.eqb_neq in Htie.
  unfold round_half_up.
  set (a := (200 * Z.of_nat num + Z.of_nat den)%Z) in *.
  set (b := (2 * Z.of_nat den)%Z) in *.
  assert (Hb : (0 < b)%Z) by (unfold b; lia).
  pose proof (Z.div_mod a b ltac:(lia)) as Hdm.
  pose proof (Z.mod_pos_bound a b Hb) as Hm.
  assert (L' : (a - b <= b * rate num den)%Z) by (unfold a, b; lia).
  assert (U' : (b * rate num den <= a)%Z) by (unfold a, b; lia).
  nia.
Qed.

(** The model of [/] and [*] computes what the Standard Library's
    specification of IEEE 754 binary64 computes, on all operands up to 48. *)
Lemma binary64_agrees_with_SpecFloat :
  forallb (fun n => forallb (agrees_with_SpecFloat n) (positives_upto 48))
          (positives_upto 48) = true.
Proof. vm_compute. reflexivity. Qed.

End NumberFacts.

(* ================================================================== *)
(** * Properties of the dashboard metrics                              *)
(* ================================================================== *)

Lemma count_status_total js :
  count_status Applied js + count_status Interview js + count_status Offer js
  + count_status Accepted js + count_status Rejected js = List.length js.
Proof.
  unfold count_status. induction js as [|j r IH]; simpl; [reflexivity|].
  destruct (status j);
    repeat match goal with
           | |- context [JobStatus_eq_dec ?a ?b] =>
               destruct (JobStatus_eq_dec a b); try congruence
           end; lia.
Qed.

Lemma count_status_le st js : count_status st js <= List.length js.
Proof.
  pose proof (count_status_total js). destruct st; lia.
Qed.

(** On well-dated jobs the callback returns: the empty record on the empty
    list, [metrics_of] otherwise. *)
Lemma aggregate_total {env : DateEnv} mode js :
  forallb well_dated js = true ->
  fst (aggregate mode js)
  = Ok (match js with [] => empty_metrics | _ => metrics_of mode js end).
Proof.
  intros Hd. destruct js as [|j r].
  - reflexivity.
  - rewrite aggregate_ok; [reflexivity | discriminate | assumption].
Qed.

Section CountsAndBounds.
Context {env : DateEnv}.

(** C6. On the empty list the callback returns a total of 0, the four
    rates at 0, no status entry with a non-zero value and no monthly
    entry. *)
Theorem C6_empty_input (mode : PaletteMode) :
  exists m,
    fst (aggregate mode []) = Ok m
    /\ totalJobs m = 0
    /\ successRate m = 0%Z
    /\ applicationToInterviewRate m = 0%Z
    /\ interviewToOfferRate m = 0%Z
    /\ offerToAcceptanceRate m = 0%Z
    /\ Forall (fun s => value s = 0) (statusData m)
    /\ monthlyData m = [].
Proof.
  exists empty_metrics. repeat split; constructor.
Qed.

(** C4. The values of [statusData] add up to [totalJobs], which is the
    length of the input list. *)
Theorem C4_status_counts_sum (mode : PaletteMode) (js : list Job) :
  forallb well_dated js = true ->
  exists m,
    fst (aggregate mode js) = Ok m
    /\ sum_values (statusData m) = totalJobs m
    /\ totalJobs m = List.length js.
Proof.
  intros Hd. rewrite (aggregate_total mode js Hd).
  eexists. split; [reflexivity|].
  destruct js as [|j r]; [split; reflexivity|].
  split; [|reflexivity].
  unfold metrics_of. cbn [statusData totalJobs]. unfold sum_values.
  cbn [map fold_left STATUS_ORDER value].
  pose proof (count_status_total (j :: r)). lia.
Qed.

(** C3 (amended). On a non-empty list [statusData] has exactly the five
    fixed statuses, in display order, each with the number of jobs in
    that status (0 when there is none); on the empty list [statusData]
    is empty. *)
Theorem C3_status_keys (mode : PaletteMode) (js : list Job) :
  forallb well_dated js = true ->
  exists m,
    fst (aggregate mode js) = Ok m
    /\ (js = [] -> statusData m = [])
    /\ (js <> [] ->
        map name (statusData m)
        = ["Applied"; "Interview"; "Offer"; "Accepted"; "Rejected"]
        /\ map value (statusData m)
           = map (fun st => count_status st js) STATUS_ORDER).
Proof.
  intros Hd. rewrite (aggregate_total mode js Hd).
  eexists. split; [reflexivity|].
  destruct js as [|j r].
  - split; [reflexivity | congruence].
  - split; [discriminate|]. intros _. split; reflexivity.
Qed.

(** C1 (amended). Every rate is a non-negative integer; [successRate] is
    at most 100, and so is each of the other three whenever its
    numerator count does not exceed its denominator count. *)
Theorem C1_rate_bounds (mode : PaletteMode) (js : list Job) :
  forallb well_dated js = true ->
  exists m,
    fst (aggregate mode js) = Ok m
    /\ (0 <= successRate m <= 100)%Z
    /\ (0 <= applicationToInterviewRate m)%Z
    /\ (0 <= interviewToOfferRate m)%Z
    /\ (0 <= offerToAcceptanceRate m)%Z
    /\ (interviewCount m <= appliedCount m ->
        (applicationToInterviewRate m <= 100)%Z)
    /\ (offerCount m <= interviewCount m ->
        (interviewToOfferRate m <= 100)%Z)
    /\ (successJobs m <= offerCount m ->
        (offerToAcceptanceRate m <= 100)%Z).
Proof.
  intros Hd. rewrite (aggregate_total mode js Hd).
  eexists. split; [reflexivity|].
  destruct js as [|j r].
  - cbn. repeat split; intros; lia.
  - unfold metrics_of.
    cbn [successRate applicationToInterviewRate interviewToOfferRate
         offerToAcceptanceRate interviewCount appliedCount offerCount
         successJobs].
    repeat split;
      try apply NumberFacts.rate_nonneg;
      try (intros; now apply NumberFacts.rate_le_100).
    apply NumberFacts.rate_le_100, count_status_le.
Qed.

End CountsAndBounds.

(** C4 on the sample funnel. *)
Lemma C4_status_counts_sum_witness :
  forallb (well_dated (env := RefEnv.utc)) Examples.funnel = true
  /\ exists m,
       fst (aggregate (env := RefEnv.utc) light Examples.funnel) = Ok m
       /\ sum_values (statusData m) = totalJobs m
       /\ totalJobs m = List.length Examples.funnel.
Proof.
  split; [reflexivity|].
  apply (C4_status_counts_sum (env := RefEnv.utc) light Examples.funnel).
  reflexivity.
Defined.

(** C3 as stated fails on the empty list: the callback returns an empty
    [statusData], not five zero entries. *)
Lemma C3_empty_input_has_no_keys :
  exists m,
    fst (aggregate (env := RefEnv.utc) light []) = Ok m
    /\ map name (statusData m) <> map status_name STATUS_ORDER.
Proof.
  exists empty_metrics. split; [reflexivity | discriminate].
Qed.

Lemma C3_status_keys_witness :
  forallb (well_dated (env := RefEnv.utc)) Examples.funnel = true
  /\ exists m,
       fst (aggregate (env := RefEnv.utc) light Examples.funnel) = Ok m
       /\ (Examples.funnel = [] -> statusData m = [])
       /\ (Examples.funnel <> [] ->
           map name (statusData m)
           = ["Applied"; "Interview"; "Offer"; "Accepted"; "Rejected"]
           /\ map value (statusData m)
              = map (fun st => count_status st Examples.funnel) STATUS_ORDER).
Proof.
  split; [reflexivity|].
  apply (C3_status_keys (env := RefEnv.utc) light Examples.funnel).
  reflexivity.
Defined.

(** C1 as stated fails: with one job applied and two in interview the
    application-to-interview rate is 200. *)
Lemma C1_rate_above_100 :
  exists m,
    fst (aggregate (env := RefEnv.utc) light Examples.mostly_interviewing)
    = Ok m
    /\ applicationToInterviewRate m = 200%Z
    /\ ~ (0 <= applicationToInterviewRate m <= 100)%Z.
Proof.
  eexists. split; [vm_compute; reflexivity|].
  split; [reflexivity | cbn; lia].
Qed.

Lemma C1_rate_bounds_witness :
  forallb (well_dated (env := RefEnv.utc)) Examples.funnel = true
  /\ exists m,
      fst (aggregate (env := RefEnv.utc) light Examples.funnel) = Ok m
      /\ (0 <= successRate m <= 100)%Z
      /\ (0 <= applicationToInterviewRate m)%Z
      /\ (0 <= interviewToOfferRate m)%Z
      /\ (0 <= offerToAcceptanceRate m)%Z
      /\ (interviewCount m <= appliedCount m ->
          (applicationToInterviewRate m <= 100)%Z)
      /\ (offerCount m <= interviewCount m ->
          (interviewToOfferRate m <= 100)%Z)
      /\ (successJobs m <= offerCount m ->
          (offerToAcceptanceRate m <= 100)%Z).
Proof.
  split; [reflexivity|].
  apply (C1_rate_bounds (env := RefEnv.utc) light Examples.funnel).
  reflexivity.
Defined.

(** C2. The callback returns metrics exactly on the lists whose records
    have no date or a date that [Date] accepts; on any other list it
    throws, as it does on the sample with the date "garbage", whose record
    is then counted nowhere. *)
Theorem C2_unparseable_date_throws :
  (forall (env : DateEnv) (mode : PaletteMode) (js : list Job),
      fst (aggregate mode js)
      = if forallb well_dated js
        then Ok (match js with [] => empty_metrics | _ => metrics_of mode js end)
        else Throw (RangeError "Invalid time value"))
  /\ forallb (well_dated (env := RefEnv.utc)) Examples.undatable = false
  /\ fst (aggregate (env := RefEnv.utc) light Examples.undatable)
     = Throw (RangeError "Invalid time value").
Proof.
  split; [|split; reflexivity].
  intros env mode js. destruct (forallb well_dated js) eqn:Hd.
  - now apply aggregate_total.
  - now rewrite aggregate_throw.
Qed.

(** C5 as stated fails at a tie: 23 accepted out of 40 is 57.5 per cent,
    which should round up to 58; the quotient 23/40 rounds down in
    binary64, its product by 100 is just below 57.5 and the rate is 57. *)
Lemma C5_tie_rounds_down :
  exists m,
    fst (aggregate (env := RefEnv.utc) light Examples.halfway) = Ok m
    /\ successJobs m = 23 /\ totalJobs m = 40
    /\ successRate m = 57%Z
    /\ round_half_up 23 40 = 58%Z
    /\ successRate m <> round_half_up (successJobs m) (totalJobs m).
Proof.
  eexists. split; [vm_compute; reflexivity|].
  repeat split. cbn. discriminate.
Qed.

Lemma rate_meets_spec (num den : nat) :
  (Z.of_nat num < 2 ^ 32)%Z -> rate_spec (rate num den) num den.
Proof.
  intros Hn. split.
  - intros ->. reflexivity.
  - intros Hd. split.
    + now apply NumberFacts.rate_nearest.
    + now apply NumberFacts.rate_round_half_up.
Qed.

Lemma months_Permutation {env : DateEnv} js js' :
  Permutation js js' -> Permutation (months js) (months js').
Proof.
  induction 1 as [| j l l' _ IH | j1 j2 l | l1 l2 l3 _ IH1 _ IH2]; simpl.
  - constructor.
  - destruct (month_of j); [now constructor | assumption].
  - destruct (month_of j1), (month_of j2);
      try apply Permutation_refl; try constructor; apply Permutation_refl.
  - eapply Permutation_trans; eassumption.
Qed.

Lemma count_status_Permutation st js js' :
  Permutation js js' -> count_status st js = count_status st js'.
Proof.
  intros H. unfold count_status.
  apply (Permutation_count_occ JobStatus_eq_dec).
  now apply Permutation_map.
Qed.

Lemma well_dated_Permutation {env : DateEnv} js js' :
  Permutation js js' ->
  forallb well_dated js = true -> forallb well_dated js' = true.
Proof.
  intros H Hd. rewrite forallb_forall in *. intros j Hj.
  apply Hd. eapply Permutation_in; [apply Permutation_sym|]; eassumption.
Qed.

(** The monthly entries of the returned record, empty list included. *)
Lemma monthlyData_total {env : DateEnv} mode js :
  monthlyData (match js with [] => empty_metrics | _ => metrics_of mode js end)
  = map (fun e => MonthlyData.make (fst e) (snd e)) (tally (months js) []).
Proof. destruct js; reflexivity. Qed.

Lemma In_tally_nil ks k n :
  In (k, n) (tally ks []) <-> 0 < n /\ n = count_occ string_dec ks k.
Proof.
  split.
  - intros H. apply ObjFacts.In_get_Some in H;
      [|apply ObjFacts.NoDup_keys_tally_nil].
    rewrite ObjFacts.get_tally_nil in H.
    destruct (count_occ string_dec ks k); [discriminate|].
    injection H as <-. split; [lia | reflexivity].
  - intros [Hpos ->]. apply ObjFacts.get_Some_In.
    rewrite ObjFacts.get_tally_nil.
    destruct (count_occ string_dec ks k); [lia | reflexivity].
Qed.

Lemma NoDup_tally_nil ks : NoDup (tally ks []).
Proof.
  apply (NoDup_map_inv fst). apply ObjFacts.NoDup_keys_tally_nil.
Qed.

Section RatesMonthsAndEffects.
Context {env : DateEnv}.

(** C5 (amended). Each rate is 0 when its denominator is 0 and otherwise
    an integer nearest to 100 * numerator / denominator; it is the value
    rounded half up unless the percentage lies exactly halfway between
    two integers.  The pairs are accepted / total, interview / applied,
    offer / interview and accepted / offer. *)
Theorem C5_rates (mode : PaletteMode) (js : list Job) :
  (Z.of_nat (List.length js) < 2 ^ 32)%Z ->
  forallb well_dated js = true ->
  exists m,
    fst (aggregate mode js) = Ok m
    /\ successJobs m = count_status Accepted js
    /\ interviewCount m = count_status Interview js
    /\ offerCount m = count_status Offer js
    /\ appliedCount m = count_status Applied js
    /\ totalJobs m = List.length js
    /\ rate_spec (successRate m) (successJobs m) (totalJobs m)
    /\ rate_spec (applicationToInterviewRate m)
                 (interviewCount m) (appliedCount m)
    /\ rate_spec (interviewToOfferRate m) (offerCount m) (interviewCount m)
    /\ rate_spec (offerToAcceptanceRate m) (successJobs m) (offerCount m).
Proof.
  intros Hlen Hd. rewrite (aggregate_total mode js Hd).
  eexists. split; [reflexivity|].
  destruct js as [|j r].
  - cbn. repeat split; try reflexivity; intros; lia.
  - unfold metrics_of.
    cbn [successRate applicationToInterviewRate interviewToOfferRate
         offerToAcceptanceRate interviewCount appliedCount offerCount
         successJobs totalJobs].
    pose proof (count_status_le Accepted (j :: r)).
    pose proof (count_status_le Offer (j :: r)).
    pose proof (count_status_le Interview (j :: r)).
    repeat (split; [reflexivity|]).
    repeat split; apply rate_meets_spec; lia.
Qed.

(** On well-dated jobs [monthlyData] has one entry per label that
    [format] gives to a dated record, with the number of records with
    that label, in the order in which the labels first come in the
    input. *)
Lemma monthlyData_by_label (mode : PaletteMode) (js : list Job) :
  forallb well_dated js = true ->
  exists m,
    fst (aggregate mode js) = Ok m
    /\ (forall k n,
           In (MonthlyData.make k n) (monthlyData m)
           <-> 0 < n /\ n = count_occ string_dec (months js) k)
    /\ map MonthlyData.name (monthlyData m) = first_occurrences (months js)
    /\ (forall k,
           In k (map MonthlyData.name (monthlyData m)) <->
           exists j t,
             In j js /\ dateApplied j <> EmptyString
             /\ Date_new (dateApplied j) = Some t
             /\ k = (MMM (getMonth t) ++ " " ++ yyyy (getFullYear t))%string).
Proof.
  intros Hd. rewrite (aggregate_total mode js Hd).
  eexists. split; [reflexivity|].
  rewrite monthlyData_total.
  assert (Hkeys : map MonthlyData.name
                    (map (fun e => MonthlyData.make (fst e) (snd e))
                         (tally (months js) []))
                  = first_occurrences (months js)).
  { rewrite map_map. cbn [MonthlyData.name].
    apply (ObjFacts.keys_tally_nil (months js)). }
  split; [|split].
  - intros k n. rewrite <- In_tally_nil. rewrite in_map_iff. split.
    + intros ([k' n'] & E & H). cbn in E. now inversion E; subst.
    + intros H. exists (k, n). auto.
  - exact Hkeys.
  - intros k. rewrite Hkeys.
    rewrite <- ObjFacts.keys_tally_nil, ObjFacts.keys_tally.
    cbn [keys map app]. rewrite ObjFacts.unseen_spec, In_months. split.
    + intros [(j & Hj & Hm) _]. unfold month_of in Hm.
      destruct (JS.truthy (dateApplied j)) eqn:Ht; [|discriminate].
      destruct (Date_new (dateApplied j)) as [t|] eqn:Et; [|discriminate].
      exists j, t. repeat split; try assumption.
      * intros E. rewrite E in Ht. discriminate.
      * cbn in Hm. now injection Hm as <-.
    + intros (j & t & Hj & Hne & Et & ->). split; [|tauto].
      exists j. split; [assumption|]. unfold month_of. rewrite Et.
      destruct (dateApplied j); [congruence | reflexivity].
Qed.

(** C8. On a permutation of the input the callback returns the same
    status entries, total, counts and rates, and the same monthly
    entries up to their order. *)
Theorem C8_permutation_invariant (mode : PaletteMode) (js js' : list Job) :
  Permutation js js' ->
  forallb well_dated js = true ->
  exists m m',
    fst (aggregate mode js) = Ok m
    /\ fst (aggregate mode js') = Ok m'
    /\ statusData m = statusData m'
    /\ totalJobs m = totalJobs m'
    /\ successRate m = successRate m'
    /\ applicationToInterviewRate m = applicationToInterviewRate m'
    /\ interviewToOfferRate m = interviewToOfferRate m'
    /\ offerToAcceptanceRate m = offerToAcceptanceRate m'
    /\ successJobs m = successJobs m'
    /\ interviewCount m = interviewCount m'
    /\ offerCount m = offerCount m'
    /\ appliedCount m = appliedCount m'
    /\ Permutation (monthlyData m) (monthlyData m').
Proof.
  intros Hp Hd.
  pose proof (well_dated_Permutation js js' Hp Hd) as Hd'.
  rewrite (aggregate_total mode js Hd), (aggregate_total mode js' Hd').
  do 2 eexists. split; [reflexivity|]. split; [reflexivity|].
  assert (Hm : Permutation
                 (monthlyData (match js with
                               | [] => empty_metrics
                               | _ => metrics_of mode js end))
                 (monthlyData (match js' with
                               | [] => empty_metrics
                               | _ => metrics_of mode js' end))).
  { rewrite !monthlyData_total. apply Permutation_map.
    apply NoDup_Permutation; try apply NoDup_tally_nil.
    intros [k n]. rewrite !In_tally_nil.
    rewrite (proj1 (Permutation_count_occ string_dec (months js) (months js'))
               (months_Permutation js js' Hp) k).
    tauto. }
  assert (Hc : forall st, count_status st js = count_status st js')
    by (intros st; now apply count_status_Permutation).
  pose proof (Permutation_length Hp) as Hl.
  destruct js as [|j r], js' as [|j' r'].
  - repeat split. constructor.
  - apply Permutation_nil in Hp. discriminate.
  - apply Permutation_sym, Permutation_nil in Hp. discriminate.
  - revert Hm. unfold metrics_of.
    cbn [statusData totalJobs successRate applicationToInterviewRate
         interviewToOfferRate offerToAcceptanceRate successJobs
         interviewCount offerCount appliedCount monthlyData].
    rewrite !Hc, Hl. intros Hm. repeat split; try reflexivity.
    + apply map_ext. intros st. now rewrite Hc.
    + exact Hm.
Qed.

(** C9 (amended). The result of the callback depends on the job list
    only, not on what the console holds; the call leaves the job list
    as it is; on a non-empty list it appends its debug lines to the
    console, on the empty list it writes nothing. *)
Theorem C9_deterministic_no_mutation (mode : PaletteMode) (w1 w2 : World) :
  jobs w1 = jobs w2 ->
  fst (Dashboard_useMemo mode w1) = fst (Dashboard_useMemo mode w2)
  /\ jobs (snd (Dashboard_useMemo mode w1)) = jobs w1
  /\ console (snd (Dashboard_useMemo mode w1))
     = console w1
       ++ match jobs w1 with [] => [] | _ => log_of mode (jobs w1) end.
Proof.
  intros E. rewrite !Dashboard_useMemo_spec. rewrite <- E.
  destruct (jobs w1) as [|j r] eqn:Ej.
  - cbn. rewrite app_nil_r. auto.
  - destruct (forallb well_dated (j :: r)); cbn; auto.
Qed.

End RatesMonthsAndEffects.

Lemma C5_rates_witness :
  (Z.of_nat (List.length Examples.funnel) < 2 ^ 32)%Z
  /\ forallb (well_dated (env := RefEnv.utc)) Examples.funnel = true
  /\ exists m,
      fst (aggregate (env := RefEnv.utc) light Examples.funnel) = Ok m
      /\ successJobs m = count_status Accepted Examples.funnel
      /\ interviewCount m = count_status Interview Examples.funnel
      /\ offerCount m = count_status Offer Examples.funnel
      /\ appliedCount m = count_status Applied Examples.funnel
      /\ totalJobs m = List.length Examples.funnel
      /\ rate_spec (successRate m) (successJobs m) (totalJobs m)
      /\ rate_spec (applicationToInterviewRate m)
                   (interviewCount m) (appliedCount m)
      /\ rate_spec (interviewToOfferRate m) (offerCount m) (interviewCount m)
      /\ rate_spec (offerToAcceptanceRate m) (successJobs m) (offerCount m).
Proof.
  split; [reflexivity|]. split; [reflexivity|].
  apply (C5_rates (env := RefEnv.utc) light Examples.funnel); reflexivity.
Defined.

Lemma Zone_env_days (offset k : Z) :
  (offset / 1440 = k)%Z -> Zone.env offset = Zone.env (1440 * k).
Proof.
  intros H. unfold Zone.env, Zone.local_day.
  replace ((1440 * k) / 1440)%Z with k
    by (now rewrite Z.mul_comm, Z.div_mul).
  rewrite H. reflexivity.
Qed.

(** C7. A job applied for on 2024-03-01 makes the one entry "Mar 2024"
    where local time is UTC or ahead of it, and the one entry "Feb 2024"
    where local time is behind UTC: there the callback counts the first
    day of a month under the month before, and March, in which the record
    falls, has no key. *)
Theorem C7_first_of_month_west_of_UTC (mode : PaletteMode) (offset : Z) :
  ((0 <= offset < 1440)%Z ->
   exists m,
     fst (aggregate (env := Zone.env offset) mode Examples.first_of_march)
     = Ok m
     /\ monthlyData m = [MonthlyData.make "Mar 2024" 1])
  /\ ((-1440 <= offset < 0)%Z ->
      exists m,
        fst (aggregate (env := Zone.env offset) mode Examples.first_of_march)
        = Ok m
        /\ monthlyData m = [MonthlyData.make "Feb 2024" 1]).
Proof.
  split; intros H.
  - rewrite (Zone_env_days offset 0)
      by (symmetry; apply (Z.div_unique offset 1440 0 offset); lia).
    destruct mode; eexists; (split; [reflexivity | vm_compute; reflexivity]).
  - rewrite (Zone_env_days offset (-1))
      by (symmetry; apply (Z.div_unique offset 1440 (-1) (offset + 1440)); lia).
    destruct mode; eexists; (split; [reflexivity | vm_compute; reflexivity]).
Qed.

Module LabelFacts.

Lemma digit_cases c : JS.is_digit c = true -> In c decimal_digits.
Proof.
  destruct c as [[] [] [] [] [] [] [] []]; cbn; intros H;
    try discriminate H; auto 12.
Qed.

Lemma two_digits_cases a b n :
  RefEnv.two_digits a b = Some n ->
  In a decimal_digits /\ In b decimal_digits.
Proof.
  unfold RefEnv.two_digits.
  destruct (JS.is_digit a) eqn:Ea; [|discriminate].
  destruct (JS.is_digit b) eqn:Eb; [|discriminate].
  intros _. split; now apply digit_cases.
Qed.

Lemma parse_inv s y m d :
  RefEnv.parse s = Some (y, m, d) ->
  exists y1 y2 y3 y4 m1 m2 d1 d2 a b,
    s = String y1 (String y2 (String y3 (String y4 (String "-"
          (String m1 (String m2 (String "-" (String d1 (String d2
            EmptyString)))))))))
    /\ RefEnv.two_digits y1 y2 = Some a
    /\ RefEnv.two_digits y3 y4 = Some b
    /\ RefEnv.two_digits m1 m2 = Some m
    /\ RefEnv.two_digits d1 d2 = Some d
    /\ y = 100 * a + b /\ 1 <= m <= 12.
Proof.
  intros H.
  destruct s as [|y1 s]; [discriminate|].
  destruct s as [|y2 s]; [discriminate|].
  destruct s as [|y3 s]; [discriminate|].
  destruct s as [|y4 s]; [discriminate|].
  destruct s as [|c5 s]; [discriminate|].
  destruct c5 as [[] [] [] [] [] [] [] []]; try discriminate H.
  destruct s as [|m1 s]; [discriminate|].
  destruct s as [|m2 s]; [discriminate|].
  destruct s as [|c8 s]; [discriminate|].
  destruct c8 as [[] [] [] [] [] [] [] []]; try discriminate H.
  destruct s as [|d1 s]; [discriminate|].
  destruct s as [|d2 s]; [discriminate|].
  destruct s as [|x s]; [|discriminate].
  unfold RefEnv.parse in H.
  destruct (RefEnv.two_digits y1 y2) as [a|] eqn:E1; [|discriminate].
  destruct (RefEnv.two_digits y3 y4) as [b|] eqn:E2; [|discriminate].
  destruct (RefEnv.two_digits m1 m2) as [m'|] eqn:E3; [|discriminate].
  destruct (RefEnv.two_digits d1 d2) as [d'|] eqn:E4; [|discriminate].
  cbv zeta in H.
  destruct ((1 <=? m')%nat && (m' <=? 12)%nat && (1 <=? d')%nat
            && (d' <=? RefEnv.days_in_month (100 * a + b) m')%nat) eqn:V;
    [|discriminate].
  injection H as <- <- <-.
  apply andb_true_iff in V. destruct V as [V _].
  apply andb_true_iff in V. destruct V as [V _].
  apply andb_true_iff in V. destruct V as [V1 V2].
  apply Nat.leb_le in V1, V2.
  exists y1, y2, y3, y4, m1, m2, d1, d2, a, b. repeat split; auto.
Qed.

Ltac digit_split H :=
  unfold decimal_digits in H; cbn [In] in H;
  destruct H as [H|[H|[H|[H|[H|[H|[H|[H|[H|[H|H]]]]]]]]]];
  [subst ..| contradiction].

Lemma month_text m1 m2 m :
  RefEnv.two_digits m1 m2 = Some m -> 1 <= m <= 12 ->
  option_map (substring 0 3)
             (JS.get month_names (String m1 (String m2 EmptyString)))
  = Some (MMM (m - 1))
  /\ In (String m1 (String m2 EmptyString)) (map fst month_names).
Proof.
  intros H R. destruct (two_digits_cases _ _ _ H) as [Ha Hb].
  digit_split Ha; digit_split Hb;
    cbn in H; injection H as <-;
    first [ lia | split; [reflexivity | cbn; auto 14] ].
Qed.

Lemma year_text y1 y2 y3 y4 a b :
  RefEnv.two_digits y1 y2 = Some a ->
  RefEnv.two_digits y3 y4 = Some b ->
  String y1 (String y2 (String y3 (String y4 EmptyString))) <> "0000" ->
  yyyy (Z.of_nat (100 * a + b))
  = String y1 (String y2 (String y3 (String y4 EmptyString))).
Proof.
  intros Ha Hb Hn.
  set (ok := fun q : ascii * ascii * ascii * ascii =>
               let '(c1, c2, c3, c4) := q in
               let txt := String c1 (String c2 (String c3 (String c4
                            EmptyString))) in
               match RefEnv.two_digits c1 c2, RefEnv.two_digits c3 c4 with
               | Some a, Some b =>
                   String.eqb txt "0000"
                   || String.eqb (yyyy (Z.of_nat (100 * a + b))) txt
               | _, _ => false
               end).
  assert (K : forallb ok
                (list_prod (list_prod (list_prod decimal_digits decimal_digits)
                                      decimal_digits) decimal_digits) = true)
    by (vm_compute; reflexivity).
  rewrite forallb_forall in K.
  destruct (two_digits_cases _ _ _ Ha) as [H1 H2].
  destruct (two_digits_cases _ _ _ Hb) as [H3 H4].
  specialize (K (y1, y2, y3, y4)).
  assert (Hin : In (y1, y2, y3, y4)
                  (list_prod (list_prod (list_prod decimal_digits
                     decimal_digits) decimal_digits) decimal_digits))
    by (repeat apply in_prod; assumption).
  specialize (K Hin). unfold ok in K. rewrite Ha, Hb in K.
  apply orb_true_iff in K. destruct K as [K|K]; apply String.eqb_eq in K.
  - contradiction.
  - exact K.
Qed.

(** Where local time is UTC or ahead of it by less than a day, [format]
    gives a date the label of its own month. *)
Lemma label_of_date s y m d :
  RefEnv.parse s = Some (y, m, d) ->
  substring 0 4 s <> "0000" ->
  (MMM (m - 1) ++ " " ++ yyyy (Z.of_nat y))%string = Mon_YYYY s.
Proof.
  intros H Hy.
  destruct (parse_inv _ _ _ _ H)
    as (y1 & y2 & y3 & y4 & m1 & m2 & d1 & d2 & a & b
        & -> & E1 & E2 & E3 & E4 & -> & R).
  unfold Mon_YYYY. cbn [substring] in *.
  destruct (month_text _ _ _ E3 R) as [Hm _].
  destruct (JS.get month_names (String m1 (String m2 EmptyString)))
    as [name|]; [|discriminate].
  cbn [option_map] in Hm. injection Hm as Hm. rewrite Hm.
  now rewrite (year_text _ _ _ _ _ _ E1 E2 Hy).
Qed.

Ltac month_split H :=
  unfold month_names in H; cbn [map fst In] in H;
  destruct H as [H|[H|[H|[H|[H|[H|[H|[H|[H|[H|[H|[H|H]]]]]]]]]]]];
  [injection H as <- <- ..| contradiction].

(** Two dates have the same label exactly when they lie in the same
    calendar month. *)
Lemma same_label s s' y m d y' m' d' :
  RefEnv.parse s = Some (y, m, d) ->
  RefEnv.parse s' = Some (y', m', d') ->
  Mon_YYYY s = Mon_YYYY s' <-> calendar_month s = calendar_month s'.
Proof.
  intros H H'.
  destruct (parse_inv _ _ _ _ H)
    as (y1 & y2 & y3 & y4 & m1 & m2 & d1 & d2 & a & b
        & -> & _ & _ & E3 & _ & _ & R).
  destruct (parse_inv _ _ _ _ H')
    as (z1 & z2 & z3 & z4 & n1 & n2 & e1 & e2 & a' & b'
        & -> & _ & _ & F3 & _ & _ & R').
  destruct (month_text _ _ _ E3 R) as [_ Hm].
  destruct (month_text _ _ _ F3 R') as [_ Hn].
  clear - Hm Hn.
  unfold Mon_YYYY, calendar_month. cbn [substring].
  month_split Hm; month_split Hn; cbn; split; intros E; congruence.
Qed.

Lemma local_day_east t : Zone.local_day 0 t = t.
Proof. reflexivity. Qed.

Lemma dated_parse js :
  forallb (well_dated (env := Zone.env 0)) js = true ->
  forall s, In s (dates js) -> exists y m d, RefEnv.parse s = Some (y, m, d).
Proof.
  intros Hd s Hs. unfold dates in Hs. apply filter_In in Hs.
  destruct Hs as [Hs Ht]. apply in_map_iff in Hs. destruct Hs as (j & <- & Hj).
  rewrite forallb_forall in Hd. specialize (Hd j Hj).
  unfold well_dated in Hd. rewrite Ht in Hd. cbn [negb orb] in Hd.
  cbn [Date_new Zone.env] in Hd.
  destruct (RefEnv.parse (dateApplied j)) as [[[y m] d]|]; [eauto|discriminate].
Qed.

Lemma months_east js :
  forallb (well_dated (env := Zone.env 0)) js = true ->
  (forall s, In s (dates js) -> substring 0 4 s <> "0000") ->
  months (env := Zone.env 0) js = map Mon_YYYY (dates js).
Proof.
  induction js as [|j r IH]; intros Hd Hy; [reflexivity|].
  cbn [forallb] in Hd. apply andb_true_iff in Hd. destruct Hd as [Hj Hr].
  unfold dates in *. cbn [months map filter] in *.
  unfold month_of, well_dated in *.
  destruct (JS.truthy (dateApplied j)) eqn:Ht; cbn [negb orb] in Hj.
  - cbn [Date_new Zone.env] in *.
    destruct (RefEnv.parse (dateApplied j)) as [[[y m] d]|] eqn:Ep;
      [|discriminate].
    cbn [option_map map]. f_equal.
    + unfold label. cbn [getMonth getFullYear Zone.env].
      rewrite local_day_east. cbn [fst snd].
      apply (label_of_date _ _ _ _ Ep). apply Hy. now left.
    + apply IH; [exact Hr|]. intros s Hs. apply Hy. now right.
  - apply IH; [exact Hr | exact Hy].
Qed.

Lemma count_in_month ds :
  (forall s, In s ds -> exists y m d, RefEnv.parse s = Some (y, m, d)) ->
  forall s, (exists y m d, RefEnv.parse s = Some (y, m, d)) ->
  count_occ string_dec (map Mon_YYYY ds) (Mon_YYYY s)
  = List.length (in_month_of s ds).
Proof.
  intros Hp s (y & m & d & Hs).
  induction ds as [|x r IH]; [reflexivity|].
  destruct (Hp x (or_introl eq_refl)) as (y' & m' & d' & Hx).
  assert (IH' := IH (fun s' H' => Hp s' (or_intror H'))).
  unfold in_month_of in *. cbn [map count_occ filter].
  pose proof (same_label x s _ _ _ _ _ _ Hx Hs) as L.
  destruct (string_dec (Mon_YYYY x) (Mon_YYYY s)) as [E|E].
  - rewrite (proj2 (String.eqb_eq _ _) (proj1 L E)). cbn. now rewrite IH'.
  - destruct (String.eqb_spec (calendar_month x) (calendar_month s)) as [C|C].
    + exfalso. apply E. now apply L.
    + exact IH'.
Qed.

End LabelFacts.

(** X26. Where local time is UTC or ahead of it, and for records whose
    date is empty or a calendar date [YYYY-MM-DD] of a year from 0001 on,
    [monthlyData] has one entry per calendar month in which a record is
    dated: its name is the "Mon YYYY" label of the month, its count the
    number of records dated in that month, and the entries come in the
    order in which their months first come in the input. *)
Theorem monthly_counts_at_or_east_of_UTC
        (mode : PaletteMode) (offset : Z) (js : list Job) :
  (0 <= offset < 1440)%Z ->
  forallb (well_dated (env := Zone.env offset)) js = true ->
  (forall s, In s (dates js) -> substring 0 4 s <> "0000") ->
  exists m,
    fst (aggregate (env := Zone.env offset) mode js) = Ok m
    /\ (forall k n,
           In (MonthlyData.make k n) (monthlyData m)
           <-> exists s,
                 In s (dates js) /\ k = Mon_YYYY s
                 /\ n = List.length (in_month_of s (dates js)))
    /\ map MonthlyData.name (monthlyData m)
       = first_occurrences (map Mon_YYYY (dates js)).
Proof.
  intros Ho.
  rewrite (Zone_env_days offset 0)
    by (symmetry; apply (Z.div_unique offset 1440 0 offset); lia).
  change (1440 * 0)%Z with 0%Z.
  intros Hd Hy.
  destruct (monthlyData_by_label (env := Zone.env 0) mode js Hd)
    as (m & Hm & Hin & Hord & _).
  rewrite (LabelFacts.months_east js Hd Hy) in Hin, Hord.
  pose proof (LabelFacts.dated_parse js Hd) as Hp.
  exists m. split; [exact Hm|]. split; [|exact Hord].
  intros k n. rewrite Hin. split.
  - intros [Hpos ->].
    apply (count_occ_In string_dec) in Hpos. apply in_map_iff in Hpos.
    destruct Hpos as (s & <- & Hs). exists s. split; [exact Hs|].
    split; [reflexivity|].
    apply LabelFacts.count_in_month; auto.
  - intros (s & Hs & -> & ->).
    rewrite <- (LabelFacts.count_in_month (dates js) Hp s (Hp s Hs)).
    split; [|reflexivity].
    apply (count_occ_In string_dec). now apply in_map.
Qed.

Lemma monthly_counts_at_or_east_of_UTC_witness :
  (0 <= 60 < 1440)%Z
  /\ forallb (well_dated (env := Zone.env 60)) Examples.funnel = true
  /\ (forall s, In s (dates Examples.funnel) -> substring 0 4 s <> "0000")
  /\ exists m,
      fst (aggregate (env := Zone.env 60) light Examples.funnel) = Ok m
      /\ (forall k n,
             In (MonthlyData.make k n) (monthlyData m)
             <-> exists s,
                   In s (dates Examples.funnel) /\ k = Mon_YYYY s
                   /\ n = List.length (in_month_of s (dates Examples.funnel)))
      /\ map MonthlyData.name (monthlyData m)
         = first_occurrences (map Mon_YYYY (dates Examples.funnel)).
Proof.
  assert (Hy : forall s, In s (dates Examples.funnel) ->
                         substring 0 4 s <> "0000").
  { intros s Hs. vm_compute in Hs.
    repeat (destruct Hs as [<-|Hs]; [discriminate|]). contradiction. }
  split; [lia|]. split; [reflexivity|]. split; [exact Hy|].
  apply (monthly_counts_at_or_east_of_UTC light 60 Examples.funnel);
    [lia | reflexivity | exact Hy].
Defined.

Lemma funnel_shuffled_Permutation :
  Permutation Examples.funnel Examples.funnel_shuffled.
Proof.
  unfold Examples.funnel, Examples.funnel_shuffled.
  set (a := Examples.batch 0 3 "2024-03-05" Applied).
  set (b := Examples.batch 3 2 "2024-02-20" Interview).
  set (c := Examples.batch 5 1 "2024-03-09" Offer).
  set (d := Examples.batch 6 1 "2023-12-31" Accepted).
  transitivity ((b ++ c ++ d) ++ a); [apply Permutation_app_comm|].
  rewrite <- !app_assoc.
  transitivity ((b ++ c) ++ d ++ a); [now rewrite <- app_assoc|].
  transitivity ((d ++ a) ++ b ++ c); [apply Permutation_app_comm|].
  rewrite <- app_assoc. apply Permutation_app_head.
  transitivity ((b ++ c) ++ a); [apply Permutation_app_comm|].
  now rewrite <- app_assoc.
Qed.

Lemma C8_permutation_invariant_witness :
  Permutation Examples.funnel Examples.funnel_shuffled
  /\ forallb (well_dated (env := RefEnv.utc)) Examples.funnel = true
  /\ exists m m',
      fst (aggregate (env := RefEnv.utc) light Examples.funnel) = Ok m
      /\ fst (aggregate (env := RefEnv.utc) light Examples.funnel_shuffled)
         = Ok m'
      /\ statusData m = statusData m'
      /\ totalJobs m = totalJobs m'
      /\ successRate m = successRate m'
      /\ applicationToInterviewRate m = applicationToInterviewRate m'
      /\ interviewToOfferRate m = interviewToOfferRate m'
      /\ offerToAcceptanceRate m = offerToAcceptanceRate m'
      /\ successJobs m = successJobs m'
      /\ interviewCount m = interviewCount m'
      /\ offerCount m = offerCount m'
      /\ appliedCount m = appliedCount m'
      /\ Permutation (monthlyData m) (monthlyData m').
Proof.
  split; [exact funnel_shuffled_Permutation|]. split; [reflexivity|].
  apply (C8_permutation_invariant (env := RefEnv.utc) light
           Examples.funnel Examples.funnel_shuffled).
  - exact funnel_shuffled_Permutation.
  - reflexivity.
Defined.

(** C9 as stated fails: a call on a single job leaves six lines on a
    console that was empty. *)
Lemma C9_console_written :
  List.length
    (console (snd (aggregate (env := RefEnv.utc) light Examples.single))) = 6
  /\ snd (aggregate (env := RefEnv.utc) light Examples.single)
     <> mkWorld Examples.single [].
Proof.
  split; [reflexivity|]. vm_compute. discriminate.
Qed.

Lemma C9_deterministic_no_mutation_witness :
  let w1 := mkWorld Examples.funnel [] in
  let w2 := mkWorld Examples.funnel [[LogString "earlier output"]] in
  jobs w1 = jobs w2
  /\ fst (Dashboard_useMemo (env := RefEnv.utc) light w1)
     = fst (Dashboard_useMemo (env := RefEnv.utc) light w2)
  /\ jobs (snd (Dashboard_useMemo (env := RefEnv.utc) light w1)) = jobs w1
  /\ console (snd (Dashboard_useMemo (env := RefEnv.utc) light w1))
     = console w1
       ++ match jobs w1 with
          | [] => []
          | _ => log_of (env := RefEnv.utc) light (jobs w1)
          end.
Proof.
  intros w1 w2. split; [reflexivity|].
  apply (C9_deterministic_no_mutation (env := RefEnv.utc) light w1 w2).
  reflexivity.
Defined.

(* ================================================================== *)
(** * Properties of the creation dialog                                *)
(* ================================================================== *)

Lemma JobStatus_eqb_eq a b : JobStatus_eqb a b = true <-> a = b.
Proof.
  unfold JobStatus_eqb. rewrite String.eqb_eq. split.
  - apply status_name_inj.
  - now intros ->.
Qed.

Lemma offered_status_in_menu v :
  JobForm.offered (JobForm.SelectStatus v) = true ->
  In v JobForm.status_menu.
Proof.
  cbn [JobForm.offered]. rewrite existsb_exists.
  intros (x & Hx & E). apply JobStatus_eqb_eq in E. now subst.
Qed.

(** A step the interface offers keeps the status cell inside the menu, and
    so is the status of the call it makes. *)
Lemma JobForm_step_status s e :
  JobForm.offered e = true ->
  In (JobForm.status s) JobForm.status_menu ->
  In (JobForm.status (fst (JobForm.step s e))) JobForm.status_menu
  /\ forall c, snd (JobForm.step s e) = Some c ->
               In (NewJob.status c) JobForm.status_menu.
Proof.
  intros He Hs. destruct e; cbn [JobForm.step fst snd].
  - split; [exact Hs | discriminate].
  - split; [cbn; auto | discriminate].
  - split; [exact Hs | discriminate].
  - split; [exact Hs | discriminate].
  - split; [exact Hs | discriminate].
  - split; [now apply offered_status_in_menu | discriminate].
  - unfold JobForm.handleSubmit.
    destruct (negb (JS.truthy (JS.trim (JobForm.company
                                          (JobForm.setError EmptyString s))))
              || negb (JS.truthy (JS.trim (JobForm.role
                                          (JobForm.setError EmptyString s)))));
      cbn [fst snd].
    + split; [exact Hs | discriminate].
    + split; [exact Hs|]. intros c [= <-]. exact Hs.
  - split; [|discriminate]. destruct ok; cbn; auto.
Qed.

Lemma JobForm_run_status es : forall s,
  forallb JobForm.offered es = true ->
  In (JobForm.status s) JobForm.status_menu ->
  forall c, In c (snd (JobForm.run s es)) ->
            In (NewJob.status c) JobForm.status_menu.
Proof.
  induction es as [|e r IH]; intros s Hes Hs c Hc; [contradiction|].
  cbn [forallb] in Hes. apply andb_true_iff in Hes. destruct Hes as [He Hr].
  destruct (JobForm_step_status s e He Hs) as [Hs1 Hcall].
  cbn [JobForm.run] in Hc.
  destruct (JobForm.step s e) as [s1 call].
  destruct (JobForm.run s1 r) as [s2 calls] eqn:Erun.
  cbn [fst snd] in *.
  assert (Hcalls : forall c', In c' calls ->
                              In (NewJob.status c') JobForm.status_menu).
  { intros c' Hc'. apply (IH s1 Hr Hs1). now rewrite Erun. }
  destruct call as [c0|]; [|now apply Hcalls].
  destruct Hc as [<-|Hc]; [now apply Hcall | now apply Hcalls].
Qed.

(** C10. Whatever the user does with the creation dialog, every job it
    hands to [addJob] has one of the statuses Applied, Interview, Offer and
    Rejected, never Accepted: the dialog starts at Applied and its selector
    lists those four, while the selector of a table row also lists
    Accepted. *)
Theorem C10_form_never_creates_accepted
        (today : string) (es : list JobForm.Event) (c : NewJob.t) :
  forallb JobForm.offered es = true ->
  In c (snd (JobForm.run (JobForm.initial today) es)) ->
  In (NewJob.status c) [Applied; Interview; Offer; Rejected]
  /\ NewJob.status c <> Accepted
  /\ JobForm.status (JobForm.initial today) = Applied
  /\ ~ In Accepted JobForm.status_menu
  /\ In Accepted JobList.status_menu.
Proof.
  intros Hes Hc.
  assert (H : In (NewJob.status c) JobForm.status_menu).
  { apply (JobForm_run_status es (JobForm.initial today)); cbn; auto. }
  split; [exact H|]. split.
  - intros E. rewrite E in H. cbn in H.
    repeat destruct H as [H|H]; try discriminate; contradiction.
  - split; [reflexivity|]. split.
    + cbn. intros K. repeat destruct K as [K|K]; try discriminate; contradiction.
    + cbn. auto.
Qed.

Lemma C10_form_never_creates_accepted_witness :
  let c := NewJob.make "Acme" "Engineer" "2024-03-10" Offer in
  forallb JobForm.offered Examples.session = true
  /\ In c (snd (JobForm.run (JobForm.initial "2024-03-10") Examples.session))
  /\ In (NewJob.status c) [Applied; Interview; Offer; Rejected]
  /\ NewJob.status c <> Accepted
  /\ JobForm.status (JobForm.initial "2024-03-10") = Applied
  /\ ~ In Accepted JobForm.status_menu
  /\ In Accepted JobList.status_menu.
Proof.
  intros c. split; [reflexivity|]. split; [vm_compute; left; reflexivity|].
  apply (C10_form_never_creates_accepted "2024-03-10" Examples.session c).
  - reflexivity.
  - vm_compute. left. reflexivity.
Defined.

(* ================================================================== *)
(** * What the dashboard shows                                         *)
(* ================================================================== *)

Lemma sum_values_shift (sd : list StatusData) : forall a,
  fold_left (fun sum item => sum + value item) sd a
  = a + fold_left (fun sum item => sum + value item) sd 0.
Proof.
  induction sd as [|e r IH]; intros a; simpl; [lia|].
  rewrite (IH (a + value e)), (IH (value e)). lia.
Qed.

Lemma sum_values_filter_positive (sd : list StatusData) :
  sum_values (filter (fun entry => (0 <? value entry)%nat) sd) = sum_values sd.
Proof.
  unfold sum_values. induction sd as [|e r IH]; simpl; [reflexivity|].
  destruct (Nat.ltb_spec 0 (value e)); simpl.
  - rewrite (sum_values_shift _ (value e)), (sum_values_shift r (value e)).
    now rewrite IH.
  - replace (value e) with 0 by lia. exact IH.
Qed.

Lemma sum_values_metrics_of {env : DateEnv} mode js :
  sum_values (statusData (metrics_of mode js)) = List.length js.
Proof.
  unfold metrics_of, sum_values. cbn [statusData map fold_left STATUS_ORDER value].
  pose proof (count_status_total js). lia.
Qed.

Lemma filter_map_comm {A B : Type} (f : A -> B) (p : B -> bool) (l : list A) :
  filter p (map f l) = map f (filter (fun x => p (f x)) l).
Proof.
  induction l as [|x r IH]; simpl; [reflexivity|].
  destruct (p (f x)); simpl; now rewrite IH.
Qed.

(** The view on a world whose jobs all have no date or an accepted one. *)
Lemma Dashboard_render_spec {env : DateEnv} mode loading error w :
  forallb well_dated (jobs w) = true ->
  fst (Dashboard_render mode loading error w)
  = Ok (if loading then ViewLoading
        else match error with
             | Some message =>
                 ViewError ("Error loading job data: " ++ message)%string
             | None =>
                 match jobs w with
                 | [] => ViewEmpty
                 | _ => ViewCharts (charts_of (metrics_of mode (jobs w)))
                 end
             end).
Proof.
  intros Hd. unfold Dashboard_render, bind.
  rewrite Dashboard_useMemo_spec.
  destruct (jobs w) as [|j r] eqn:Ej.
  - destruct loading; [reflexivity|]. destruct error; reflexivity.
  - cbv zeta. rewrite Hd.
    destruct loading; [reflexivity|]. destruct error; reflexivity.
Qed.

Section DashboardShows.
Context {env : DateEnv}.

(** X1. Which of its four views the dashboard renders: the spinner while
    loading, else the error alert when the context reports an error, else
    the "no job applications" alert exactly on an empty list, else the
    charts; so the charts are only rendered with a positive total, with
    all five statuses in the legend. *)
Theorem Dashboard_view_selection (mode : PaletteMode) (loading : bool)
        (error : option string) (w : World) :
  forallb well_dated (jobs w) = true ->
  exists v,
    fst (Dashboard_render mode loading error w) = Ok v
    /\ (v = ViewLoading <-> loading = true)
    /\ ((exists text, v = ViewError text) <-> loading = false /\ error <> None)
    /\ (v = ViewEmpty <-> loading = false /\ error = None /\ jobs w = [])
    /\ (forall c, v = ViewCharts c ->
          loading = false /\ error = None /\ jobs w <> []
          /\ footer_total c = List.length (jobs w)
          /\ 0 < footer_total c
          /\ map legend_name (legend_rows c)
             = ["Applied"; "Interview"; "Offer"; "Accepted"; "Rejected"])
    /\ (loading = false -> error = None -> jobs w <> [] ->
        exists c, v = ViewCharts c).
Proof.
  intros Hd. rewrite (Dashboard_render_spec mode loading error w Hd).
  eexists. split; [reflexivity|].
  destruct loading.
  { split; [tauto|]. split.
    { split; [intros [t H]; discriminate | intros [H _]; discriminate]. }
    split.
    { split; [discriminate | intros [H _]; discriminate]. }
    split; [intros c H; discriminate | discriminate]. }
  destruct error as [msg|].
  { split; [split; discriminate|]. split.
    { split; [intros _; split; [reflexivity | discriminate]|].
      intros _. eexists. reflexivity. }
    split.
    { split; [discriminate | intros (_ & H & _); discriminate]. }
    split; [intros c H; discriminate | intros _ H; discriminate]. }
  destruct (jobs w) as [|j r] eqn:Ej.
  { split; [split; discriminate|]. split.
    { split; [intros [t H]; discriminate | intros [_ H]; congruence]. }
    split; [tauto|].
    split; [intros c H; discriminate | intros _ _ H; congruence]. }
  split; [split; discriminate|]. split.
  { split; [intros [t H]; discriminate | intros [_ H]; congruence]. }
  split.
  { split; [discriminate | intros (_ & _ & H); discriminate]. }
  split.
  - intros c H. injection H as <-.
    split; [reflexivity|]. split; [reflexivity|]. split; [discriminate|].
    split; [reflexivity|]. split; [cbn; lia | reflexivity].
  - intros _ _ _. eexists. reflexivity.
Qed.

(** X2. When the charts are rendered, the pie has one datum per status
    that has at least one job, in display order, each with its positive
    count; there is at least one, and the counts add up to the total. *)
Theorem Dashboard_pie_data (mode : PaletteMode) (w : World) :
  forallb well_dated (jobs w) = true ->
  jobs w <> [] ->
  exists c,
    fst (Dashboard_render mode false None w) = Ok (ViewCharts c)
    /\ map name (pie_data c) = map status_name (statuses_with_jobs (jobs w))
    /\ map value (pie_data c)
       = map (fun st => count_status st (jobs w)) (statuses_with_jobs (jobs w))
    /\ Forall (fun entry => 0 < value entry) (pie_data c)
    /\ pie_data c <> []
    /\ sum_values (pie_data c) = card_total c
    /\ card_total c = List.length (jobs w).
Proof.
  intros Hd Hne. rewrite (Dashboard_render_spec mode false None w Hd).
  destruct (jobs w) as [|j r] eqn:Ej; [congruence|]. rewrite <- Ej in *.
  eexists. split; [reflexivity|].
  assert (Hpie : pie_data (charts_of (metrics_of mode (jobs w)))
                 = map (fun st =>
                          let c := getStatusColor (status_name st) mode in
                          mkStatusData (status_name st) (count_status st (jobs w))
                                       c (c ++ "33")%string)
                       (statuses_with_jobs (jobs w))).
  { unfold charts_of, metrics_of, statuses_with_jobs.
    cbn [pie_data statusData]. now rewrite filter_map_comm. }
  assert (Hsum : sum_values (pie_data (charts_of (metrics_of mode (jobs w))))
                 = List.length (jobs w)).
  { unfold charts_of. cbn [pie_data].
    rewrite sum_values_filter_positive. apply sum_values_metrics_of. }
  split; [|split; [|split; [|split; [|split]]]].
  - rewrite Hpie, map_map. reflexivity.
  - rewrite Hpie, map_map. reflexivity.
  - unfold charts_of. cbn [pie_data]. apply Forall_forall.
    intros e He. apply filter_In in He. destruct He as [_ He].
    now apply Nat.ltb_lt in He.
  - intros E. rewrite E in Hsum. cbn in Hsum. rewrite Ej in Hsum.
    discriminate.
  - rewrite Hsum. reflexivity.
  - reflexivity.
Qed.

End DashboardShows.

Lemma Dashboard_view_selection_witness :
  let w := mkWorld Examples.funnel [] in
  let loading := false in
  let error := @None string in
  forallb (well_dated (env := RefEnv.utc)) (jobs w) = true
  /\ exists v,
    fst (Dashboard_render (env := RefEnv.utc) light loading error w) = Ok v
    /\ (v = ViewLoading <-> loading = true)
    /\ ((exists text, v = ViewError text) <-> loading = false /\ error <> None)
    /\ (v = ViewEmpty <-> loading = false /\ error = None /\ jobs w = [])
    /\ (forall c, v = ViewCharts c ->
          loading = false /\ error = None /\ jobs w <> []
          /\ footer_total c = List.length (jobs w)
          /\ 0 < footer_total c
          /\ map legend_name (legend_rows c)
             = ["Applied"; "Interview"; "Offer"; "Accepted"; "Rejected"])
    /\ (loading = false -> error = None -> jobs w <> [] ->
        exists c, v = ViewCharts c).
Proof.
  intros w loading error. split; [reflexivity|].
  apply (Dashboard_view_selection (env := RefEnv.utc) light loading error w).
  reflexivity.
Defined.

Lemma Dashboard_pie_data_witness :
  let w := mkWorld Examples.funnel [] in
  forallb (well_dated (env := RefEnv.utc)) (jobs w) = true
  /\ jobs w <> []
  /\ exists c,
    fst (Dashboard_render (env := RefEnv.utc) light false None w)
    = Ok (ViewCharts c)
    /\ map name (pie_data c) = map status_name (statuses_with_jobs (jobs w))
    /\ map value (pie_data c)
       = map (fun st => count_status st (jobs w)) (statuses_with_jobs (jobs w))
    /\ Forall (fun entry => 0 < value entry) (pie_data c)
    /\ pie_data c <> []
    /\ sum_values (pie_data c) = card_total c
    /\ card_total c = List.length (jobs w).
Proof.
  intros w. split; [reflexivity|]. split; [discriminate|].
  apply (Dashboard_pie_data (env := RefEnv.utc) light w);
    [reflexivity | discriminate].
Defined.

(** ** The bars, the legend and the colours of the pie *)

Lemma obj_sum_set (o : JS.Obj nat) k v :
  obj_sum (JS.set o k v) + cnt o k = obj_sum o + v.
Proof.
  unfold obj_sum, cnt. induction o as [|[k' v'] r IH]; simpl.
  - lia.
  - destruct (String.eqb k' k); simpl; lia.
Qed.

Lemma obj_sum_tally ks : forall acc,
  obj_sum (tally ks acc) = obj_sum acc + List.length ks.
Proof.
  induction ks as [|k r IH]; intros acc; simpl; [lia|].
  unfold tally in *. simpl. rewrite IH. unfold JS.bump.
  pose proof (obj_sum_set acc k (match JS.get acc k with
                                 | Some n => n | None => 0 end + 1)) as H.
  unfold cnt in H. lia.
Qed.

Lemma sum_Applications_obj (o : JS.Obj nat) :
  sum_Applications (map (fun e => MonthlyData.make (fst e) (snd e)) o)
  = obj_sum o.
Proof.
  unfold sum_Applications, obj_sum.
  assert (G : forall a,
             fold_left (fun sum e => sum + MonthlyData.Applications e)
                       (map (fun e => MonthlyData.make (fst e) (snd e)) o) a
             = a + list_sum (map snd o)).
  { induction o as [|e r IH]; intros a; simpl; [lia|]. rewrite IH. lia. }
  apply G.
Qed.

Lemma months_length_dated {env : DateEnv} js :
  forallb well_dated js = true -> List.length (months js) = count_dated js.
Proof.
  unfold count_dated. induction js as [|j r IH]; simpl; [reflexivity|].
  intros H. apply andb_true_iff in H. destruct H as [Hj Hr].
  unfold month_of, well_dated in *.
  destruct (JS.truthy (dateApplied j)); simpl in *.
  - destruct (Date_new (dateApplied j)); [|discriminate]. simpl.
    now rewrite IH.
  - now apply IH.
Qed.

Lemma count_dated_le js : count_dated js <= List.length js.
Proof. unfold count_dated. apply filter_length_le. Qed.

Module PercentFacts.
Local Open Scope Q_scope.

(** The Number [value / totalJobs * 100] against the exact percentage. *)
Lemma percent_of_err (v t : nat) : (0 < t)%nat ->
  100 * (JS.of_nat v / JS.of_nat t) * ((1 - u53) * (1 - u53))
  <= percent_of v t
  /\ percent_of v t
     <= 100 * (JS.of_nat v / JS.of_nat t) * ((1 + u53) * (1 + u53)).
Proof.
  intros Ht. unfold percent_of, JS.mul, JS.div.
  set (x := JS.of_nat v / JS.of_nat t).
  pose proof (NumberFacts.of_nat_pos t Ht) as HD.
  destruct v as [|n].
  - assert (Hx0 : x == 0).
    { unfold x, JS.of_nat, Qeq. simpl. reflexivity. }
    replace (JS.binary64 x) with 0 by (unfold x, JS.of_nat; reflexivity).
    replace (JS.binary64 (0 * JS.of_nat 100)) with 0 by reflexivity.
    rewrite Hx0. unfold u53. split; lra.
  - assert (HN : 0 < JS.of_nat (S n)) by (apply NumberFacts.of_nat_pos; lia).
    assert (Hx : 0 < x) by (unfold x; apply Qlt_shift_div_l; lra).
    destruct (NumberFacts.binary64_pos_err x Hx) as [A1 A2].
    set (x1 := JS.binary64 x) in *.
    assert (H100 : JS.of_nat 100 == 100) by reflexivity.
    assert (Hx1 : 0 < x1 * JS.of_nat 100).
    { rewrite H100. unfold u53 in A1. lra. }
    destruct (NumberFacts.binary64_pos_err _ Hx1) as [B1 B2].
    revert B1 B2. generalize (JS.binary64 (x1 * JS.of_nat 100)).
    intros y B1 B2. rewrite H100 in B1, B2.
    unfold u53 in *. split; lra.
Qed.

(** The digits [toFixed(1)] prints for a share of the total: a number of
    tenths between 0 and 1000, nearest to the exact percentage. *)
Lemma toFixed1_percent (v t : nat) :
  (v <= t)%nat -> (0 < t)%nat -> (Z.of_nat t < 2 ^ 32)%Z ->
  let n := toFixed1_tenths (percent_of v t) in
  (0 <= n <= 1000)%Z
  /\ (2000 * Z.of_nat v - Z.of_nat t <= 2 * Z.of_nat t * n)%Z
  /\ (2 * Z.of_nat t * n <= 2000 * Z.of_nat v + Z.of_nat t)%Z.
Proof.
  intros Hle Ht Hb n.
  destruct (percent_of_err v t Ht) as [Hlo Hhi].
  unfold n, toFixed1_tenths. clear n.
  set (y := percent_of v t) in *.
  pose proof (Qfloor_le (y * 10 + (1 # 2))) as F1.
  pose proof (Qlt_floor (y * 10 + (1 # 2))) as F2.
  rewrite inject_Z_plus in F2. change (inject_Z 1) with 1 in F2.
  set (r := Qfloor (y * 10 + (1 # 2))) in *.
  pose proof (NumberFacts.of_nat_pos t Ht) as HD.
  pose proof (NumberFacts.of_nat_nonneg v) as HN.
  assert (HNb : JS.of_nat v <= 4294967296).
  { unfold JS.of_nat. change 4294967296 with (inject_Z 4294967296).
    rewrite <- Zle_Qle. change (2 ^ 32)%Z with 4294967296%Z in Hb. lia. }
  assert (HvT : JS.of_nat v <= JS.of_nat t).
  { unfold JS.of_nat. rewrite <- Zle_Qle. lia. }
  assert (Hz : JS.of_nat v / JS.of_nat t * JS.of_nat t == JS.of_nat v).
  { field. lra. }
  assert (Hz1 : JS.of_nat v / JS.of_nat t <= 1).
  { apply Qle_shift_div_r; lra. }
  assert (Hz0 : 0 <= JS.of_nat v / JS.of_nat t).
  { apply Qle_shift_div_l; lra. }
  assert (G : -1 < inject_Z r /\ inject_Z r < 1001
              /\ 2000 * JS.of_nat v - JS.of_nat t - 1
                 < 2 * JS.of_nat t * inject_Z r
              /\ 2 * JS.of_nat t * inject_Z r
                 < 2000 * JS.of_nat v + JS.of_nat t + 1).
  { revert Hlo Hhi F1 F2 HD HN HNb HvT Hz Hz1 Hz0. generalize y.
    generalize (inject_Z r). generalize (JS.of_nat v / JS.of_nat t).
    generalize (JS.of_nat v). generalize (JS.of_nat t).
    intros D N z f y' Hlo Hhi F1 F2 HD HN HNb HvT Hz Hz1 Hz0.
    assert (Y1 : (y' * 10 + (1 # 2)) * D < (f + 1) * D)
      by (apply Qmult_lt_compat_r; lra).
    assert (Y2 : f * D <= (y' * 10 + (1 # 2)) * D)
      by (apply Qmult_le_compat_r; lra).
    assert (Y3 : 100 * z * ((1 - u53) * (1 - u53)) * D <= y' * D)
      by (apply Qmult_le_compat_r; lra).
    assert (Y4 : y' * D <= 100 * z * ((1 + u53) * (1 + u53)) * D)
      by (apply Qmult_le_compat_r; lra).
    unfold u53 in *. repeat split; nra. }
  destruct G as (G0 & G00 & G1 & G2). unfold JS.of_nat in G1, G2.
  change (-1) with (inject_Z (-1)) in G0.
  change 1001 with (inject_Z 1001) in G00.
  change 2000 with (inject_Z 2000) in G1, G2.
  change 2 with (inject_Z 2) in G1, G2.
  change 1 with (inject_Z 1) in G1, G2.
  rewrite <- !inject_Z_mult, <- ?inject_Z_plus in G2.
  rewrite <- !inject_Z_mult in G1.
  unfold Qminus in G1. rewrite <- !inject_Z_opp, <- !inject_Z_plus in G1.
  rewrite <- Zlt_Qlt in G0, G00, G1, G2. lia.
Qed.

End PercentFacts.

(** Sectors and cells are paired by position: every sector gets the colour
    of its own datum exactly when filtering dropped nothing before a datum
    it kept. *)
Lemma sectors_coloured_iff_prefix (sd : list StatusData) :
  NoDup (map color sd) ->
  let data := filter (fun entry => (0 <? value entry)%nat) sd in
  Forall (fun p => snd p = color (fst p)) (combine data (map color sd))
  <-> data = firstn (List.length data) sd.
Proof.
  induction sd as [|e r IH]; intros Hnd; cbn zeta.
  - simpl. split; [reflexivity | constructor].
  - inversion Hnd as [|? ? Hnot Hnd']; subst.
    specialize (IH Hnd'). cbn zeta in IH. simpl.
    destruct (0 <? value e)%nat eqn:Epos; simpl.
    + split.
      * intros H. inversion H; subst. f_equal. now apply IH.
      * intros H. injection H as H. constructor; [reflexivity | now apply IH].
    + destruct (filter (fun entry => (0 <? value entry)%nat) r)
        as [|x f] eqn:Ef; simpl.
      * split; [reflexivity | constructor].
      * assert (Hx : In x r /\ (0 <? value x)%nat = true).
        { apply (proj1 (filter_In (fun entry => (0 <? value entry)%nat) x r)).
          rewrite Ef. simpl. auto. }
        split.
        -- intros H. inversion H as [|? ? Hc _]; subst. simpl in Hc.
           exfalso. apply Hnot. rewrite Hc. apply in_map. tauto.
        -- intros H. injection H as H _. subst x.
           destruct Hx as [_ Hx]. congruence.
Qed.

Lemma map_injective {A B : Type} (f : A -> B) :
  (forall a b, f a = f b -> a = b) ->
  forall l1 l2, map f l1 = map f l2 -> l1 = l2.
Proof.
  intros Hinj. induction l1 as [|a l1 IH]; intros [|b l2] E; simpl in E.
  - reflexivity.
  - discriminate.
  - discriminate.
  - injection E as E1 E2. f_equal; auto.
Qed.

Lemma firstn_map {A B : Type} (f : A -> B) (n : nat) (l : list A) :
  firstn n (map f l) = map f (firstn n l).
Proof.
  revert l. induction n as [|n IH]; intros [|x r]; simpl; try reflexivity.
  now rewrite IH.
Qed.

Section ChartsShow.
Context {env : DateEnv}.

(** X3. The bars of the monthly chart add up to the number of jobs that
    have a date, which is at most the total on the first card. *)
Theorem Dashboard_bars_total (mode : PaletteMode) (w : World) :
  forallb well_dated (jobs w) = true ->
  jobs w <> [] ->
  exists c,
    fst (Dashboard_render mode false None w) = Ok (ViewCharts c)
    /\ sum_Applications (bars c) = count_dated (jobs w)
    /\ sum_Applications (bars c) <= card_total c.
Proof.
  intros Hd Hne. rewrite (Dashboard_render_spec mode false None w Hd).
  destruct (jobs w) as [|j r] eqn:Ej; [congruence|]. rewrite <- Ej in *.
  eexists. split; [reflexivity|].
  unfold charts_of, metrics_of. cbn [bars monthlyData card_total totalJobs].
  rewrite sum_Applications_obj, obj_sum_tally.
  rewrite (months_length_dated _ Hd). cbn.
  split; [reflexivity | apply count_dated_le].
Qed.

(** X4. Each legend line shows its status count and that count as a share
    of the total, printed with one decimal: a number of tenths between
    0.0 and 100.0 that is nearest to the exact percentage; the total in
    the legend head equals the total in its foot. *)
Theorem Dashboard_legend (mode : PaletteMode) (w : World) :
  forallb well_dated (jobs w) = true ->
  jobs w <> [] ->
  (Z.of_nat (List.length (jobs w)) < 2 ^ 32)%Z ->
  exists c,
    fst (Dashboard_render mode false None w) = Ok (ViewCharts c)
    /\ legend_total c = footer_total c
    /\ map legend_value (legend_rows c)
       = map (fun st => count_status st (jobs w)) STATUS_ORDER
    /\ forall row, In row (legend_rows c) ->
         exists n : nat,
           n <= 1000
           /\ legend_percent row
              = (JS.nat_to_string (n / 10) ++ "."
                 ++ JS.nat_to_string (n mod 10))%string
           /\ (2000 * Z.of_nat (legend_value row) - Z.of_nat (footer_total c)
               <= 2 * Z.of_nat (footer_total c) * Z.of_nat n
               <= 2000 * Z.of_nat (legend_value row)
                  + Z.of_nat (footer_total c))%Z.
Proof.
  intros Hd Hne Hlen. rewrite (Dashboard_render_spec mode false None w Hd).
  destruct (jobs w) as [|j r] eqn:Ej; [congruence|]. rewrite <- Ej in *.
  eexists. split; [reflexivity|].
  split; [|split].
  - unfold charts_of. cbn [legend_total footer_total].
    apply (sum_values_metrics_of mode (jobs w)).
  - reflexivity.
  - intros row Hrow. unfold charts_of in *.
    cbn [legend_rows footer_total] in *.
    apply in_map_iff in Hrow. destruct Hrow as (e & <- & He).
    cbn [legend_percent legend_value].
    unfold metrics_of in He. cbn [statusData] in He.
    apply in_map_iff in He. destruct He as (st & <- & _).
    cbn [value]. unfold metrics_of. cbn [totalJobs].
    assert (Hpos : 0 < List.length (jobs w)) by (rewrite Ej; cbn; lia).
    destruct (PercentFacts.toFixed1_percent
                (count_status st (jobs w)) (List.length (jobs w))
                (count_status_le st (jobs w)) Hpos Hlen) as (B & L & U).
    exists (Z.to_nat (toFixed1_tenths
                        (percent_of (count_status st (jobs w))
                                    (List.length (jobs w))))).
    split; [lia|]. split; [reflexivity|].
    rewrite Z2Nat.id by lia. lia.
Qed.

(** X5. The chart library gives the i-th sector of the pie the colour of
    the i-th [Cell], and the cells are made from all five statuses while
    the data leave out the statuses without jobs.  So every sector has the
    colour of its own status exactly when the statuses that have jobs are
    the first ones of the display order; otherwise some sector is drawn
    in the colour of another status. *)
Theorem Dashboard_pie_colours (mode : PaletteMode) (w : World) :
  forallb well_dated (jobs w) = true ->
  jobs w <> [] ->
  exists c,
    fst (Dashboard_render mode false None w) = Ok (ViewCharts c)
    /\ (Forall (fun sector => snd sector = color (fst sector)) (pie_sectors c)
        <-> statuses_with_jobs (jobs w)
            = firstn (List.length (statuses_with_jobs (jobs w))) STATUS_ORDER).
Proof.
  intros Hd Hne. rewrite (Dashboard_render_spec mode false None w Hd).
  destruct (jobs w) as [|j r] eqn:Ej; [congruence|]. rewrite <- Ej in *.
  eexists. split; [reflexivity|].
  unfold pie_sectors, charts_of. cbn [pie_data pie_cells].
  assert (Hnd : NoDup (map color (statusData (metrics_of mode (jobs w))))).
  { unfold metrics_of. cbn [statusData]. rewrite map_map. cbn [color].
    destruct mode; cbn;
      repeat (constructor; [cbn; intuition discriminate|]); constructor. }
  rewrite (sectors_coloured_iff_prefix _ Hnd).
  unfold metrics_of, statuses_with_jobs. cbn [statusData].
  rewrite filter_map_comm. cbn [value].
  rewrite length_map, firstn_map.
  split.
  - intros H. eapply map_injective; [|exact H].
    intros a b E. apply status_name_inj. congruence.
  - intros H. rewrite H at 1. reflexivity.
Qed.

End ChartsShow.

Lemma Dashboard_bars_total_witness :
  let w := mkWorld Examples.funnel [] in
  forallb (well_dated (env := RefEnv.utc)) (jobs w) = true
  /\ jobs w <> []
  /\ exists c,
    fst (Dashboard_render (env := RefEnv.utc) light false None w)
    = Ok (ViewCharts c)
    /\ sum_Applications (bars c) = count_dated (jobs w)
    /\ sum_Applications (bars c) <= card_total c.
Proof.
  intros w. split; [reflexivity|]. split; [discriminate|].
  apply (Dashboard_bars_total (env := RefEnv.utc) light w);
    [reflexivity | discriminate].
Defined.

Lemma Dashboard_legend_witness :
  let w := mkWorld Examples.funnel [] in
  forallb (well_dated (env := RefEnv.utc)) (jobs w) = true
  /\ jobs w <> []
  /\ (Z.of_nat (List.length (jobs w)) < 2 ^ 32)%Z
  /\ exists c,
    fst (Dashboard_render (env := RefEnv.utc) light false None w)
    = Ok (ViewCharts c)
    /\ legend_total c = footer_total c
    /\ map legend_value (legend_rows c)
       = map (fun st => count_status st (jobs w)) STATUS_ORDER
    /\ forall row, In row (legend_rows c) ->
         exists n : nat,
           n <= 1000
           /\ legend_percent row
              = (JS.nat_to_string (n / 10) ++ "."
                 ++ JS.nat_to_string (n mod 10))%string
           /\ (2000 * Z.of_nat (legend_value row) - Z.of_nat (footer_total c)
               <= 2 * Z.of_nat (footer_total c) * Z.of_nat n
               <= 2000 * Z.of_nat (legend_value row)
                  + Z.of_nat (footer_total c))%Z.
Proof.
  intros w. split; [reflexivity|]. split; [discriminate|].
  split; [reflexivity|].
  apply (Dashboard_legend (env := RefEnv.utc) light w);
    [reflexivity | discriminate | reflexivity].
Defined.

Lemma Dashboard_pie_colours_witness :
  let w := mkWorld Examples.funnel [] in
  forallb (well_dated (env := RefEnv.utc)) (jobs w) = true
  /\ jobs w <> []
  /\ exists c,
    fst (Dashboard_render (env := RefEnv.utc) light false None w)
    = Ok (ViewCharts c)
    /\ (Forall (fun sector => snd sector = color (fst sector)) (pie_sectors c)
        <-> statuses_with_jobs (jobs w)
            = firstn (List.length (statuses_with_jobs (jobs w))) STATUS_ORDER).
Proof.
  intros w. split; [reflexivity|]. split; [discriminate|].
  apply (Dashboard_pie_colours (env := RefEnv.utc) light w);
    [reflexivity | discriminate].
Defined.

(** With interviews only, the one sector of the pie is drawn in the colour
    of the Applied status, while the legend shows Interview in its own. *)
Example interviews_only_sector :
  exists c,
    fst (Dashboard_render (env := RefEnv.utc) light false None
           (mkWorld MoreExamples.interviews_only []))
    = Ok (ViewCharts c)
    /\ map (fun sector => (name (fst sector), snd sector)) (pie_sectors c)
       = [("Interview", "#4e73df")]
    /\ getStatusColor "Applied" light = "#4e73df"
    /\ getStatusColor "Interview" light = "#f6c23e".
Proof. eexists. split; [vm_compute; reflexivity|]. repeat split. Qed.

(* ================================================================== *)
(** * How the metrics compose                                          *)
(* ================================================================== *)

Lemma find_value_metrics {env : DateEnv} mode js st :
  find_value (statusData (match js with
                          | [] => empty_metrics
                          | _ => metrics_of mode js
                          end)) (status_name st)
  = count_status st js.
Proof.
  destruct js as [|j r]; [reflexivity|]. destruct st; reflexivity.
Qed.

Lemma find_monthly (o : JS.Obj nat) k :
  find (fun e => String.eqb (MonthlyData.name e) k)
       (map (fun e => MonthlyData.make (fst e) (snd e)) o)
  = option_map (fun v => MonthlyData.make k v) (JS.get o k).
Proof.
  induction o as [|[k' v] r IH]; simpl; [reflexivity|].
  destruct (String.eqb_spec k' k); [subst; reflexivity | exact IH].
Qed.

Lemma monthly_count_tally ks k :
  monthly_count (map (fun e => MonthlyData.make (fst e) (snd e))
                     (tally ks [])) k
  = count_occ string_dec ks k.
Proof.
  unfold monthly_count. rewrite find_monthly, ObjFacts.get_tally_nil.
  destruct (count_occ string_dec ks k); reflexivity.
Qed.

Lemma months_app {env : DateEnv} js1 js2 :
  months (js1 ++ js2) = months js1 ++ months js2.
Proof.
  induction js1 as [|j r IH]; simpl; [reflexivity|].
  destruct (month_of j); simpl; now rewrite IH.
Qed.

Lemma count_status_app st js1 js2 :
  count_status st (js1 ++ js2) = count_status st js1 + count_status st js2.
Proof. unfold count_status. now rewrite map_app, count_occ_app. Qed.

Section MetricsCompose.
Context {env : DateEnv}.

(** X6. The counts are additive: on the concatenation of two job lists
    the total, the count of every status and the count of every month are
    the sums of those of the two lists (an empty list counting 0
    everywhere). *)
Theorem aggregate_counts_additive (mode : PaletteMode) (js1 js2 : list Job) :
  forallb well_dated js1 = true ->
  forallb well_dated js2 = true ->
  exists m1 m2 m,
    fst (aggregate mode js1) = Ok m1
    /\ fst (aggregate mode js2) = Ok m2
    /\ fst (aggregate mode (js1 ++ js2)) = Ok m
    /\ totalJobs m = totalJobs m1 + totalJobs m2
    /\ (forall st,
           find_value (statusData m) (status_name st)
           = find_value (statusData m1) (status_name st)
             + find_value (statusData m2) (status_name st))
    /\ (forall k,
           monthly_count (monthlyData m) k
           = monthly_count (monthlyData m1) k
             + monthly_count (monthlyData m2) k).
Proof.
  intros H1 H2.
  assert (H12 : forallb well_dated (js1 ++ js2) = true).
  { rewrite forallb_app, H1, H2. reflexivity. }
  rewrite (aggregate_total mode js1 H1), (aggregate_total mode js2 H2),
          (aggregate_total mode (js1 ++ js2) H12).
  do 3 eexists. repeat (split; [reflexivity|]).
  split; [|split].
  - destruct js1, js2; cbn; rewrite ?app_nil_r, ?length_app; cbn; lia.
  - intros st. rewrite !find_value_metrics. apply count_status_app.
  - intros k. rewrite !monthlyData_total, !monthly_count_tally.
    rewrite months_app. apply count_occ_app.
Qed.

(** X7. The theme only colours the result: in light and in dark mode the
    callback returns the same statuses with the same counts, the same
    monthly entries, the same total, counts and rates. *)
Theorem aggregate_theme_independent (js : list Job) :
  forallb well_dated js = true ->
  exists ml md,
    fst (aggregate light js) = Ok ml
    /\ fst (aggregate dark js) = Ok md
    /\ map name (statusData ml) = map name (statusData md)
    /\ map value (statusData ml) = map value (statusData md)
    /\ monthlyData ml = monthlyData md
    /\ totalJobs ml = totalJobs md
    /\ successRate ml = successRate md
    /\ applicationToInterviewRate ml = applicationToInterviewRate md
    /\ interviewToOfferRate ml = interviewToOfferRate md
    /\ offerToAcceptanceRate ml = offerToAcceptanceRate md
    /\ (js <> [] ->
        Forall2 (fun l d => color l <> color d) (statusData ml) (statusData md)).
Proof.
  intros Hd.
  rewrite (aggregate_total light js Hd), (aggregate_total dark js Hd).
  do 2 eexists. repeat (split; [reflexivity|]).
  destruct js as [|j r].
  - repeat split. congruence.
  - repeat split. intros _. unfold metrics_of. cbn [statusData map STATUS_ORDER].
    repeat (constructor; [cbn; discriminate|]). constructor.
Qed.

End MetricsCompose.

(** X8. A percentage that is a whole number is shown exactly: when the
    denominator divides 100 times the numerator, the rate is the quotient;
    in particular it is 100 when the two counts are equal. *)
Theorem rate_exact (num den : nat) :
  (Z.of_nat num < 2 ^ 32)%Z -> 0 < den ->
  ((100 * Z.of_nat num) mod Z.of_nat den = 0)%Z ->
  rate num den = (100 * Z.of_nat num / Z.of_nat den)%Z
  /\ (num = den -> rate num den = 100%Z).
Proof.
  intros Hn Hd Hmod.
  destruct (NumberFacts.rate_nearest num den Hn Hd) as [L U].
  assert (Hdz : (0 < Z.of_nat den)%Z) by lia.
  pose proof (Z.div_mod (100 * Z.of_nat num) (Z.of_nat den) ltac:(lia)) as E.
  rewrite Hmod, Z.add_0_r in E.
  set (k := (100 * Z.of_nat num / Z.of_nat den)%Z) in *.
  assert (Hr : rate num den = k) by nia.
  split; [exact Hr|].
  intros ->. rewrite Hr. unfold k.
  rewrite Z.div_mul by lia. reflexivity.
Qed.

Lemma aggregate_counts_additive_witness :
  forallb (well_dated (env := RefEnv.utc)) Examples.funnel = true
  /\ forallb (well_dated (env := RefEnv.utc)) Examples.single = true
  /\ exists m1 m2 m,
    fst (aggregate (env := RefEnv.utc) light Examples.funnel) = Ok m1
    /\ fst (aggregate (env := RefEnv.utc) light Examples.single) = Ok m2
    /\ fst (aggregate (env := RefEnv.utc) light
              (Examples.funnel ++ Examples.single)) = Ok m
    /\ totalJobs m = totalJobs m1 + totalJobs m2
    /\ (forall st,
           find_value (statusData m) (status_name st)
           = find_value (statusData m1) (status_name st)
             + find_value (statusData m2) (status_name st))
    /\ (forall k,
           monthly_count (monthlyData m) k
           = monthly_count (monthlyData m1) k
             + monthly_count (monthlyData m2) k).
Proof.
  split; [reflexivity|]. split; [reflexivity|].
  apply (aggregate_counts_additive (env := RefEnv.utc) light
           Examples.funnel Examples.single); reflexivity.
Defined.

Lemma aggregate_theme_independent_witness :
  forallb (well_dated (env := RefEnv.utc)) Examples.funnel = true
  /\ exists ml md,
    fst (aggregate (env := RefEnv.utc) light Examples.funnel) = Ok ml
    /\ fst (aggregate (env := RefEnv.utc) dark Examples.funnel) = Ok md
    /\ map name (statusData ml) = map name (statusData md)
    /\ map value (statusData ml) = map value (statusData md)
    /\ monthlyData ml = monthlyData md
    /\ totalJobs ml = totalJobs md
    /\ successRate ml = successRate md
    /\ applicationToInterviewRate ml = applicationToInterviewRate md
    /\ interviewToOfferRate ml = interviewToOfferRate md
    /\ offerToAcceptanceRate ml = offerToAcceptanceRate md
    /\ (Examples.funnel <> [] ->
        Forall2 (fun l d => color l <> color d) (statusData ml) (statusData md)).
Proof.
  split; [reflexivity|].
  apply (aggregate_theme_independent (env := RefEnv.utc) Examples.funnel).
  reflexivity.
Defined.

Lemma rate_exact_witness :
  (Z.of_nat 1 < 2 ^ 32)%Z /\ 0 < 4
  /\ ((100 * Z.of_nat 1) mod Z.of_nat 4 = 0)%Z
  /\ rate 1 4 = (100 * Z.of_nat 1 / Z.of_nat 4)%Z
  /\ (1 = 4 -> rate 1 4 = 100%Z).
Proof.
  split; [reflexivity|]. split; [lia|]. split; [reflexivity|].
  apply (rate_exact 1 4); [reflexivity | lia | reflexivity].
Defined.

(* ================================================================== *)
(** * The creation dialog: validation, payload, reset                  *)
(* ================================================================== *)

Module TrimFacts.

Lemma append_assoc (a b c : string) :
  ((a ++ b) ++ c)%string = (a ++ b ++ c)%string.
Proof. induction a as [|x a IH]; simpl; [reflexivity | now rewrite IH]. Qed.

Lemma append_nil_r (a : string) : (a ++ EmptyString)%string = a.
Proof. induction a as [|x a IH]; simpl; [reflexivity | now rewrite IH]. Qed.

Lemma length_append (a b : string) :
  String.length (a ++ b) = String.length a + String.length b.
Proof. induction a as [|x a IH]; simpl; [reflexivity | now rewrite IH]. Qed.

Lemma strip_prefix_spec w : forall s r,
  JS.strip_prefix w s = Some r <-> s = (w ++ r)%string.
Proof.
  induction w as [|a w IH]; intros s r; simpl.
  - split; [intros [= ->] | intros ->]; reflexivity.
  - destruct s as [|b s]; [split; discriminate|].
    destruct (Ascii.eqb_spec a b) as [->|N].
    + rewrite IH. split; [intros -> | intros [= ->]]; reflexivity.
    + split; [discriminate | intros [= E _]; congruence].
Qed.

Lemma skip_any_Some ws : forall s r,
  JS.skip_any ws s = Some r -> exists w, In w ws /\ s = (w ++ r)%string.
Proof.
  induction ws as [|w ws IH]; intros s r; simpl; [discriminate|].
  destruct (JS.strip_prefix w s) as [s'|] eqn:E.
  - intros [= ->]. apply strip_prefix_spec in E. eauto.
  - intros H. destruct (IH _ _ H) as (w' & Hw & Hs). eauto.
Qed.

Lemma skip_any_None ws : forall s,
  JS.skip_any ws s = None ->
  forall w r, In w ws -> s <> (w ++ r)%string.
Proof.
  induction ws as [|w ws IH]; intros s H w' r; simpl; [contradiction|].
  simpl in H. destruct (JS.strip_prefix w s) as [s'|] eqn:E; [discriminate|].
  intros [<-|Hw] Hs.
  - apply strip_prefix_spec in Hs. congruence.
  - exact (IH s H w' r Hw Hs).
Qed.

(** The table of the model holds the encodings of the white space of
    ECMAScript, and nothing else. *)
Lemma white_space_table w : white w <-> In w JS.white_space.
Proof.
  assert (H1 : forallb (fun x => existsb (String.eqb x) JS.white_space)
                 (map utf8 (WhiteSpace ++ LineTerminator)) = true)
    by (vm_compute; reflexivity).
  assert (H2 : forallb (fun x => existsb (String.eqb x)
                                   (map utf8 (WhiteSpace ++ LineTerminator)))
                 JS.white_space = true)
    by (vm_compute; reflexivity).
  rewrite forallb_forall in H1, H2. unfold white. split; intros H.
  - apply H1 in H. apply existsb_exists in H. destruct H as (y & Hy & E).
    apply String.eqb_eq in E. now subst.
  - apply H2 in H. apply existsb_exists in H. destruct H as (y & Hy & E).
    apply String.eqb_eq in E. now subst.
Qed.

Lemma white_not_empty w : white w -> w <> EmptyString.
Proof.
  intros H. apply white_space_table in H.
  assert (A : forallb JS.truthy JS.white_space = true)
    by (vm_compute; reflexivity).
  rewrite forallb_forall in A. specialize (A w H).
  intros ->. discriminate.
Qed.

Lemma skip_white_Some s r :
  JS.skip_white s = Some r -> exists w, white w /\ s = (w ++ r)%string.
Proof.
  intros H. apply skip_any_Some in H. destruct H as (w & Hw & Hs).
  exists w. split; [now apply white_space_table | exact Hs].
Qed.

Lemma skip_white_None s : JS.skip_white s = None -> no_white_start s.
Proof.
  intros H w r Hw. apply (skip_any_None _ _ H).
  now apply white_space_table.
Qed.

(** No encoding of the table begins another one, so that the first
    character is skipped whichever entry is tried first. *)
Lemma skip_white_app w r : white w -> JS.skip_white (w ++ r) = Some r.
Proof.
  intros H. apply white_space_table in H.
  unfold JS.white_space in H. cbv zeta in H.
  repeat (destruct H as [<-|H]; [reflexivity|]). contradiction.
Qed.

Lemma skip_white_shorter s r :
  JS.skip_white s = Some r -> String.length r < String.length s.
Proof.
  intros H. apply skip_white_Some in H. destruct H as (w & Hw & ->).
  apply white_not_empty in Hw. rewrite length_append.
  destruct w; [congruence | simpl; lia].
Qed.

Lemma skip_white_empty : JS.skip_white EmptyString = None.
Proof. reflexivity. Qed.

Lemma trim_start_fuel_enough : forall f1 f2 s,
  String.length s <= f1 -> String.length s <= f2 ->
  JS.trim_start_fuel f1 s = JS.trim_start_fuel f2 s.
Proof.
  induction f1 as [|f1 IH]; intros f2 s H1 H2.
  - destruct s; [|simpl in H1; lia]. destruct f2; reflexivity.
  - destruct f2 as [|f2].
    + destruct s; [|simpl in H2; lia]. reflexivity.
    + simpl. destruct (JS.skip_white s) as [r|] eqn:E; [|reflexivity].
      apply skip_white_shorter in E. apply IH; lia.
Qed.

Lemma trim_start_eq s :
  JS.trim_start s
  = match JS.skip_white s with
    | Some r => JS.trim_start r
    | None => s
    end.
Proof.
  unfold JS.trim_start. destruct s as [|c s]; [reflexivity|].
  cbn [String.length JS.trim_start_fuel].
  destruct (JS.skip_white (String c s)) as [r|] eqn:E; [|reflexivity].
  apply skip_white_shorter in E. simpl in E.
  apply trim_start_fuel_enough; lia.
Qed.

Lemma blank_app a b : blank a -> blank b -> blank (a ++ b).
Proof.
  induction 1 as [|w r Hw Hr IH]; intros Hb; [exact Hb|].
  rewrite append_assoc. constructor; auto.
Qed.

(** [trim_start] removes white space, and stops before a character that
    is not white space. *)
Lemma trim_start_split s :
  exists pre, s = (pre ++ JS.trim_start s)%string /\ blank pre
              /\ JS.skip_white (JS.trim_start s) = None.
Proof.
  remember (String.length s) as n eqn:En. revert s En.
  induction n as [n IH] using lt_wf_ind. intros s ->.
  rewrite trim_start_eq. destruct (JS.skip_white s) as [r|] eqn:E.
  - pose proof (skip_white_shorter _ _ E) as Hl.
    destruct (IH _ Hl r eq_refl) as (pre & Hr & Hb & Hn).
    apply skip_white_Some in E. destruct E as (w & Hw & ->).
    exists (w ++ pre)%string. split; [|split].
    + rewrite append_assoc. now rewrite <- Hr.
    + now constructor.
    + exact Hn.
  - exists EmptyString. split; [reflexivity|]. split; [constructor | exact E].
Qed.

Lemma trim_start_blank s : JS.trim_start s = EmptyString <-> blank s.
Proof.
  split.
  - intros E. destruct (trim_start_split s) as (pre & Hs & Hb & _).
    rewrite E, append_nil_r in Hs. now subst.
  - induction 1 as [|w r Hw Hr IH]; [reflexivity|].
    rewrite trim_start_eq, (skip_white_app w r Hw). exact IH.
Qed.

Lemma truthy_false s : JS.truthy s = false <-> s = EmptyString.
Proof.
  unfold JS.truthy. destruct (String.eqb_spec s EmptyString); simpl;
    split; congruence.
Qed.

Lemma trim_end_split t :
  exists post, t = (JS.trim_end t ++ post)%string /\ blank post.
Proof.
  induction t as [|c r IH]; [exists EmptyString; split; [reflexivity|constructor]|].
  cbn [JS.trim_end].
  destruct (JS.truthy (JS.trim_start (String c r))) eqn:E.
  - destruct IH as (post & Hr & Hb). exists post. split; [|exact Hb].
    simpl. now rewrite <- Hr.
  - exists (String c r). split; [reflexivity|].
    apply trim_start_blank. now apply truthy_false.
Qed.

Lemma trim_end_empty t : JS.trim_end t = EmptyString <-> blank t.
Proof.
  destruct t as [|c r]; [split; [constructor | reflexivity]|].
  cbn [JS.trim_end].
  destruct (JS.truthy (JS.trim_start (String c r))) eqn:E.
  - split; [discriminate|]. intros H. apply trim_start_blank in H.
    rewrite H in E. discriminate.
  - split; [|reflexivity]. intros _.
    apply trim_start_blank. now apply truthy_false.
Qed.

Lemma trim_end_no_white_end t : no_white_end (JS.trim_end t).
Proof.
  induction t as [|c r IH]; intros w p Hw.
  - simpl. pose proof (white_not_empty w Hw).
    destruct p; destruct w; simpl; congruence.
  - cbn [JS.trim_end].
    destruct (JS.truthy (JS.trim_start (String c r))) eqn:E.
    + destruct p as [|c' p]; simpl.
      * intros Hs.
        destruct (trim_end_split r) as (post & Hr & Hb).
        assert (B : blank (String c r)).
        { rewrite Hr.
          change (String c (JS.trim_end r ++ post))
            with ((String c (JS.trim_end r)) ++ post)%string.
          rewrite Hs. now constructor. }
        apply trim_start_blank in B. rewrite B in E. discriminate.
      * intros [= _ Hs]. exact (IH w p Hw Hs).
    + pose proof (white_not_empty w Hw).
      destruct p; destruct w; simpl; congruence.
Qed.

Lemma trim_end_no_white_start t :
  no_white_start t -> no_white_start (JS.trim_end t).
Proof.
  intros H w q Hw E. destruct (trim_end_split t) as (post & Ht & _).
  apply (H w (q ++ post)%string Hw).
  rewrite Ht at 1. rewrite E. apply append_assoc.
Qed.

(** [trim] removes the white space at the two ends and nothing else. *)
Lemma trim_trimmed s : trimmed_of s (JS.trim s).
Proof.
  unfold JS.trim.
  destruct (trim_start_split s) as (pre & Hs & Hpre & Hn).
  destruct (trim_end_split (JS.trim_start s)) as (post & Ht & Hpost).
  split; [|split].
  - exists pre, post. split; [|auto]. rewrite <- Ht. exact Hs.
  - apply trim_end_no_white_start. now apply skip_white_None.
  - apply trim_end_no_white_end.
Qed.

Lemma trim_empty s : JS.trim s = EmptyString <-> blank s.
Proof.
  unfold JS.trim. rewrite trim_end_empty. split.
  - intros H. destruct (trim_start_split s) as (pre & Hs & Hpre & _).
    rewrite Hs. now apply blank_app.
  - intros H. apply trim_start_blank in H. rewrite H. constructor.
Qed.

Lemma truthy_trim s : JS.truthy (JS.trim s) = false <-> blank s.
Proof. now rewrite truthy_false, trim_empty. Qed.

End TrimFacts.

(** What [handleSubmit] does, by whether it finds a required field
    missing. *)
Lemma handleSubmit_cases (s : JobForm.State) :
  (JobForm_refuses s = true ->
   JobForm.handleSubmit s
   = (JobForm.setError "Company and role are required" s, None))
  /\ (JobForm_refuses s = false ->
      JobForm.handleSubmit s
      = (JobForm.setLoading true (JobForm.setError EmptyString s),
         Some (NewJob.make (JS.trim (JobForm.company s))
                           (JS.trim (JobForm.role s))
                           (JobForm.dateApplied s) (JobForm.status s)))).
Proof.
  unfold JobForm.handleSubmit, JobForm_refuses.
  cbn [JobForm.company JobForm.role JobForm.setError JobForm.dateApplied
       JobForm.status].
  split; intros ->; reflexivity.
Qed.

Lemma JobForm_refuses_blank (s : JobForm.State) :
  JobForm_refuses s = true
  <-> blank (JobForm.company s) \/ blank (JobForm.role s).
Proof.
  unfold JobForm_refuses.
  rewrite orb_true_iff, !negb_true_iff, !TrimFacts.truthy_trim. tauto.
Qed.

(** X9. Submitting calls [addJob] not at all exactly when the company or
    the role is empty or white space only, and then only sets the error
    text; any other submission makes one call, with the company and the
    role without the white space at their two ends and with the date and
    status cells as they are, clears the error and raises the loading
    flag.  White space is that of ECMAScript: U+00A0, U+3000 and U+FEFF
    are part of it. *)
Theorem JobForm_handleSubmit_validation (s : JobForm.State) :
  (snd (JobForm.handleSubmit s) = None
   <-> blank (JobForm.company s) \/ blank (JobForm.role s))
  /\ (snd (JobForm.handleSubmit s) = None ->
      fst (JobForm.handleSubmit s)
      = JobForm.setError "Company and role are required" s)
  /\ (forall c, snd (JobForm.handleSubmit s) = Some c ->
        trimmed_of (JobForm.company s) (NewJob.company c)
        /\ trimmed_of (JobForm.role s) (NewJob.role c)
        /\ NewJob.dateApplied c = JobForm.dateApplied s
        /\ NewJob.status c = JobForm.status s
        /\ fst (JobForm.handleSubmit s)
           = JobForm.setLoading true (JobForm.setError EmptyString s)).
Proof.
  destruct (handleSubmit_cases s) as [H1 H2].
  pose proof (JobForm_refuses_blank s) as B.
  destruct (JobForm_refuses s).
  - rewrite (H1 eq_refl). cbn [fst snd].
    split; [tauto|]. split; [reflexivity | discriminate].
  - rewrite (H2 eq_refl). cbn [fst snd].
    split; [split; [discriminate|]|].
    { intros H. apply B in H. discriminate. }
    split; [discriminate|].
    intros c [= <-]. cbn [NewJob.company NewJob.role NewJob.dateApplied
                          NewJob.status].
    split; [apply TrimFacts.trim_trimmed|].
    split; [apply TrimFacts.trim_trimmed|]. auto.
Qed.

Lemma JobForm_run_calls (P : NewJob.t -> Prop) :
  (forall s c, snd (JobForm.step s JobForm.Submit) = Some c -> P c) ->
  forall es s c, In c (snd (JobForm.run s es)) -> P c.
Proof.
  intros HP. induction es as [|e r IH]; intros s c Hc; [contradiction|].
  cbn [JobForm.run] in Hc.
  destruct (JobForm.step s e) as [s1 call] eqn:Es.
  destruct (JobForm.run s1 r) as [s2 calls] eqn:Er.
  cbn [snd] in Hc.
  assert (Hcalls : In c calls -> P c).
  { intros H. apply (IH s1). now rewrite Er. }
  destruct call as [c0|]; [|auto].
  destruct Hc as [<-|Hc]; [|auto].
  destruct e; cbn [JobForm.step] in Es; try (injection Es; discriminate).
  apply (HP s). cbn [JobForm.step]. now rewrite Es.
Qed.

(** X10. Whatever is typed into the dialog, every job handed to [addJob]
    has a company and a role that are not empty and neither begin nor end
    with a white space character of ECMAScript. *)
Theorem JobForm_payload_trimmed
        (s : JobForm.State) (es : list JobForm.Event) (c : NewJob.t) :
  In c (snd (JobForm.run s es)) ->
  let trimmed (t : string) :=
    t <> EmptyString /\ no_white_start t /\ no_white_end t in
  trimmed (NewJob.company c) /\ trimmed (NewJob.role c).
Proof.
  cbv zeta. revert es s c.
  apply JobForm_run_calls. intros s c.
  cbn [JobForm.step].
  destruct (handleSubmit_cases s) as [H1 H2].
  destruct (JobForm_refuses s) eqn:B.
  - rewrite (H1 eq_refl). discriminate.
  - rewrite (H2 eq_refl). cbn [snd]. intros [= <-].
    cbn [NewJob.company NewJob.role].
    unfold JobForm_refuses in B. apply orb_false_iff in B.
    destruct B as [Bc Br]. apply negb_false_iff in Bc, Br.
    destruct (TrimFacts.trim_trimmed (JobForm.company s)) as (_ & F1 & L1).
    destruct (TrimFacts.trim_trimmed (JobForm.role s)) as (_ & F2 & L2).
    repeat split; try assumption.
    + intros E. rewrite E in Bc. discriminate.
    + intros E. rewrite E in Br. discriminate.
Qed.

(** X11. When [addJob] succeeds the dialog is back in its initial state,
    so that submitting again without typing makes no second call; when it
    fails, the dialog keeps what was typed and only shows the error. *)
Theorem JobForm_settle (s : JobForm.State) (today : string) :
  JobForm.settle true today s = JobForm.initial today
  /\ snd (JobForm.handleSubmit (JobForm.settle true today s)) = None
  /\ JobForm.settle false today s
     = JobForm.mkState (JobForm.open s) (JobForm.company s) (JobForm.role s)
         (JobForm.dateApplied s) (JobForm.status s)
         "Failed to add job. Please try again." false.
Proof. repeat split. Qed.

Lemma JobForm_pending es : forall s,
  JobForm_admissible s es = true ->
  List.length (snd (JobForm.run s es)) + b2n (JobForm.loading s)
  = List.length (filter is_Settled es)
    + b2n (JobForm.loading (fst (JobForm.run s es))).
Proof.
  induction es as [|e r IH]; intros s Ha; [cbn; lia|].
  cbn [JobForm_admissible] in Ha. apply andb_true_iff in Ha.
  destruct Ha as [He Hr]. specialize (IH _ Hr).
  cbn [JobForm.run filter].
  destruct (JobForm.step s e) as [s1 call] eqn:Es.
  destruct (JobForm.run s1 r) as [s2 calls] eqn:Er.
  cbn [fst snd] in *. rewrite Er in IH. cbn [fst snd] in *.
  destruct e; cbn [JobForm.step JobForm_enabled is_Settled] in *;
    try (injection Es as <- <-; cbn in *; lia).
  - (* Submit *)
    apply andb_true_iff in He. destruct He as [_ Hl].
    apply negb_true_iff in Hl.
    destruct (handleSubmit_cases s) as [H1 H2].
    destruct (JobForm_refuses s).
    + rewrite (H1 eq_refl) in Es. injection Es as <- <-.
      cbn in *. rewrite Hl in *. cbn in *. lia.
    + rewrite (H2 eq_refl) in Es. injection Es as <- <-.
      cbn in *. rewrite Hl. cbn. lia.
  - (* Settled *)
    injection Es as <- <-. rewrite He. destruct ok; cbn in *; lia.
Qed.

(** X12. At most one call of [addJob] is pending: along any sequence of
    events the dialog lets through, the calls made so far are as many as
    the calls settled so far, plus one exactly while the loading flag is
    up. *)
Theorem JobForm_single_flight (today : string) (es : list JobForm.Event) :
  JobForm_admissible (JobForm.initial today) es = true ->
  List.length (snd (JobForm.run (JobForm.initial today) es))
  = List.length (filter is_Settled es)
    + (if JobForm.loading (fst (JobForm.run (JobForm.initial today) es))
       then 1 else 0).
Proof.
  intros Ha. pose proof (JobForm_pending es _ Ha) as H.
  cbn [JobForm.initial JobForm.loading b2n] in H. unfold b2n in H. lia.
Qed.



Lemma JobForm_payload_trimmed_witness :
  let c := NewJob.make "Acme" "Engineer" "2024-03-10" Offer in
  In c (snd (JobForm.run (JobForm.initial "2024-03-10") Examples.session))
  /\ let trimmed (t : string) :=
       t <> EmptyString /\ no_white_start t /\ no_white_end t in
     trimmed (NewJob.company c) /\ trimmed (NewJob.role c).
Proof.
  intros c. split; [vm_compute; left; reflexivity|].
  apply (JobForm_payload_trimmed (JobForm.initial "2024-03-10")
           Examples.session c).
  vm_compute. left. reflexivity.
Defined.

(** A company of U+00A0, U+3000 and U+FEFF only is refused, and these
    characters are removed around a name. *)
Example no_break_space_is_white_space :
  let spaces := (utf8 0xA0%N ++ utf8 0x3000%N ++ utf8 0xFEFF%N)%string in
  let typed (company : string) :=
    JobForm.mkState true company "Engineer" "2024-03-10" Applied EmptyString
                    false in
  snd (JobForm.handleSubmit (typed spaces)) = None
  /\ snd (JobForm.handleSubmit (typed (spaces ++ "Acme" ++ spaces)%string))
     = Some (NewJob.make "Acme" "Engineer" "2024-03-10" Applied).
Proof. split; reflexivity. Qed.

Lemma JobForm_single_flight_witness :
  let today := "2024-03-10" in
  let es := MoreExamples.long_session in
  JobForm_admissible (JobForm.initial today) es = true
  /\ List.length (snd (JobForm.run (JobForm.initial today) es))
     = List.length (filter is_Settled es)
       + (if JobForm.loading (fst (JobForm.run (JobForm.initial today) es))
          then 1 else 0).
Proof.
  intros today es. split; [reflexivity|].
  apply (JobForm_single_flight today es). reflexivity.
Defined.


(* ================================================================== *)
(** * The job context over the collection                              *)
(* ================================================================== *)

Module StoreFacts.

Lemma snapshot_ids c : map id (JobContext.onSnapshot c) = Firestore.doc_ids c.
Proof.
  unfold JobContext.onSnapshot, Firestore.doc_ids. rewrite map_map.
  reflexivity.
Qed.

Lemma exists_doc_In docId c :
  Firestore.exists_doc docId c = true <-> In docId (Firestore.doc_ids c).
Proof.
  unfold Firestore.exists_doc, Firestore.doc_ids.
  rewrite existsb_exists, in_map_iff. split.
  - intros (d & Hd & E). apply String.eqb_eq in E. eauto.
  - intros (d & E & Hd). exists d. split; [assumption|].
    now apply String.eqb_eq.
Qed.

Lemma snapshot_update now jobId st c :
  JobContext.onSnapshot
    (map (fun d => if String.eqb (fst d) jobId
                   then (fst d,
                         Firestore.mkData (Firestore.id (snd d))
                           (Firestore.company (snd d)) (Firestore.role (snd d))
                           (Firestore.dateApplied (snd d)) st now
                           (Firestore.notes (snd d)))
                   else d) c)
  = map (fun j => if String.eqb (id j) jobId then with_status st now j else j)
        (JobContext.onSnapshot c).
Proof.
  unfold JobContext.onSnapshot. rewrite !map_map. apply map_ext.
  intros [i d]. cbn [fst snd id]. destruct (String.eqb i jobId); reflexivity.
Qed.

Lemma snapshot_delete jobId c :
  JobContext.onSnapshot
    (filter (fun d => negb (String.eqb (fst d) jobId)) c)
  = filter (fun j => negb (String.eqb (id j) jobId)) (JobContext.onSnapshot c).
Proof.
  unfold JobContext.onSnapshot. rewrite filter_map_comm. reflexivity.
Qed.

Lemma map_update_absent now jobId st js :
  ~ In jobId (map id js) ->
  map (fun j => if String.eqb (id j) jobId then with_status st now j else j) js
  = js.
Proof.
  induction js as [|j r IH]; simpl; intros H; [reflexivity|].
  destruct (String.eqb_spec (id j) jobId); [tauto|].
  f_equal. apply IH. tauto.
Qed.

Lemma filter_delete_absent jobId js :
  ~ In jobId (map id js) ->
  filter (fun j => negb (String.eqb (id j) jobId)) js = js.
Proof.
  induction js as [|j r IH]; simpl; intros H; [reflexivity|].
  destruct (String.eqb_spec (id j) jobId); [tauto|].
  simpl. f_equal. apply IH. tauto.
Qed.

Lemma count_status_cons st j js :
  count_status st (j :: js) = one_if (status j) st + count_status st js.
Proof.
  unfold count_status, one_if. simpl.
  destruct (JobStatus_eq_dec (status j) st); reflexivity.
Qed.

(** An update of one listed job moves one unit between two counts. *)
Lemma count_status_update now st b j js :
  NoDup (map id js) -> In j js ->
  count_status st
    (map (fun x => if String.eqb (id x) (id j) then with_status b now x else x)
         js)
  + one_if (status j) st
  = count_status st js + one_if b st.
Proof.
  induction js as [|x r IH]; intros Hnd Hin; [contradiction|].
  inversion Hnd as [|? ? Hnot Hnd']; subst.
  cbn [map]. destruct Hin as [->|Hin].
  - rewrite String.eqb_refl.
    rewrite (map_update_absent now (id j) b r Hnot).
    rewrite !count_status_cons. cbn [status with_status]. lia.
  - destruct (String.eqb_spec (id x) (id j)) as [E|E].
    + exfalso. apply Hnot. rewrite E. now apply in_map.
    + rewrite !count_status_cons. specialize (IH Hnd' Hin). lia.
Qed.

Lemma count_status_delete st j js :
  NoDup (map id js) -> In j js ->
  count_status st (filter (fun x => negb (String.eqb (id x) (id j))) js)
  + one_if (status j) st
  = count_status st js.
Proof.
  induction js as [|x r IH]; intros Hnd Hin; [contradiction|].
  inversion Hnd as [|? ? Hnot Hnd']; subst.
  cbn [filter]. destruct Hin as [->|Hin].
  - rewrite String.eqb_refl. cbn [negb].
    rewrite (filter_delete_absent (id j) r Hnot).
    rewrite count_status_cons. lia.
  - destruct (String.eqb_spec (id x) (id j)) as [E|E].
    + exfalso. apply Hnot. rewrite E. now apply in_map.
    + cbn [negb]. rewrite !count_status_cons. specialize (IH Hnd' Hin). lia.
Qed.

End StoreFacts.

Lemma insert_Permutation d c : Permutation (Firestore.insert d c) (d :: c).
Proof.
  induction c as [|x r IH]; simpl; [reflexivity|].
  destruct (String.ltb (fst d) (fst x)); [reflexivity|].
  rewrite IH. apply perm_swap.
Qed.

(** X14. [addJob] with a company, a role and a date is fulfilled and logs
    nothing; afterwards the snapshot lists the jobs it listed before and
    one more, with the fields of the form, the time stamp of the call and
    no notes; its [id] is the identifier the store gave the document: the
    uuid that [addJob] writes into the document is never read back.
    Identifiers stay distinct when the new one is.  With an empty company,
    role or date the store refuses the document: [addJob] logs one error,
    is rejected and leaves the collection as it was. *)
Theorem JobContext_addJob_snapshot
        (uuid now newId : string) (job : NewJob.t) (c : Firestore.Collection) :
  let d := JobContext.addJob uuid now newId job c in
  (NewJob.company job <> EmptyString /\ NewJob.role job <> EmptyString
   /\ NewJob.dateApplied job <> EmptyString ->
   JobContext.rejected d = false
   /\ JobContext.errors d = []
   /\ Permutation (JobContext.onSnapshot (JobContext.collection d))
                  (job_of_NewJob newId now job :: JobContext.onSnapshot c)
   /\ (forall uuid',
          JobContext.onSnapshot
            (JobContext.collection (JobContext.addJob uuid' now newId job c))
          = JobContext.onSnapshot (JobContext.collection d))
   /\ (NoDup (Firestore.doc_ids c) -> ~ In newId (Firestore.doc_ids c) ->
       NoDup (map id (JobContext.onSnapshot (JobContext.collection d)))))
  /\ (NewJob.company job = EmptyString \/ NewJob.role job = EmptyString
      \/ NewJob.dateApplied job = EmptyString ->
      JobContext.rejected d = true
      /\ JobContext.errors d = ["Error adding job:"]
      /\ JobContext.collection d = c).
Proof.
  cbv zeta. unfold JobContext.addJob, Firestore.addDoc, Firestore.required.
  cbn [Firestore.company Firestore.role Firestore.dateApplied].
  assert (T : forall v, JS.truthy v = true <-> v <> EmptyString).
  { intros v. unfold JS.truthy.
    destruct (String.eqb_spec v EmptyString); simpl; split; congruence. }
  split.
  - intros (Hc & Hr & Hd).
    rewrite (proj2 (T _) Hc), (proj2 (T _) Hr), (proj2 (T _) Hd).
    cbn [andb JobContext.settle_with JobContext.rejected JobContext.errors
         JobContext.collection].
    assert (P : forall u,
               Permutation
                 (JobContext.onSnapshot
                    (Firestore.insert
                       (newId,
                        Firestore.mkData u (NewJob.company job)
                          (NewJob.role job) (NewJob.dateApplied job)
                          (NewJob.status job) now None) c))
                 (job_of_NewJob newId now job :: JobContext.onSnapshot c)).
    { intros u. unfold JobContext.onSnapshot at 1.
      rewrite insert_Permutation. reflexivity. }
    split; [reflexivity|]. split; [reflexivity|]. split; [apply P|].
    split.
    + intros uuid'. clear. unfold JobContext.onSnapshot.
      induction c as [|x r IH]; [reflexivity|].
      cbn [Firestore.insert fst].
      destruct (String.ltb newId (fst x)); [reflexivity|].
      cbn [map]. now rewrite IH.
    + intros Hnd Hnew.
      apply (Permutation_NoDup
               (l := map id (job_of_NewJob newId now job
                             :: JobContext.onSnapshot c))).
      * apply Permutation_map. symmetry. apply P.
      * cbn [map id job_of_NewJob]. rewrite StoreFacts.snapshot_ids.
        now constructor.
  - intros H.
    assert (E : JS.truthy (NewJob.company job) && JS.truthy (NewJob.role job)
                && JS.truthy (NewJob.dateApplied job) = false).
    { destruct H as [-> | [-> | ->]]; cbn;
        rewrite ?andb_false_r; reflexivity. }
    rewrite E. repeat split.
Qed.

(** X15. [updateJobStatus] on the [id] of a listed job is fulfilled and
    changes the status and the time stamp of the jobs with that [id], and
    nothing else; on any other identifier it is rejected, logs one error
    and leaves the collection as it was. *)
Theorem JobContext_updateJobStatus_snapshot
        (now jobId : string) (st : JobStatus) (c : Firestore.Collection) :
  let d := JobContext.updateJobStatus now jobId st c in
  (In jobId (map id (JobContext.onSnapshot c)) ->
   JobContext.rejected d = false
   /\ JobContext.errors d = []
   /\ JobContext.onSnapshot (JobContext.collection d)
      = map (fun j => if String.eqb (id j) jobId
                      then with_status st now j else j)
            (JobContext.onSnapshot c))
  /\ (~ In jobId (map id (JobContext.onSnapshot c)) ->
      JobContext.rejected d = true
      /\ JobContext.errors d = ["Error updating job status:"]
      /\ JobContext.collection d = c).
Proof.
  cbv zeta. rewrite StoreFacts.snapshot_ids.
  unfold JobContext.updateJobStatus, Firestore.updateDoc.
  destruct (Firestore.exists_doc jobId c) eqn:E.
  - apply StoreFacts.exists_doc_In in E. split; [|tauto].
    intros _. cbn [JobContext.settle_with JobContext.rejected
                   JobContext.errors JobContext.collection].
    repeat split. apply StoreFacts.snapshot_update.
  - split.
    + intros H. apply StoreFacts.exists_doc_In in H. congruence.
    + intros _. repeat split.
Qed.

(** X16. [deleteJob] on the [id] of a listed job is fulfilled and logs
    nothing; afterwards the snapshot lists exactly the jobs with another
    [id], in the same order.  On any other identifier it is rejected, logs
    one error and leaves the collection as it was. *)
Theorem JobContext_deleteJob_snapshot
        (jobId : string) (c : Firestore.Collection) :
  let d := JobContext.deleteJob jobId c in
  (In jobId (map id (JobContext.onSnapshot c)) ->
   JobContext.rejected d = false
   /\ JobContext.errors d = []
   /\ JobContext.onSnapshot (JobContext.collection d)
      = filter (fun j => negb (String.eqb (id j) jobId))
               (JobContext.onSnapshot c)
   /\ ~ In jobId (map id (JobContext.onSnapshot (JobContext.collection d))))
  /\ (~ In jobId (map id (JobContext.onSnapshot c)) ->
      JobContext.rejected d = true
      /\ JobContext.errors d = ["Error deleting job:"]
      /\ JobContext.collection d = c).
Proof.
  cbv zeta. rewrite StoreFacts.snapshot_ids.
  unfold JobContext.deleteJob, Firestore.deleteDoc.
  destruct (Firestore.exists_doc jobId c) eqn:E.
  - apply StoreFacts.exists_doc_In in E. split; [|tauto].
    intros _. cbn [JobContext.settle_with JobContext.rejected
                   JobContext.errors JobContext.collection].
    rewrite StoreFacts.snapshot_delete.
    repeat split.
    rewrite in_map_iff. intros (j & Ej & Hj). apply filter_In in Hj.
    destruct Hj as [_ Hj]. rewrite <- Ej, String.eqb_refl in Hj. discriminate.
  - split.
    + intros H. apply StoreFacts.exists_doc_In in H. congruence.
    + intros _. repeat split.
Qed.

(** X17. The handlers of the table never pass an error on to the caller:
    a rejected update is logged twice and changes nothing; a deletion
    that the user does not confirm leaves the collection untouched and
    logs nothing. *)
Theorem JobList_handlers_contain_errors
        (now jobId : string) (st : JobStatus) (confirmed : bool)
        (c : Firestore.Collection) :
  JobContext.rejected (JobListHandlers.handleStatusChange now jobId st c)
  = false
  /\ JobContext.rejected (JobListHandlers.handleDelete confirmed jobId c)
     = false
  /\ (~ In jobId (Firestore.doc_ids c) ->
      JobListHandlers.handleStatusChange now jobId st c
      = JobContext.mkDone c ["Error updating job status:";
                             "Error updating job status:"] false)
  /\ JobListHandlers.handleDelete false jobId c = JobContext.mkDone c [] false.
Proof.
  unfold JobListHandlers.handleStatusChange, JobListHandlers.handleDelete,
    JobListHandlers.caught, JobContext.updateJobStatus, JobContext.deleteJob,
    Firestore.updateDoc, Firestore.deleteDoc.
  split; [|split; [|split]].
  - destruct (Firestore.exists_doc jobId c); reflexivity.
  - destruct confirmed; [|reflexivity].
    destruct (Firestore.exists_doc jobId c); reflexivity.
  - intros H.
    destruct (Firestore.exists_doc jobId c) eqn:E; [|reflexivity].
    apply StoreFacts.exists_doc_In in E. contradiction.
  - reflexivity.
Qed.

Section StoreAndDashboard.
Context {env : DateEnv}.

(** X18. What the dashboard shows after the table changed the status of a
    listed job, identifiers being distinct: the total is the same, the
    count of the old status is one less and the count of the new status
    one more (nothing changes when they are the same status). *)
Theorem status_change_moves_one_count
        (mode : PaletteMode) (now : string) (j : Job) (b : JobStatus)
        (c : Firestore.Collection) :
  NoDup (Firestore.doc_ids c) ->
  In j (JobContext.onSnapshot c) ->
  forallb well_dated (JobContext.onSnapshot c) = true ->
  let c' := JobContext.collection
              (JobListHandlers.handleStatusChange now (id j) b c) in
  exists m m',
    fst (aggregate mode (JobContext.onSnapshot c)) = Ok m
    /\ fst (aggregate mode (JobContext.onSnapshot c')) = Ok m'
    /\ totalJobs m' = totalJobs m
    /\ forall st,
         find_value (statusData m') (status_name st) + one_if (status j) st
         = find_value (statusData m) (status_name st) + one_if b st.
Proof.
  intros Hnd Hin Hd c'.
  assert (Hid : In (id j) (Firestore.doc_ids c)).
  { rewrite <- StoreFacts.snapshot_ids. now apply in_map. }
  assert (Hsnap : JobContext.onSnapshot c'
                  = map (fun x => if String.eqb (id x) (id j)
                                  then with_status b now x else x)
                        (JobContext.onSnapshot c)).
  { unfold c', JobListHandlers.handleStatusChange, JobListHandlers.caught,
      JobContext.updateJobStatus, Firestore.updateDoc.
    rewrite (proj2 (StoreFacts.exists_doc_In (id j) c) Hid).
    cbn [JobContext.settle_with JobContext.rejected JobContext.collection].
    apply StoreFacts.snapshot_update. }
  assert (Hd' : forallb well_dated (JobContext.onSnapshot c') = true).
  { rewrite Hsnap. rewrite forallb_forall in *. intros x Hx.
    apply in_map_iff in Hx. destruct Hx as (y & <- & Hy).
    specialize (Hd y Hy). destruct (String.eqb (id y) (id j)); exact Hd. }
  rewrite (aggregate_total mode _ Hd), (aggregate_total mode _ Hd').
  do 2 eexists. split; [reflexivity|]. split; [reflexivity|].
  split.
  - rewrite Hsnap.
    destruct (JobContext.onSnapshot c) as [|x r]; [reflexivity|].
    cbn [map]. unfold metrics_of. cbn [totalJobs]. cbn [List.length].
    now rewrite length_map.
  - intros st. rewrite !find_value_metrics. rewrite Hsnap.
    apply StoreFacts.count_status_update; [|assumption].
    now rewrite StoreFacts.snapshot_ids.
Qed.

(** X19. What the dashboard shows after a confirmed deletion of a listed
    job, identifiers being distinct: one job less in total and one less
    in the status of the deleted job. *)
Theorem deletion_removes_one_count
        (mode : PaletteMode) (j : Job) (c : Firestore.Collection) :
  NoDup (Firestore.doc_ids c) ->
  In j (JobContext.onSnapshot c) ->
  forallb well_dated (JobContext.onSnapshot c) = true ->
  let c' := JobContext.collection
              (JobListHandlers.handleDelete true (id j) c) in
  exists m m',
    fst (aggregate mode (JobContext.onSnapshot c)) = Ok m
    /\ fst (aggregate mode (JobContext.onSnapshot c')) = Ok m'
    /\ totalJobs m' + 1 = totalJobs m
    /\ forall st,
         find_value (statusData m') (status_name st) + one_if (status j) st
         = find_value (statusData m) (status_name st).
Proof.
  intros Hnd Hin Hd c'.
  assert (Hsnap : JobContext.onSnapshot c'
                  = filter (fun x => negb (String.eqb (id x) (id j)))
                           (JobContext.onSnapshot c)).
  { assert (Hid : In (id j) (Firestore.doc_ids c)).
    { rewrite <- StoreFacts.snapshot_ids. now apply in_map. }
    unfold c', JobListHandlers.handleDelete, JobListHandlers.caught,
      JobContext.deleteJob, Firestore.deleteDoc.
    rewrite (proj2 (StoreFacts.exists_doc_In (id j) c) Hid).
    cbn [JobContext.settle_with JobContext.rejected JobContext.collection].
    apply StoreFacts.snapshot_delete. }
  assert (Hd' : forallb well_dated (JobContext.onSnapshot c') = true).
  { rewrite Hsnap. rewrite forallb_forall in *. intros x Hx.
    apply filter_In in Hx. now apply Hd. }
  assert (Hids : NoDup (map id (JobContext.onSnapshot c)))
    by now rewrite StoreFacts.snapshot_ids.
  assert (Hcount : forall st,
             count_status st (JobContext.onSnapshot c') + one_if (status j) st
             = count_status st (JobContext.onSnapshot c)).
  { intros st. rewrite Hsnap. now apply StoreFacts.count_status_delete. }
  rewrite (aggregate_total mode _ Hd), (aggregate_total mode _ Hd').
  do 2 eexists. split; [reflexivity|]. split; [reflexivity|].
  split.
  - pose proof (count_status_total (JobContext.onSnapshot c)) as T.
    pose proof (count_status_total (JobContext.onSnapshot c')) as T'.
    pose proof (Hcount Applied) as H1. pose proof (Hcount Interview) as H2.
    pose proof (Hcount Offer) as H3. pose proof (Hcount Accepted) as H4.
    pose proof (Hcount Rejected) as H5.
    assert (Hone : one_if (status j) Applied + one_if (status j) Interview
                   + one_if (status j) Offer + one_if (status j) Accepted
                   + one_if (status j) Rejected = 1)
      by (destruct (status j); reflexivity).
    assert (Hlen : List.length (JobContext.onSnapshot c') + 1
                   = List.length (JobContext.onSnapshot c)) by lia.
    destruct (JobContext.onSnapshot c) as [|x r];
      destruct (JobContext.onSnapshot c') as [|x' r'];
      cbn [totalJobs metrics_of empty_metrics] in *; cbn in Hlen |- *; lia.
  - intros st. rewrite !find_value_metrics. apply Hcount.
Qed.

End StoreAndDashboard.

Lemma status_change_moves_one_count_witness :
  let c := MoreExamples.collection in
  let j := mkJob "doc1" "Acme" "Engineer" "2024-02-20" Interview None
                 "2024-03-10T09:00:00.000Z" in
  NoDup (Firestore.doc_ids c)
  /\ In j (JobContext.onSnapshot c)
  /\ forallb (well_dated (env := RefEnv.utc)) (JobContext.onSnapshot c) = true
  /\ let c' := JobContext.collection
                 (JobListHandlers.handleStatusChange "2024-03-12T08:00:00.000Z"
                    (id j) Offer c) in
     exists m m',
       fst (aggregate (env := RefEnv.utc) light (JobContext.onSnapshot c)) = Ok m
       /\ fst (aggregate (env := RefEnv.utc) light (JobContext.onSnapshot c'))
          = Ok m'
       /\ totalJobs m' = totalJobs m
       /\ forall st,
            find_value (statusData m') (status_name st) + one_if (status j) st
            = find_value (statusData m) (status_name st) + one_if Offer st.
Proof.
  intros c j.
  assert (Hnd : NoDup (Firestore.doc_ids c)).
  { vm_compute. repeat (constructor; [cbn; intuition discriminate|]).
    constructor. }
  assert (Hin : In j (JobContext.onSnapshot c)).
  { vm_compute. right. left. reflexivity. }
  split; [exact Hnd|]. split; [exact Hin|]. split; [reflexivity|].
  apply (status_change_moves_one_count (env := RefEnv.utc) light
           "2024-03-12T08:00:00.000Z" j Offer c Hnd Hin).
  reflexivity.
Defined.

Lemma deletion_removes_one_count_witness :
  let c := MoreExamples.collection in
  let j := mkJob "doc1" "Acme" "Engineer" "2024-02-20" Interview None
                 "2024-03-10T09:00:00.000Z" in
  NoDup (Firestore.doc_ids c)
  /\ In j (JobContext.onSnapshot c)
  /\ forallb (well_dated (env := RefEnv.utc)) (JobContext.onSnapshot c) = true
  /\ let c' := JobContext.collection
                 (JobListHandlers.handleDelete true (id j) c) in
     exists m m',
       fst (aggregate (env := RefEnv.utc) light (JobContext.onSnapshot c)) = Ok m
       /\ fst (aggregate (env := RefEnv.utc) light (JobContext.onSnapshot c'))
          = Ok m'
       /\ totalJobs m' + 1 = totalJobs m
       /\ forall st,
            find_value (statusData m') (status_name st) + one_if (status j) st
            = find_value (statusData m) (status_name st).
Proof.
  intros c j.
  assert (Hnd : NoDup (Firestore.doc_ids c)).
  { vm_compute. repeat (constructor; [cbn; intuition discriminate|]).
    constructor. }
  assert (Hin : In j (JobContext.onSnapshot c)).
  { vm_compute. right. left. reflexivity. }
  split; [exact Hnd|]. split; [exact Hin|]. split; [reflexivity|].
  apply (deletion_removes_one_count (env := RefEnv.utc) light j c Hnd Hin).
  reflexivity.
Defined.

(* ================================================================== *)
(** * The configuration check, the table and the error boundary        *)
(* ================================================================== *)

Lemma check_each_Passed processEnv names :
  FirebaseConfig.check_each processEnv names = FirebaseConfig.Passed
  <-> forallb (fun n => negb (FirebaseConfig.missing processEnv n)) names
      = true.
Proof.
  induction names as [|n r IH]; simpl; [tauto|].
  destruct (FirebaseConfig.missing processEnv n); simpl.
  - split; discriminate.
  - exact IH.
Qed.

Lemma check_each_Failed processEnv names message :
  FirebaseConfig.check_each processEnv names = FirebaseConfig.Failed message
  <-> exists before n after,
        names = before ++ n :: after
        /\ forallb (fun x => negb (FirebaseConfig.missing processEnv x)) before
           = true
        /\ FirebaseConfig.missing processEnv n = true
        /\ message = ("Missing required environment variable: " ++ n)%string.
Proof.
  induction names as [|x r IH]; simpl.
  - split; [discriminate|]. intros (b & n & a & E & _). destruct b; discriminate.
  - destruct (FirebaseConfig.missing processEnv x) eqn:M.
    + split.
      * intros [= <-]. exists [], x, r. repeat split. exact M.
      * intros (b & n & a & E & Hb & Hn & ->). destruct b as [|y b].
        -- simpl in E. injection E as -> _. reflexivity.
        -- simpl in E. injection E as <- _. simpl in Hb. rewrite M in Hb.
           discriminate.
    + rewrite IH. split.
      * intros (b & n & a & -> & Hb & Hn & ->). exists (x :: b), n, a.
        repeat split; try assumption. simpl. now rewrite M.
      * intros (b & n & a & E & Hb & Hn & ->). destruct b as [|y b].
        -- simpl in E. injection E as <- _. congruence.
        -- simpl in E. injection E as <- ->. simpl in Hb.
           apply andb_true_iff in Hb. destruct Hb as [_ Hb].
           exists b, n, a. repeat split; assumption.
Qed.

(** X20. The configuration check passes exactly when each of the six
    required variables is set to a non-empty string (the measurement id is
    not among them); when it fails, the error names the first variable of
    the list that is unset or empty. *)
Theorem FirebaseConfig_validate (processEnv : JS.Obj string) :
  (FirebaseConfig.validate processEnv = FirebaseConfig.Passed
   <-> forall n, In n FirebaseConfig.requiredEnvVars ->
                 exists v, JS.get processEnv n = Some v /\ v <> EmptyString)
  /\ (forall message,
         FirebaseConfig.validate processEnv = FirebaseConfig.Failed message
         <-> exists before n after,
               FirebaseConfig.requiredEnvVars = before ++ n :: after
               /\ (forall x, In x before ->
                     exists v, JS.get processEnv x = Some v
                               /\ v <> EmptyString)
               /\ (JS.get processEnv n = None
                   \/ JS.get processEnv n = Some EmptyString)
               /\ message
                  = ("Missing required environment variable: " ++ n)%string)
  /\ ~ In "REACT_APP_FIREBASE_MEASUREMENT_ID" FirebaseConfig.requiredEnvVars.
Proof.
  assert (Hset : forall n,
             FirebaseConfig.missing processEnv n = false
             <-> exists v, JS.get processEnv n = Some v /\ v <> EmptyString).
  { intros n. unfold FirebaseConfig.missing, JS.truthy.
    destruct (JS.get processEnv n) as [v|].
    - destruct (String.eqb_spec v EmptyString) as [->|Hv]; simpl; split.
      + discriminate.
      + intros (v & [= <-] & H). congruence.
      + intros _. eauto.
      + reflexivity.
    - split; [discriminate | intros (v & H & _); discriminate]. }
  assert (Hmiss : forall n,
             FirebaseConfig.missing processEnv n = true
             <-> JS.get processEnv n = None
                 \/ JS.get processEnv n = Some EmptyString).
  { intros n. unfold FirebaseConfig.missing, JS.truthy.
    destruct (JS.get processEnv n) as [v|].
    - destruct (String.eqb_spec v EmptyString) as [->|Hv]; simpl; split; auto.
      + discriminate.
      + intros [H|[= H]]; [discriminate | congruence].
    - split; auto. }
  assert (Hall : forall l,
             forallb (fun x => negb (FirebaseConfig.missing processEnv x)) l
             = true
             <-> forall x, In x l ->
                   exists v, JS.get processEnv x = Some v /\ v <> EmptyString).
  { intros l. rewrite forallb_forall. split; intros H x Hx.
    - apply Hset. specialize (H x Hx). now apply negb_true_iff in H.
    - apply negb_true_iff. apply Hset. now apply H. }
  unfold FirebaseConfig.validate. split; [|split].
  - rewrite check_each_Passed. apply Hall.
  - intros message. rewrite check_each_Failed. split.
    + intros (b & n & a & E & Hb & Hn & Hm). exists b, n, a.
      split; [exact E|]. split; [now apply Hall|]. split; [now apply Hmiss|].
      exact Hm.
    + intros (b & n & a & E & Hb & Hn & Hm). exists b, n, a.
      split; [exact E|]. split; [now apply Hall|]. split; [now apply Hmiss|].
      exact Hm.
  - cbn. intuition discriminate.
Qed.

Section TableAndBoundary.
Context {env : DateEnv}.
Variable toLocaleDateString : TimeValue -> string.

(** X21. The table shows the "no jobs" text exactly on an empty list once
    loading is over; otherwise it has one row per job, in order, keyed by
    the [id] of the job (so the keys are distinct when the identifiers
    are), and the status each row shows is one of the options of its
    selector. *)
Theorem JobList_table (loading : bool) (js : list Job) :
  (JobList_render toLocaleDateString loading js = ListLoading
   <-> loading = true)
  /\ (JobList_render toLocaleDateString loading js = ListEmpty
      <-> loading = false /\ js = [])
  /\ (loading = false -> js <> [] ->
      exists rows,
        JobList_render toLocaleDateString loading js = ListTable rows
        /\ map row_key rows = map id js
        /\ map row_status rows = map status js
        /\ map row_company rows = map company js
        /\ (NoDup (map id js) -> NoDup (map row_key rows))
        /\ Forall (fun row => In (row_status row) (row_menu row)) rows).
Proof.
  unfold JobList_render. destruct loading.
  - split; [tauto|]. split; [|discriminate].
    split; [discriminate | intros [H _]; discriminate].
  - destruct js as [|j r].
    + cbn. split; [split; discriminate|]. split; [tauto|]. congruence.
    + cbn [List.length Nat.eqb]. split; [split; discriminate|].
      split; [split; [discriminate | intros [_ H]; discriminate]|].
      intros _ _. eexists. split; [reflexivity|].
      rewrite !map_map. cbn [row_key row_status row_company].
      split; [reflexivity|]. split; [reflexivity|]. split; [reflexivity|].
      split; [tauto|].
      apply Forall_forall. intros row Hrow. apply in_map_iff in Hrow.
      destruct Hrow as (x & <- & _). cbn [row_status row_menu].
      unfold JobList.status_menu. destruct (status x); cbn; auto 6.
Qed.

Lemma App_render_failed (s : ErrorBoundary.State) mode loading error w :
  ErrorBoundary.hasError s = true ->
  App_render toLocaleDateString s mode loading error w
  = (AppError ErrorBoundary.fallback, s, w).
Proof. intros H. unfold App_render. now rewrite H. Qed.

Lemma App_renders_failed mode passes : forall s,
  ErrorBoundary.hasError s = true ->
  ErrorBoundary.hasError (App_renders toLocaleDateString s mode passes) = true.
Proof.
  induction passes as [|[[loading error] w] r IH]; intros s H; [exact H|].
  cbn [App_renders]. apply IH. now rewrite App_render_failed.
Qed.

Lemma App_render_throws (s : ErrorBoundary.State) mode loading error w :
  ErrorBoundary.hasError s = false ->
  jobs w <> [] -> forallb well_dated (jobs w) = false ->
  fst (App_render toLocaleDateString s mode loading error w)
  = (AppError ErrorBoundary.fallback, ErrorBoundary.mkState true).
Proof.
  intros Hs Hne Hd. unfold App_render, Dashboard_render, bind.
  rewrite Hs, Dashboard_useMemo_spec.
  destruct (jobs w) as [|j r]; [congruence|]. cbv zeta. rewrite Hd.
  reflexivity.
Qed.

(** X22. While the boundary has caught nothing, the page is replaced by
    the error alert exactly when the job list is not empty and one of its
    jobs has a date that [Date] does not accept, whether or not the
    context is still loading or reports an error; in every other case the
    page is rendered with the dashboard and the table. *)
Theorem App_error_alert (mode : PaletteMode) (loading : bool)
        (error : option string) (w : World) :
  let out := fst (App_render toLocaleDateString ErrorBoundary.initial
                             mode loading error w) in
  (fst out = AppError ErrorBoundary.fallback
   <-> jobs w <> [] /\ forallb well_dated (jobs w) = false)
  /\ (ErrorBoundary.hasError (snd out) = true
      <-> jobs w <> [] /\ forallb well_dated (jobs w) = false)
  /\ ((jobs w = [] \/ forallb well_dated (jobs w) = true) ->
      exists v,
        fst (Dashboard_render mode loading error w) = Ok v
        /\ fst out
           = AppPage v (JobList_render toLocaleDateString loading (jobs w))).
Proof.
  cbv zeta. unfold App_render. cbn [ErrorBoundary.initial ErrorBoundary.hasError].
  unfold Dashboard_render, bind. rewrite Dashboard_useMemo_spec.
  destruct (jobs w) as [|j r] eqn:Ej.
  - cbn [fst snd].
    assert (E : exists v,
               (if loading then ret ViewLoading
                else match error with
                     | Some message =>
                         ret (ViewError ("Error loading job data: " ++ message)%string)
                     | None =>
                         if (totalJobs empty_metrics =? 0)%nat then ret ViewEmpty
                         else ret (ViewCharts (charts_of empty_metrics))
                     end) w = (Ok v, w)).
    { destruct loading; [eexists; reflexivity|].
      destruct error; eexists; reflexivity. }
    destruct E as [v E]. rewrite E. cbn [fst snd ErrorBoundary.hasError].
    split; [split; [discriminate | intros [H _]; congruence]|].
    split; [split; [discriminate | intros [H _]; congruence]|].
    intros _. exists v. split; reflexivity.
  - cbv zeta. destruct (forallb well_dated (j :: r)) eqn:Hd.
    + match goal with
      | |- context [(if loading then ?a else ?b) ?w'] =>
          assert (E : exists v, (if loading then a else b) w' = (Ok v, w'))
      end.
      { destruct loading; [eexists; reflexivity|].
        destruct error; eexists; reflexivity. }
      destruct E as [v E]. rewrite E. cbn [fst snd ErrorBoundary.hasError].
      split; [split; [discriminate | intros [_ H]; discriminate]|].
      split; [split; [discriminate | intros [_ H]; discriminate]|].
      intros _. exists v. split; reflexivity.
    + cbn [fst snd ErrorBoundary.getDerivedStateFromError
           ErrorBoundary.hasError].
      split; [split; [intros _; split; [discriminate | reflexivity]
                     | reflexivity]|].
      split; [split; [intros _; split; [discriminate | reflexivity]
                     | reflexivity]|].
      intros [H|H]; discriminate.
Qed.

(** X23. The error alert is permanent: once a rendering met a non-empty
    job list with a date that [Date] does not accept, every later
    rendering shows the alert, writes nothing and renders neither the
    dashboard nor the table, even on a job list that has been repaired. *)
Theorem App_error_is_permanent
        (mode : PaletteMode)
        (before after : list (bool * option string * World))
        (loading : bool) (error : option string) (w : World)
        (loading' : bool) (error' : option string) (w' : World) :
  jobs w <> [] ->
  forallb well_dated (jobs w) = false ->
  let s := App_renders toLocaleDateString ErrorBoundary.initial mode
             (before ++ (loading, error, w) :: after) in
  ErrorBoundary.hasError s = true
  /\ App_render toLocaleDateString s mode loading' error' w'
     = (AppError ErrorBoundary.fallback, s, w').
Proof.
  intros Hne Hd s.
  assert (Hs : ErrorBoundary.hasError s = true).
  { unfold s. generalize ErrorBoundary.initial.
    induction before as [|[[l e] x] r IH]; intros s0.
    - cbn [app App_renders]. apply App_renders_failed.
      destruct (ErrorBoundary.hasError s0) eqn:H0.
      + now rewrite App_render_failed.
      + now rewrite App_render_throws.
    - cbn [app App_renders]. apply IH. }
  split; [exact Hs | now apply App_render_failed].
Qed.

End TableAndBoundary.

Lemma JobList_table_witness :
  let js := Examples.funnel in
  let fmt := fun t : TimeValue (DateEnv := RefEnv.utc) => "a date" in
  false = false /\ js <> []
  /\ exists rows,
       JobList_render (env := RefEnv.utc) fmt false js = ListTable rows
       /\ map row_key rows = map id js
       /\ map row_status rows = map status js
       /\ map row_company rows = map company js
       /\ (NoDup (map id js) -> NoDup (map row_key rows))
       /\ Forall (fun row => In (row_status row) (row_menu row)) rows.
Proof.
  intros js fmt. split; [reflexivity|]. split; [discriminate|].
  apply (JobList_table (env := RefEnv.utc) fmt false js);
    [reflexivity | discriminate].
Defined.

Lemma App_error_is_permanent_witness :
  let fmt := fun t : TimeValue (DateEnv := RefEnv.utc) => "a date" in
  let w := mkWorld Examples.undatable [] in
  let w' := mkWorld Examples.funnel [] in
  jobs w <> []
  /\ forallb (well_dated (env := RefEnv.utc)) (jobs w) = false
  /\ let s := App_renders (env := RefEnv.utc) fmt ErrorBoundary.initial light
                ([(true, None, mkWorld [] [])] ++ (false, None, w) :: []) in
     ErrorBoundary.hasError s = true
     /\ App_render (env := RefEnv.utc) fmt s light false None w'
        = (AppError ErrorBoundary.fallback, s, w').
Proof.
  intros fmt w w'. split; [discriminate|]. split; [reflexivity|].
  apply (App_error_is_permanent (env := RefEnv.utc) fmt light
           [(true, None, mkWorld [] [])] [] false None w false None w');
    [discriminate | reflexivity].
Defined.

(* ================================================================== *)
(** * Rounding keeps the order                                         *)
(* ================================================================== *)

Module RoundingOrder.
Local Open Scope Q_scope.

Lemma ilog2_lt (q : Q) : 0 < q -> q < 2 ^ (JS.ilog2 q + 1).
Proof.
  intros Hq. unfold JS.ilog2.
  destruct (Qle_bool (2 ^ (Z.log2 (Qnum q) - Z.log2 (Z.pos (Qden q)))) q) eqn:E.
  - clear E. destruct q as [n d]. cbn [Qnum Qden].
    assert (Hn : (0 < n)%Z).
    { unfold Qlt in Hq. simpl in Hq. lia. }
    set (ln := Z.log2 n). set (ld := Z.log2 (Z.pos d)).
    assert (Hln : (0 <= ln)%Z) by apply Z.log2_nonneg.
    assert (Hld : (0 <= ld)%Z) by apply Z.log2_nonneg.
    assert (Hpow : 2 ^ (ln - ld + 1)
                   == inject_Z (2 ^ (ln + 1)) / inject_Z (2 ^ ld)).
    { replace (ln - ld + 1)%Z with ((ln + 1) - ld)%Z by lia.
      rewrite (Qpower_minus 2 (ln + 1) ld NumberFacts.two_neq_0).
      rewrite (NumberFacts.Qpower2_inject (ln + 1)),
              (NumberFacts.Qpower2_inject ld) by lia.
      reflexivity. }
    rewrite Hpow.
    destruct (Z.log2_spec n Hn) as [_ Hn2]. fold ln in Hn2.
    replace (Z.succ ln) with (ln + 1)%Z in Hn2 by lia.
    destruct (Z.log2_spec (Z.pos d)) as [Hd1 _]; [lia|]. fold ld in Hd1.
    assert (HB : (0 < 2 ^ (ln + 1))%Z) by (apply Z.pow_pos_nonneg; lia).
    assert (HA : (0 < 2 ^ ld)%Z) by (apply Z.pow_pos_nonneg; lia).
    apply Qlt_shift_div_l.
    + change 0 with (inject_Z 0). rewrite <- Zlt_Qlt. exact HA.
    + unfold Qlt, Qmult, inject_Z. simpl. nia.
  - replace (Z.log2 (Qnum q) - Z.log2 (Z.pos (Qden q)) - 1 + 1)%Z
      with (Z.log2 (Qnum q) - Z.log2 (Z.pos (Qden q)))%Z by lia.
    apply Qnot_le_lt. intros H. apply Qle_bool_iff in H. congruence.
Qed.

Lemma ilog2_mono (q1 q2 : Q) : 0 < q1 -> q1 <= q2 ->
  (JS.ilog2 q1 <= JS.ilog2 q2)%Z.
Proof.
  intros H1 H12.
  assert (H2 : 0 < q2) by lra.
  pose proof (NumberFacts.ilog2_le q1 H1) as L1.
  pose proof (ilog2_lt q2 H2) as U2.
  destruct (Z_le_gt_dec (JS.ilog2 q1) (JS.ilog2 q2)) as [H|H]; [exact H|].
  exfalso.
  assert (K : 2 ^ (JS.ilog2 q2 + 1) <= 2 ^ JS.ilog2 q1).
  { apply Qpower_le_compat_l; [lia | lra]. }
  lra.
Qed.

Lemma rne_comp (s s' : Q) : s == s' -> JS.rne s = JS.rne s'.
Proof.
  intros E. unfold JS.rne. rewrite (Qfloor_comp _ _ E).
  assert (C : (s - inject_Z (Qfloor s') ?= 1 # 2)
              = (s' - inject_Z (Qfloor s') ?= 1 # 2)).
  { now rewrite E. }
  now rewrite C.
Qed.

Lemma rne_mono (s1 s2 : Q) : s1 <= s2 -> (JS.rne s1 <= JS.rne s2)%Z.
Proof.
  intros H.
  destruct (NumberFacts.rne_err s1) as [A1 A2].
  destruct (NumberFacts.rne_err s2) as [B1 B2].
  destruct (Z_le_gt_dec (JS.rne s1) (JS.rne s2)) as [K|K]; [exact K|].
  exfalso.
  assert (K' : inject_Z (JS.rne s2) + 1 <= inject_Z (JS.rne s1)).
  { change 1 with (inject_Z 1). rewrite <- inject_Z_plus, <- Zle_Qle. lia. }
  assert (E : s2 <= s1).
  { clear K. revert A1 A2 B1 B2 K'. generalize (inject_Z (JS.rne s1)).
    generalize (inject_Z (JS.rne s2)). intros q q0 A1 A2 B1 B2 K'. 
    lra. }
  assert (E' : s1 == s2) by (apply Qle_antisym; assumption).
  rewrite (rne_comp _ _ E') in K. lia.
Qed.

Lemma rne_inject (a : Z) : JS.rne (inject_Z a) = a.
Proof.
  unfold JS.rne. rewrite Qfloor_Z.
  assert (C : (inject_Z a - inject_Z a ?= 1 # 2) = Lt).
  { apply Qlt_alt. setoid_replace (inject_Z a - inject_Z a) with 0 by ring.
    reflexivity. }
  now rewrite C.
Qed.

Lemma round_pos_mono (q1 q2 : Q) : 0 < q1 -> q1 <= q2 ->
  JS.round_pos q1 <= JS.round_pos q2.
Proof.
  intros H1 H12. assert (H2 : 0 < q2) by lra.
  unfold JS.round_pos. rewrite !Qred_correct.
  pose proof (ilog2_mono q1 q2 H1 H12) as Hk.
  pose proof (NumberFacts.ilog2_le q1 H1) as L1.
  pose proof (ilog2_lt q1 H1) as U1.
  pose proof (NumberFacts.ilog2_le q2 H2) as L2.
  set (k1 := JS.ilog2 q1) in *. set (k2 := JS.ilog2 q2) in *.
  assert (P1 : 0 < 2 ^ (k1 - 52)) by (apply Qpower_0_lt; reflexivity).
  assert (P2 : 0 < 2 ^ (k2 - 52)) by (apply Qpower_0_lt; reflexivity).
  destruct (Z.eq_dec k1 k2) as [E|E].
  - rewrite <- E. apply Qmult_le_compat_r; [|lra].
    rewrite <- Zle_Qle. apply rne_mono.
    apply Qmult_le_compat_r; [exact H12|].
    apply Qlt_le_weak, Qinv_lt_0_compat, P1.
  - assert (Hlt : (k1 + 1 <= k2)%Z) by lia.
    (* m1 <= 2^53 *)
    assert (S1 : q1 / 2 ^ (k1 - 52) <= inject_Z (2 ^ 53)).
    { apply Qle_shift_div_r; [exact P1|].
      rewrite <- (NumberFacts.Qpower2_inject 53) by lia.
      rewrite <- Qpower_plus by apply NumberFacts.two_neq_0.
      replace (53 + (k1 - 52))%Z with (k1 + 1)%Z by lia. lra. }
    assert (M1 : (JS.rne (q1 / 2 ^ (k1 - 52)) <= 2 ^ 53)%Z).
    { rewrite <- (rne_inject (2 ^ 53)). now apply rne_mono. }
    assert (S2 : inject_Z (2 ^ 52) <= q2 / 2 ^ (k2 - 52)).
    { apply Qle_shift_div_l; [exact P2|].
      rewrite <- (NumberFacts.Qpower2_inject 52) by lia.
      rewrite <- Qpower_plus by apply NumberFacts.two_neq_0.
      replace (52 + (k2 - 52))%Z with k2 by lia. exact L2. }
    assert (M2 : (2 ^ 52 <= JS.rne (q2 / 2 ^ (k2 - 52)))%Z).
    { rewrite <- (rne_inject (2 ^ 52)) at 1. now apply rne_mono. }
    apply Qle_trans with (inject_Z (2 ^ 53) * 2 ^ (k1 - 52)).
    { apply Qmult_le_compat_r; [|lra]. now rewrite <- Zle_Qle. }
    apply Qle_trans with (inject_Z (2 ^ 52) * 2 ^ (k2 - 52)).
    2:{ apply Qmult_le_compat_r; [|lra]. now rewrite <- Zle_Qle. }
    rewrite <- (NumberFacts.Qpower2_inject 53), <- (NumberFacts.Qpower2_inject 52)
      by lia.
    rewrite <- !Qpower_plus by apply NumberFacts.two_neq_0.
    apply Qpower_le_compat_l; [lia | lra].
Qed.

Lemma round_pos_pos (q : Q) : 0 < q -> 0 < JS.round_pos q.
Proof.
  intros H. destruct (NumberFacts.round_pos_err q H) as [A _].
  unfold u53 in A. lra.
Qed.

Lemma binary64_mono (q1 q2 : Q) : 0 <= q1 -> q1 <= q2 ->
  JS.binary64 q1 <= JS.binary64 q2.
Proof.
  intros H1 H12. unfold JS.binary64.
  destruct q1 as [[|p1|p1] d1]; destruct q2 as [[|p2|p2] d2]; cbn [Qnum].
  all: try (exfalso; revert H1 H12; unfold Qle; simpl; lia).
  - lra.
  - apply Qlt_le_weak, round_pos_pos. reflexivity.
  - apply round_pos_mono; [reflexivity | exact H12].
Qed.

Lemma binary64_nonneg (q : Q) : 0 <= q -> 0 <= JS.binary64 q.
Proof.
  intros H. change 0 with (JS.binary64 0) at 1. now apply binary64_mono.
Qed.

Lemma percent_mono (n1 d1 n2 d2 : nat) :
  (0 < d1)%nat -> (0 < d2)%nat -> (n1 * d2 <= n2 * d1)%nat ->
  percent_of n1 d1 <= percent_of n2 d2.
Proof.
  intros H1 H2 H. unfold percent_of, JS.mul, JS.div.
  pose proof (NumberFacts.of_nat_pos d1 H1) as P1.
  pose proof (NumberFacts.of_nat_pos d2 H2) as P2.
  pose proof (NumberFacts.of_nat_nonneg n1) as N1.
  assert (X0 : 0 <= JS.of_nat n1 / JS.of_nat d1).
  { apply Qle_shift_div_l; lra. }
  assert (X12 : JS.of_nat n1 / JS.of_nat d1 <= JS.of_nat n2 / JS.of_nat d2).
  { apply Qle_shift_div_l; [exact P2|].
    unfold Qdiv. rewrite <- Qmult_assoc, (Qmult_comm (/ JS.of_nat d1)),
      Qmult_assoc.
    apply Qle_shift_div_r; [exact P1|].
    unfold JS.of_nat. rewrite <- !inject_Z_mult, <- Zle_Qle. lia. }
  assert (H100 : JS.of_nat 100 == 100) by reflexivity.
  pose proof (binary64_nonneg _ X0) as B0.
  pose proof (binary64_mono _ _ X0 X12) as B12.
  apply binary64_mono.
  - rewrite H100. lra.
  - rewrite H100. lra.
Qed.

End RoundingOrder.

(** X24. The rate expression keeps the order of the exact ratios: when
    num1 / den1 <= num2 / den2 (positive denominators) the rate of the
    first pair is at most the rate of the second; so with the same
    denominator more in the numerator never lowers a rate, and two pairs
    with the same ratio have the same rate. *)
Theorem rate_monotone (n1 d1 n2 d2 : nat) :
  0 < d1 -> 0 < d2 -> n1 * d2 <= n2 * d1 ->
  (rate n1 d1 <= rate n2 d2)%Z
  /\ (n1 * d2 = n2 * d1 -> rate n1 d1 = rate n2 d2).
Proof.
  assert (G : forall a b c d : nat,
             0 < b -> 0 < d -> a * d <= c * b -> (rate a b <= rate c d)%Z).
  { intros a b c d H1 H2 H. unfold rate.
    replace (0 <? b)%nat with true by (symmetry; now apply Nat.ltb_lt).
    replace (0 <? d)%nat with true by (symmetry; now apply Nat.ltb_lt).
    unfold JS.Math_round. apply Qfloor_resp_le.
    pose proof (RoundingOrder.percent_mono a b c d H1 H2 H) as P.
    unfold percent_of in P.
    apply Qplus_le_compat; [exact P | apply Qle_refl]. }
  intros H1 H2 H. split; [now apply G|].
  intros E. apply Z.le_antisymm; apply G; auto; lia.
Qed.

Lemma rate_monotone_witness :
  0 < 7 /\ 0 < 7 /\ 1 * 7 <= 2 * 7
  /\ (rate 1 7 <= rate 2 7)%Z
  /\ (1 * 7 = 2 * 7 -> rate 1 7 = rate 2 7).
Proof.
  split; [lia|]. split; [lia|]. split; [lia|].
  apply (rate_monotone 1 7 2 7); lia.
Defined.

(* ================================================================== *)
(** * The provider between the store and the components                *)
(* ================================================================== *)

Lemma JobProvider_fold es : forall s,
  es <> [] ->
  let s' := fold_left JobProvider.step es s in
  JobProvider.loading s' = false
  /\ JobProvider.jobs s' = JobProvider.last_snapshot es (JobProvider.jobs s)
  /\ JobProvider.error s'
     = match last es (JobProvider.Snapshot []) with
       | JobProvider.Snapshot _ => None
       | JobProvider.ListenError message => Some message
       end.
Proof.
  induction es as [|e r IH]; intros s Hne; [congruence|].
  destruct r as [|e' r'].
  - destruct e; cbn; auto.
  - specialize (IH (JobProvider.step s e) ltac:(discriminate)).
    cbv zeta in IH. cbn [fold_left]. cbn [fold_left] in IH.
    destruct IH as (I1 & I2 & I3). cbv zeta.
    split; [exact I1|]. split.
    + rewrite I2. destruct e; reflexivity.
    + rewrite I3. reflexivity.
Qed.

Section ProviderAndViews.
Context {env : DateEnv}.
Variable toLocaleDateString : TimeValue -> string.

(** X25. After the first event of the snapshot listener the provider is
    never loading again; its jobs are those of the last snapshot, kept
    through listener errors; its error is set exactly when the last event
    was a listener error.  So after a listener error that follows a
    non-empty snapshot of well-dated jobs, the dashboard shows the error
    alert while the table still lists the jobs of that snapshot. *)
Theorem JobProvider_state (mode : PaletteMode)
        (es : list JobProvider.Event) (log : list (list LogArg)) :
  es <> [] ->
  let s := JobProvider.run es in
  JobProvider.loading s = false
  /\ JobProvider.jobs s = JobProvider.last_snapshot es []
  /\ (JobProvider.error s <> None
      <-> exists message,
            last es (JobProvider.Snapshot []) = JobProvider.ListenError message
            /\ JobProvider.error s = Some message)
  /\ (forall message,
         JobProvider.error s = Some message ->
         JobProvider.jobs s <> [] ->
         forallb well_dated (JobProvider.jobs s) = true ->
         fst (Dashboard_render mode (JobProvider.loading s)
                (JobProvider.error s) (mkWorld (JobProvider.jobs s) log))
         = Ok (ViewError ("Error loading job data: " ++ message)%string)
         /\ exists rows,
              JobList_render toLocaleDateString (JobProvider.loading s)
                             (JobProvider.jobs s)
              = ListTable rows
              /\ map row_key rows = map id (JobProvider.jobs s)).
Proof.
  intros Hne s. unfold s, JobProvider.run.
  destruct (JobProvider_fold es JobProvider.initial Hne) as (H1 & H2 & H3).
  cbv zeta in H1, H2, H3. cbn [JobProvider.initial JobProvider.jobs] in H2.
  fold (JobProvider.run es) in *.
  split; [exact H1|]. split; [exact H2|]. split.
  - rewrite H3. destruct (last es (JobProvider.Snapshot [])) as [c|m].
    + split; [congruence | intros (m & E & _); discriminate].
    + split; [intros _; exists m; auto | discriminate].
  - intros message Herr Hjobs Hd. rewrite H1, Herr. split.
    + rewrite (Dashboard_render_spec mode false (Some message)
                 (mkWorld (JobProvider.jobs (JobProvider.run es)) log) Hd).
      reflexivity.
    + unfold JobList_render.
      destruct (JobProvider.jobs (JobProvider.run es)) as [|j r] eqn:Ej;
        [congruence|].
      cbn [List.length Nat.eqb]. eexists. split; [reflexivity|].
      rewrite map_map. reflexivity.
Qed.

End ProviderAndViews.

Lemma JobProvider_state_witness :
  let fmt := fun t : TimeValue (DateEnv := RefEnv.utc) => "a date" in
  let es := MoreExamples.feed in
  es <> []
  /\ let s := JobProvider.run es in
     JobProvider.loading s = false
     /\ JobProvider.jobs s = JobProvider.last_snapshot es []
     /\ (JobProvider.error s <> None
         <-> exists message,
               last es (JobProvider.Snapshot [])
               = JobProvider.ListenError message
               /\ JobProvider.error s = Some message)
     /\ (forall message,
            JobProvider.error s = Some message ->
            JobProvider.jobs s <> [] ->
            forallb (well_dated (env := RefEnv.utc)) (JobProvider.jobs s) = true ->
            fst (Dashboard_render (env := RefEnv.utc) light
                   (JobProvider.loading s) (JobProvider.error s)
                   (mkWorld (JobProvider.jobs s) []))
            = Ok (ViewError ("Error loading job data: " ++ message)%string)
            /\ exists rows,
                 JobList_render (env := RefEnv.utc) fmt (JobProvider.loading s)
                                (JobProvider.jobs s)
                 = ListTable rows
                 /\ map row_key rows = map id (JobProvider.jobs s)).
Proof.
  intros fmt es. split; [discriminate|].
  apply (JobProvider_state (env := RefEnv.utc) fmt light es []).
  discriminate.
Defined.
